(** * GME interest-income model: quarter frame, rate adapter, purchase
      schedule, daily path reconciler and quarter loop

    A shallow embedding of [interestmodel.py].

    Conventions of the embedding.
    - A Python [float] is an exact rational ([Q]); equalities between
      money amounts are stated with [==] ([Qeq]).  Rounding of binary
      floating point is outside this part of the model; the drift of a
      forecast quarter, where rounding decides, is computed a second
      time on binary64 numbers ([PrimFloat]).
    - A float that may be NaN (a pandas cell) is an [option Q], [None]
      being NaN.
    - A normalized [pd.Timestamp] is the number of days since 1970-01-01
      ([Z]); [pd.Timedelta(days=k)] is the integer [k].
    - A pandas Series indexed by dates is an association list in index
      order; a DataFrame is a list of row records in index order.
    - A raised exception is the [Raise] branch of [result].
    - The outcome of a call to an external data provider is an argument
      of the function that makes the call. *)

From Stdlib Require Import String Ascii Bool ZArith QArith Qfield Lia.
From Stdlib Require Import Setoid Morphisms Permutation Sorted List.
From Stdlib Require PrimFloat.
Import ListNotations.

Local Open Scope Z_scope.

(* ------------------------------------------------------------------ *)
(** ** Exceptions *)

Inductive exn : Type :=
| IndexError
| KeyError
| ValueError
| RuntimeError.

Inductive result (A : Type) : Type :=
| Ok (a : A)
| Raise (e : exn).

Arguments Ok {A} a.
Arguments Raise {A} e.

Definition bind {A B : Type} (c : result A) (k : A -> result B) : result B :=
  match c with
  | Ok a => k a
  | Raise e => Raise e
  end.

Notation "x <- c ;; k" := (bind c (fun x => k))
  (at level 61, c at next level, right associativity).

Notation "' pat <- c ;; k" :=
  (bind c (fun x => match x with pat => k end))
  (at level 61, pat pattern, c at next level, right associativity).

Fixpoint mapM {A B : Type} (f : A -> result B) (l : list A) : result (list B) :=
  match l with
  | [] => Ok []
  | a :: tl => b <- f a ;; bs <- mapM f tl ;; Ok (b :: bs)
  end.

(* ------------------------------------------------------------------ *)
(** ** Configuration *)

Definition DAYCOUNT : Q := 365.
Definition ATM_NET_TO_GROSS : Q := 995 # 1000.
Definition DEFAULT_OFFLINE_RATE_PCT : Q := 5.
Definition BTC_USD_TOTAL_MM : Q := 510.
Definition BTC_FEE_BPS : Q := 150.
Definition BTC_PRICE_BASIS : string := "close".

(* ------------------------------------------------------------------ *)
(** ** Dates *)

Abbreviation Timestamp := Z (only parsing).

(** Day number of the civil date [y]-[m]-[d] (proleptic Gregorian
    calendar, day 0 = 1970-01-01). *)
Definition days_from_civil (y m d : Z) : Z :=
  let y' := if m <=? 2 then y - 1 else y in
  let era := y' / 400 in
  let yoe := y' - era * 400 in
  let mp := (m + 9) mod 12 in
  let doy := (153 * mp + 2) / 5 + d - 1 in
  let doe := yoe * 365 + yoe / 4 - yoe / 100 + doy in
  era * 146097 + doe - 719468.

Definition civil_from_days (z : Z) : Z * Z * Z :=
  let z' := z + 719468 in
  let era := z' / 146097 in
  let doe := z' - era * 146097 in
  let yoe := (doe - doe / 1460 + doe / 36524 - doe / 146096) / 365 in
  let doy := doe - (365 * yoe + yoe / 4 - yoe / 100) in
  let mp := (5 * doy + 2) / 153 in
  let d := doy - (153 * mp + 2) / 5 + 1 in
  let m := if mp <? 10 then mp + 3 else mp - 9 in
  let y := yoe + era * 400 in
  (if m <=? 2 then y + 1 else y, m, d).

Definition digit_of (c : ascii) : option Z :=
  let n := Z.of_nat (nat_of_ascii c) in
  if (48 <=? n) && (n <=? 57) then Some (n - 48) else None.

Fixpoint number_of (acc : Z) (cs : list ascii) : option Z :=
  match cs with
  | [] => Some acc
  | c :: tl =>
      match digit_of c with
      | Some n => number_of (10 * acc + n) tl
      | None => None
      end
  end.

Definition dash : ascii := "-"%char.

(** [to_dt]: [pd.Timestamp(s).normalize()] for the date strings of this
    program, which are all of the form YYYY-MM-DD, in the years that a
    [pd.Timestamp] covers.  A string of that form that names no calendar
    day raises, as it does in pandas.  Strings of other forms, some of
    which pandas parses, and years that pandas refuses are outside this
    model: what [to_dt] returns on them says nothing about the
    program. *)
Definition to_dt (s : string) : result Timestamp :=
  match list_ascii_of_string s with
  | [y1; y2; y3; y4; s1; m1; m2; s2; d1; d2] =>
      if Ascii.eqb s1 dash && Ascii.eqb s2 dash then
        match number_of 0 [y1; y2; y3; y4],
              number_of 0 [m1; m2],
              number_of 0 [d1; d2] with
        | Some y, Some m, Some d =>
            let t := days_from_civil y m d in
            let '(y', m', d') := civil_from_days t in
            if (y' =? y) && (m' =? m) && (d' =? d) then Ok t
            else Raise ValueError
        | _, _, _ => Raise ValueError
        end
      else Raise ValueError
  | _ => Raise ValueError
  end.

Definition ascii_of_digit (n : Z) : ascii :=
  ascii_of_nat (Z.to_nat (48 + n mod 10)).

Definition digits2 (n : Z) : list ascii :=
  [ascii_of_digit (n / 10); ascii_of_digit n].

Definition digits4 (n : Z) : list ascii :=
  [ascii_of_digit (n / 1000); ascii_of_digit (n / 100);
   ascii_of_digit (n / 10); ascii_of_digit n].

(** [t.strftime("%Y-%m-%d")]. *)
Definition strftime (t : Timestamp) : string :=
  let '(y, m, d) := civil_from_days t in
  string_of_list_ascii
    (digits4 y ++ [dash] ++ digits2 m ++ [dash] ++ digits2 d).

(** [pd.date_range(s, e, freq="D")]: every day from [s] to [e], both
    included; empty when [e] is before [s]. *)
Fixpoint days_from (s : Timestamp) (n : nat) : list Timestamp :=
  match n with
  | O => []
  | S k => s :: days_from (s + 1) k
  end.

Definition date_range (s e : Timestamp) : list Timestamp :=
  days_from s (Z.to_nat (e - s + 1)).

(* ------------------------------------------------------------------ *)
(** ** Domain data *)

(** A [Dict[str, float]], in insertion order. *)
Definition Dict : Type := list (string * Q).

Fixpoint dict_get (k : string) (d : Dict) : option Q :=
  match d with
  | [] => None
  | (k', v) :: tl => if String.eqb k k' then Some v else dict_get k tl
  end.

Definition keys (d : Dict) : list string := map fst d.

Definition quarter_end_liquidity : Dict :=
  [ ("2022-04-30", 10350 # 10);
    ("2022-07-30",  9089 # 10);
    ("2022-10-29", 10421 # 10);
    ("2023-01-28", 13906 # 10);
    ("2023-04-29", 13101 # 10);
    ("2023-07-29", 11947 # 10);
    ("2023-10-28", 12095 # 10);
    ("2024-02-03", 11993 # 10);
    ("2024-05-04", 10829 # 10);
    ("2024-08-03", 42042 # 10);
    ("2024-11-02", 46162 # 10);
    ("2025-02-01", 47749 # 10);
    ("2025-05-03", 63858 # 10) ]%string.

(** A scheduled rate event.  [None] in [delta_bps] or [to_pct] stands
    for a missing key as well as for a key bound to [None]: the code
    treats both alike. *)
Record RateEvent : Type := {
  ev_date : string;
  delta_bps : option Q;
  to_pct : option Q
}.

Definition FUTURE_RATE_EVENTS : list RateEvent :=
  [ {| ev_date := "2025-09-17"; delta_bps := Some (-25 # 1); to_pct := None |};
    {| ev_date := "2025-10-29"; delta_bps := Some (-25 # 1); to_pct := None |} ].

(** A row of the dated-events frame. *)
Record Event : Type := {
  e_date : Timestamp;
  amount : Q;
  label : string
}.

(** Sorting by a key.  The insertion sort is stable, as Python's
    [sorted] is; on the dated events, whose dates are distinct,
    [sort_values] gives this order too. *)
Section Sorting.
Context {A : Type} (key : A -> Z).

Fixpoint insert_sorted (a : A) (l : list A) : list A :=
  match l with
  | [] => [a]
  | b :: tl => if key a <=? key b then a :: b :: tl
               else b :: insert_sorted a tl
  end.

Definition sorted_by (l : list A) : list A :=
  fold_right insert_sorted [] l.
End Sorting.

Definition dated_event_rows (net_to_gross : Q) : list (string * Q * string) :=
  [ ("2024-05-24", (9334 # 10) * net_to_gross, "ATM (45M shares) gross~net");
    ("2024-06-11", 2137 * net_to_gross,        "ATM (75M shares) gross~net");
    ("2024-09-23", 3981 # 10,                  "ATM (20M shares) NET per 10-Q");
    ("2025-04-01", 14807 # 10,                 "Convertible notes 2030 (NET)");
    ("2025-06-17", 2230,                       "Convertible notes 2032 (NET est.)");
    ("2025-06-24", 4466 # 10,
       "Convertible notes 2032 GREENSHOE (NET ~ per 8-K)") ]%string%Q.

Definition dated_events (net_to_gross : Q) : result (list Event) :=
  df <- mapM (fun '(d, a, l) =>
               t <- to_dt d ;;
               Ok {| e_date := t; amount := a; label := l |})
             (dated_event_rows net_to_gross) ;;
  Ok (sorted_by e_date df).

(* ------------------------------------------------------------------ *)
(** ** Quarter frame *)

Record QuarterRow : Type := {
  iq : Z;
  q_end : Timestamp;
  q_start : Timestamp;
  days : Z
}.

(** The loop that appends [n] forecast quarter ends; [ends[-1]] raises
    [IndexError] on an empty list. *)
Fixpoint append_forecast_ends (n : nat) (quarter_days : Z)
    (ends : list Timestamp) : result (list Timestamp) :=
  match n with
  | O => Ok ends
  | S k =>
      match rev ends with
      | [] => Raise IndexError
      | last_end :: _ =>
          append_forecast_ends k quarter_days (ends ++ [last_end + quarter_days])
      end
  end.

(** The loop over [enumerate(ends)], [prev] being [None] at the first
    row; a row is (iq, q_end, q_start). *)
Fixpoint quarter_rows (i : Z) (prev : option Timestamp) (quarter_days : Z)
    (ends : list Timestamp) : list (Z * Timestamp * Timestamp) :=
  match ends with
  | [] => []
  | e :: tl =>
      let start := match prev with
                   | Some p => p + 1
                   | None => e - (quarter_days - 1)
                   end in
      (i + 1, e, start) :: quarter_rows (i + 1) (Some e) quarter_days tl
  end.

(** [pd.DataFrame(rows).assign(days=...)]: a frame made from no rows
    has no column, and reading its "q_end" raises [KeyError]. *)
Definition assign_days (rows : list (Z * Timestamp * Timestamp))
    : result (list QuarterRow) :=
  match rows with
  | [] => Raise KeyError
  | _ => Ok (map (fun '(i, e, s) =>
                    {| iq := i; q_end := e; q_start := s; days := (e - s) + 1 |})
                 rows)
  end.

(** The frame builder over a given anchor table. *)
Definition build_quarter_frame_from (anchors : Dict)
    (forecast_quarters quarter_days : Z) : result (list QuarterRow) :=
  parsed <- mapM to_dt (keys anchors) ;;
  let ends := sorted_by (fun t => t) parsed in
  ends <- append_forecast_ends (Z.to_nat (Z.max forecast_quarters 0))
                               quarter_days ends ;;
  assign_days (quarter_rows 0 None quarter_days ends).

Definition build_quarter_frame_with_forecast
    (forecast_quarters quarter_days : Z) : result (list QuarterRow) :=
  build_quarter_frame_from quarter_end_liquidity forecast_quarters quarter_days.

(* ------------------------------------------------------------------ *)
(** ** Series *)

Definition Series (V : Type) : Type := list (Timestamp * V).

Definition index {V : Type} (s : Series V) : list Timestamp := map fst s.
Definition values {V : Type} (s : Series V) : list V := map snd s.

Fixpoint lookup {V : Type} (d : Timestamp) (s : Series V) : option V :=
  match s with
  | [] => None
  | (d', v) :: tl => if d =? d' then Some v else lookup d tl
  end.

Fixpoint is_unique (l : list Timestamp) : bool :=
  match l with
  | [] => true
  | a :: tl => negb (existsb (Z.eqb a) tl) && is_unique tl
  end.

(** [s.reindex(target, fill_value=...)].  pandas refuses to reindex an
    axis with duplicate labels (the targets of this program are date
    ranges, which never equal such an axis). *)
Definition reindex {V : Type} (s : Series V) (target : list Timestamp)
    (fill_value : V) : result (Series V) :=
  if is_unique (index s) then
    Ok (map (fun d => (d, match lookup d s with
                          | Some v => v
                          | None => fill_value
                          end)) target)
  else Raise ValueError.

Fixpoint ffill_from (last : option Q) (s : Series (option Q))
    : Series (option Q) :=
  match s with
  | [] => []
  | (d, v) :: tl =>
      let v' := match v with Some _ => v | None => last end in
      (d, v') :: ffill_from v' tl
  end.

Definition ffill (s : Series (option Q)) : Series (option Q) :=
  ffill_from None s.

Definition bfill (s : Series (option Q)) : Series (option Q) :=
  rev (ffill_from None (rev s)).

Definition fillna (x : Q) (s : Series (option Q)) : Series (option Q) :=
  map (fun '(d, v) => (d, match v with Some _ => v | None => Some x end)) s.

(** [.sum()] of a float column; pandas skips NaN cells. *)
Definition Qsum (l : list Q) : Q := fold_right Qplus 0%Q l.

Definition nansum (l : list (option Q)) : Q :=
  Qsum (map (fun v => match v with Some x => x | None => 0%Q end) l).

(* ------------------------------------------------------------------ *)
(** ** Market data *)

Record RateRow : Type := {
  r_date : Timestamp;
  rate_pct : option Q;
  daily_rate : option Q
}.

Definition daily_of_pct (v : option Q) : option Q :=
  option_map (fun x => ((x / 100) / DAYCOUNT)%Q) v.

(** [fetch_rates].  [fred start end_] is the outcome of the FRED
    request: [None] when it raises, else the series it returns (date,
    percent or NaN); [or_empty_frame] is the [try]/[except] around it. *)
Definition or_empty_frame (response : option (Series (option Q)))
    : Series (option Q) :=
  match response with
  | Some r => r
  | None => []
  end.

Definition fetch_rates
    (fred : Timestamp -> Timestamp -> option (Series (option Q)))
    (start end_ : Timestamp) : result (list RateRow) :=
  let r := or_empty_frame (fred start end_) in
  let all_days := date_range start end_ in
  r <- reindex r all_days None ;;
  let rate := fillna DEFAULT_OFFLINE_RATE_PCT (bfill (ffill r)) in
  Ok (map (fun '(d, v) =>
             {| r_date := d; rate_pct := v; daily_rate := daily_of_pct v |})
          rate).

Definition is_some {A : Type} (o : option A) : bool :=
  match o with Some _ => true | None => false end.

(** One turn of the loop over the sorted events; [out] is the
    "rate_pct" column with its index. *)
Definition apply_rate_event (eff : Timestamp) (ev : RateEvent)
    (out : Series (option Q)) : result (Series (option Q)) :=
  let mask := fun d : Timestamp => eff <=? d in
  if negb (existsb mask (index out)) then Ok out
  else
    let has_delta := is_some (delta_bps ev) in
    let has_abs := is_some (to_pct ev) in
    if has_delta && has_abs then Raise ValueError
    else
      match to_pct ev, delta_bps ev with
      | Some p, _ =>
          Ok (map (fun '(d, v) => if mask d then (d, Some p) else (d, v)) out)
      | None, Some b =>
          Ok (map (fun '(d, v) =>
                     if mask d
                     then (d, option_map (fun x => (x + b / 100)%Q) v)
                     else (d, v)) out)
      | None, None => Ok out
      end.

Fixpoint apply_rate_events (evs : list (Timestamp * RateEvent))
    (out : Series (option Q)) : result (Series (option Q)) :=
  match evs with
  | [] => Ok out
  | (eff, ev) :: tl =>
      out' <- apply_rate_event eff ev out ;;
      apply_rate_events tl out'
  end.

Definition apply_future_rate_events (rates : list RateRow)
    (events : list RateEvent) : result (list RateRow) :=
  match events with
  | [] => Ok rates
  | _ =>
      let out := fillna DEFAULT_OFFLINE_RATE_PCT
                   (map (fun r => (r_date r, rate_pct r)) rates) in
      keyed <- mapM (fun ev => t <- to_dt (ev_date ev) ;; Ok (t, ev)) events ;;
      out <- apply_rate_events (sorted_by fst keyed) out ;;
      Ok (map (fun '(d, v) =>
                 {| r_date := d; rate_pct := v; daily_rate := daily_of_pct v |})
              out)
  end.

(** A row of the Yahoo BTC-USD frame. *)
Record PriceRow : Type := {
  p_date : Timestamp;
  High : option Q;
  Low : option Q;
  Close : option Q
}.

(** A row of the purchase frame.  The frame of an empty window has the
    "cash_flow" column only, and no row. *)
Record BtcRow : Type := {
  b_date : Timestamp;
  cash_flow : option Q;
  btc_units : option Q;
  btc_price_usd : option Q;
  btc_fee_mult : option Q
}.

Definition lower_ascii (c : ascii) : ascii :=
  let n := nat_of_ascii c in
  if (Nat.leb 65 n && Nat.leb n 90)%bool then ascii_of_nat (n + 32) else c.

Definition lower (s : string) : string :=
  string_of_list_ascii (map lower_ascii (list_ascii_of_string s)).

Definition hlc3 (r : PriceRow) : option Q :=
  match High r, Low r, Close r with
  | Some h, Some l, Some c => Some (((h + l) + c) / 3)%Q
  | _, _, _ => None
  end.

(** The [except] branch of [btc_outflow_series]. *)
Definition btc_fallback (dates : list Timestamp)
    (fallback_per_day_mm_override : option Q) (fee_bps : Q) : list BtcRow :=
  let fee_mult := (1 + fee_bps / 10000)%Q in
  let per_day_mm :=
    (- ((match fallback_per_day_mm_override with
         | Some x => x
         | None => BTC_USD_TOTAL_MM / inject_Z (Z.of_nat (length dates))
         end) * fee_mult))%Q in
  map (fun d => {| b_date := d;
                   cash_flow := Some per_day_mm;
                   btc_units := None;
                   btc_price_usd := None;
                   btc_fee_mult := Some fee_mult |}) dates.

(** The [try] branch of [btc_outflow_series]; [btc] is the outcome of
    the download, [None] when it raises. *)
Definition btc_priced (btc : option (list PriceRow)) (dates : list Timestamp)
    (total_btc : Q) (units_per_day_override : option Q) (fee_bps : Q)
    (price_basis : string) : result (list BtcRow) :=
  match btc with
  | None => Raise RuntimeError
  | Some [] => Raise RuntimeError
  | Some btc =>
      let basis := lower (if String.eqb price_basis "" then "close"
                          else price_basis) in
      let px := if String.eqb basis "hlc3"
                then map (fun r => (p_date r, hlc3 r)) btc
                else map (fun r => (p_date r, Close r)) btc in
      px <- reindex px dates None ;;
      let px := ffill px in
      let units_per_day :=
        match units_per_day_override with
        | Some u => u
        | None => (total_btc / inject_Z (Z.of_nat (length dates)))%Q
        end in
      let fee_mult := (1 + fee_bps / 10000)%Q in
      Ok (map (fun '(d, p) =>
                 {| b_date := d;
                    cash_flow :=
                      option_map
                        (fun p => (- (((p * units_per_day) * fee_mult)
                                       / 1000000))%Q) p;
                    btc_units := Some units_per_day;
                    btc_price_usd := p;
                    btc_fee_mult := Some fee_mult |}) px)
  end.

Definition btc_outflow_series
    (yahoo : Timestamp -> Timestamp -> option (list PriceRow))
    (start end_ : Timestamp) (total_btc : Q)
    (units_per_day_override fallback_per_day_mm_override : option Q)
    (fee_bps : Q) (price_basis : string) : list BtcRow :=
  let dates := date_range start end_ in
  match dates with
  | [] => []
  | _ =>
      match btc_priced (yahoo (start - 3) (end_ + 3)) dates total_btc
              units_per_day_override fee_bps price_basis with
      | Ok df => df
      | Raise _ => btc_fallback dates fallback_per_day_mm_override fee_bps
      end
  end.

(* ------------------------------------------------------------------ *)
(** ** Simulation *)

Record QuarterInputs : Type := {
  qi_start : Timestamp;
  qi_end : Timestamp;
  start_liq : Q;
  end_liq : Q;
  events : list Event;
  btc_out : list BtcRow
}.

(** A row of the daily path. *)
Record DailyRow : Type := {
  d_date : Timestamp;
  d_events : Q;
  d_btc : Q;
  drift : Q;
  ending_balance_mm : Q;
  d_daily_rate : option Q;
  interest_mm : option Q
}.

(** The "events" column: the amounts indexed by date (the empty series
    when there is no event), reindexed on the days with 0.0 elsewhere. *)
Definition events_column (evs : list Event) (dates : list Timestamp)
    : result (Series Q) :=
  reindex (map (fun ev => (e_date ev, amount ev)) evs) dates 0%Q.

(** The "btc" column: the cash flows reindexed on the days with NaN
    replaced by 0.0, or the scalar 0.0 when the purchase frame is empty. *)
Definition btc_column (btc : list BtcRow) (dates : list Timestamp)
    : result (Series Q) :=
  match btc with
  | [] => Ok (map (fun d => (d, 0%Q)) dates)
  | _ =>
      r <- reindex (map (fun r => (b_date r, cash_flow r)) btc) dates None ;;
      Ok (map (fun '(d, v) =>
                 (d, match v with Some x => x | None => 0%Q end)) r)
  end.

(** The walk over [df.itertuples()], a tuple being (date, events, btc,
    drift). *)
Fixpoint running_balance (bal : Q) (rows : list (Timestamp * Q * Q * Q))
    : list Q :=
  match rows with
  | [] => []
  | (_, ev, bt, dr) :: tl =>
      let bal' := (bal + ((ev + bt) + dr))%Q in
      bal' :: running_balance bal' tl
  end.

(** [build_daily_path].  With no day in the quarter the frame is empty
    and the value of the drift is seen nowhere in the result. *)
Definition build_daily_path (inputs : QuarterInputs) (rates : list RateRow)
    : result (list DailyRow * Q) :=
  let dates := date_range (qi_start inputs) (qi_end inputs) in
  e <- events_column (events inputs) dates ;;
  b <- btc_column (btc_out inputs) dates ;;
  let df := map (fun '((d, ev), (_, bt)) => (d, ev, bt)) (combine e b) in
  let mech_flows_total :=
    Qsum (map (fun '(_, ev, bt) => (ev + bt)%Q) df) in
  let n_days := Z.of_nat (length df) in
  let drift_per_day :=
    (((end_liq inputs - start_liq inputs) - mech_flows_total)
     / inject_Z n_days)%Q in
  let df := map (fun '(d, ev, bt) => (d, ev, bt, drift_per_day)) df in
  let balance := running_balance (start_liq inputs) df in
  r <- reindex (map (fun r => (r_date r, daily_rate r)) rates) dates None ;;
  let df :=
    map (fun '((d, ev, bt, dr), bal, (_, rate)) =>
           {| d_date := d;
              d_events := ev;
              d_btc := bt;
              drift := dr;
              ending_balance_mm := bal;
              d_daily_rate := rate;
              interest_mm := option_map (fun x => (bal * x)%Q) rate |})
        (combine (combine df balance) r) in
  Ok (df, nansum (map interest_mm df)).

(** The variables of one turn of the quarter loop, before the rounding
    that the report row applies to them. *)
Record QuarterResult : Type := {
  r_q_end : Timestamp;
  is_forecast : bool;
  r_days : Z;
  modeled_interest_mm : Q;
  start_liq_mm : Q;
  end_liq_mm : Q;
  ev_sum_mm : Q;
  btc_sum_mm : Q;
  btc_units_executed : Q;
  drift_per_day_mm : option Q;
  total_drift_mm : option Q;
  end_liq_carry_mm : Q;
  daily : list DailyRow
}.

Section QuarterLoop.

(** What the loop reads and never writes. *)
Variable yahoo : Timestamp -> Timestamp -> option (list PriceRow).
Variable q_liq : Dict.
Variable all_events : list Event.
Variable rates : list RateRow.
Variable btc_units_total : Q.
Variables btc_start btc_end : Timestamp.
Variables units_per_day_global fallback_per_day_mm_global : Q.

(** The purchase frame of the quarter from [q_start] to [q_end]. *)
Definition quarter_btc (q_start q_end : Timestamp) : list BtcRow :=
  let overlap_start := Z.max q_start btc_start in
  let overlap_end := Z.min q_end btc_end in
  if overlap_start <=? overlap_end then
    btc_outflow_series yahoo overlap_start overlap_end btc_units_total
      (Some units_per_day_global) (Some fallback_per_day_mm_global)
      BTC_FEE_BPS BTC_PRICE_BASIS
  else [].

(** The body of the loop over the quarter frame.  The diagnostics on
    yields and on the value of the holdings read these variables and
    write none of them; they are left out. *)
Definition simulate_quarter (prev_end_liq : option Q) (row : QuarterRow)
    : result QuarterResult :=
  let q_end := q_end row in
  let q_start := q_start row in
  let end_key := strftime q_end in
  let start_liq :=
    match prev_end_liq with
    | None => match dict_get end_key q_liq with
              | Some reported_end => reported_end
              | None => 0%Q
              end
    | Some p => p
    end in
  let ev_q :=
    filter (fun ev => (q_start <=? e_date ev) && (e_date ev <=? q_end))
           all_events in
  let btc_df := quarter_btc q_start q_end in
  let btc_units_executed := nansum (map btc_units btc_df) in
  let ev_sum := Qsum (map amount ev_q) in
  let btc_sum := nansum (map cash_flow btc_df) in
  let reported_end := dict_get end_key q_liq in
  let is_forecast := negb (is_some reported_end) in
  let end_liq :=
    match reported_end with
    | None => ((start_liq + ev_sum) + btc_sum)%Q
    | Some x => x
    end in
  let q_inputs :=
    {| qi_start := q_start; qi_end := q_end;
       start_liq := start_liq; end_liq := end_liq;
       events := ev_q; btc_out := btc_df |} in
  '(daily, modeled_interest_mm) <- build_daily_path q_inputs rates ;;
  let end_liq_carry_mm :=
    (end_liq + (if is_forecast then modeled_interest_mm else 0))%Q in
  Ok {| r_q_end := q_end;
        is_forecast := is_forecast;
        r_days := Z.of_nat (length daily);
        modeled_interest_mm := modeled_interest_mm;
        start_liq_mm := start_liq;
        end_liq_mm := end_liq;
        ev_sum_mm := ev_sum;
        btc_sum_mm := btc_sum;
        btc_units_executed := btc_units_executed;
        drift_per_day_mm :=
          match daily with [] => None | d :: _ => Some (drift d) end;
        total_drift_mm :=
          match daily with [] => None | _ => Some (Qsum (map drift daily)) end;
        end_liq_carry_mm := end_liq_carry_mm;
        daily := daily |}.

(** The loop: [prev_end_liq] is [None] before the first quarter and
    the carry of the previous quarter afterwards. *)
Fixpoint quarter_loop (prev_end_liq : option Q) (qdf : list QuarterRow)
    : result (list QuarterResult) :=
  match qdf with
  | [] => Ok []
  | row :: tl =>
      r <- simulate_quarter prev_end_liq row ;;
      rs <- quarter_loop (Some (end_liq_carry_mm r)) tl ;;
      Ok (r :: rs)
  end.

End QuarterLoop.

(** The external data providers. *)
Record World : Type := {
  fred : Timestamp -> Timestamp -> option (Series (option Q));
  yahoo_btc : Timestamp -> Timestamp -> option (list PriceRow)
}.

Definition column_min (l : list Z) : Z :=
  match l with [] => 0 | a :: tl => fold_left Z.min tl a end.

Definition column_max (l : list Z) : Z :=
  match l with [] => 0 | a :: tl => fold_left Z.max tl a end.

(** [simulate_all], up to the results of the loop; the report (error
    metrics, printing, CSV) only reads them. *)
Definition simulate_all (w : World) (net_to_gross btc_units : Q)
    (btc_window : string * string) (forecast_quarters : Z)
    : result (list QuarterResult) :=
  qdf <- build_quarter_frame_with_forecast forecast_quarters 91 ;;
  let q_liq := quarter_end_liquidity in
  evs <- dated_events net_to_gross ;;
  let start_all := column_min (map q_start qdf) - 5 in
  let end_all := column_max (map q_end qdf) + 5 in
  rates <- fetch_rates (fred w) start_all end_all ;;
  rates <- apply_future_rate_events rates FUTURE_RATE_EVENTS ;;
  btc_window_start <- to_dt (fst btc_window) ;;
  btc_window_end <- to_dt (snd btc_window) ;;
  let btc_global_days := date_range btc_window_start btc_window_end in
  let n := inject_Z (Z.of_nat (length btc_global_days)) in
  let units_per_day_global :=
    match btc_global_days with [] => 0%Q | _ => (btc_units / n)%Q end in
  let fallback_per_day_mm_global :=
    match btc_global_days with [] => 0%Q | _ => (BTC_USD_TOTAL_MM / n)%Q end in
  quarter_loop (yahoo_btc w) q_liq evs rates btc_units
    btc_window_start btc_window_end
    units_per_day_global fallback_per_day_mm_global None qdf.

(* ================================================================== *)
(** * Closed forms and sample data *)

(* ------------------------------------------------------------------ *)
(** ** Closed forms *)

Section ForecastEnds.

Variable quarter_days : Z.

(** The forecast quarter ends after [last_end], in closed form. *)
Fixpoint forecast_ends (last_end : Timestamp) (n : nat) : list Timestamp :=
  match n with
  | O => []
  | S k => (last_end + quarter_days)
             :: forecast_ends (last_end + quarter_days) k
  end.

End ForecastEnds.

(** The quarter ends of the anchor table, parsed and sorted. *)
Definition anchor_ends : list Timestamp :=
  [19112; 19203; 19294; 19385; 19476; 19567; 19658; 19756; 19847; 19938;
   20029; 20120; 20211].

(** The row of the frame made from (iq, q_end, q_start). *)
Definition row_of (t : Z * Timestamp * Timestamp) : QuarterRow :=
  let '(i, e, s) := t in
  {| iq := i; q_end := e; q_start := s; days := (e - s) + 1 |}.

(** The row of the rates frame made from a date and its rate. *)
Definition rate_row_of (c : Timestamp * option Q) : RateRow :=
  let '(d, v) := c in
  {| r_date := d; rate_pct := v; daily_rate := daily_of_pct v |}.

(** A cell with NaN read as 0, as [fillna(0.0)] and [sum] do. *)
Definition or_zero (o : option Q) : Q :=
  match o with Some v => v | None => 0%Q end.

(** The cell of the "events" column on day [d]. *)
Definition events_at (evs : list Event) (d : Timestamp) : Q :=
  match lookup d (map (fun ev => (e_date ev, amount ev)) evs) with
  | Some v => v
  | None => 0%Q
  end.

(** The cell of the "btc" column on day [d]. *)
Definition btc_at (btc : list BtcRow) (d : Timestamp) : Q :=
  match lookup d (map (fun r => (b_date r, cash_flow r)) btc) with
  | Some (Some x) => x
  | _ => 0%Q
  end.

(** The cell of the joined "daily_rate" column on day [d]. *)
Definition rate_at (rates : list RateRow) (d : Timestamp) : option Q :=
  match lookup d (map (fun r => (r_date r, daily_rate r)) rates) with
  | Some v => v
  | None => None
  end.

(** The rows of the path in closed form, over the days [dates]. *)
Section PathRows.

Variables (ev bt : Timestamp -> Q) (rate : Timestamp -> option Q).
Variables (start dr : Q).

Definition flow_rows (dates : list Timestamp)
    : list (Timestamp * Q * Q * Q) :=
  map (fun d => (d, ev d, bt d, dr)) dates.

Definition daily_row_of
    (t : Timestamp * Q * Q * Q * Q * (Timestamp * option Q)) : DailyRow :=
  let '((d, e, b, x), bal, (_, r)) := t in
  {| d_date := d;
     d_events := e;
     d_btc := b;
     drift := x;
     ending_balance_mm := bal;
     d_daily_rate := r;
     interest_mm := option_map (fun y => (bal * y)%Q) r |}.

Definition path_rows (dates : list Timestamp) : list DailyRow :=
  map daily_row_of
      (combine (combine (flow_rows dates)
                        (running_balance start (flow_rows dates)))
               (map (fun d => (d, rate d)) dates)).

(** The balance after the walk. *)
Definition final_balance (bal : Q) (rows : list (Timestamp * Q * Q * Q))
    : Q :=
  fold_left (fun acc '(_, e, b, x) => (acc + ((e + b) + x))%Q) rows bal.

End PathRows.

(** The drift of the quarter [inputs]. *)
Definition drift_of (inputs : QuarterInputs) : Q :=
  let dates := date_range (qi_start inputs) (qi_end inputs) in
  (((end_liq inputs - start_liq inputs)
    - Qsum (map (fun d => events_at (events inputs) d
                          + btc_at (btc_out inputs) d) dates))
   / inject_Z (Z.of_nat (length dates)))%Q.

(** The path of the quarter [inputs]. *)
Definition daily_path_of (inputs : QuarterInputs) (rates : list RateRow)
    : list DailyRow :=
  path_rows (events_at (events inputs)) (btc_at (btc_out inputs))
            (rate_at rates) (start_liq inputs) (drift_of inputs)
            (date_range (qi_start inputs) (qi_end inputs)).

Section QuarterInputsOf.

Variable yahoo : Timestamp -> Timestamp -> option (list PriceRow).
Variable q_liq : Dict.
Variable all_events : list Event.
Variable btc_units_total : Q.
Variables btc_start btc_end : Timestamp.
Variables units_per_day_global fallback_per_day_mm_global : Q.

(** The events of the quarter. *)
Definition quarter_events (q_start q_end : Timestamp) : list Event :=
  filter (fun ev => (q_start <=? e_date ev) && (e_date ev <=? q_end))
         all_events.

(** The start liquidity of the quarter. *)
Definition start_liq_of (prev_end_liq : option Q) (row : QuarterRow) : Q :=
  match prev_end_liq with
  | None => match dict_get (strftime (q_end row)) q_liq with
            | Some reported_end => reported_end
            | None => 0%Q
            end
  | Some p => p
  end.

(** The inputs that the loop body hands to [build_daily_path]. *)
Definition quarter_inputs_of (prev_end_liq : option Q) (row : QuarterRow)
    : QuarterInputs :=
  let ev_q := quarter_events (q_start row) (q_end row) in
  let btc_df := quarter_btc yahoo btc_units_total btc_start btc_end
                  units_per_day_global fallback_per_day_mm_global
                  (q_start row) (q_end row) in
  {| qi_start := q_start row;
     qi_end := q_end row;
     start_liq := start_liq_of prev_end_liq row;
     end_liq :=
       match dict_get (strftime (q_end row)) q_liq with
       | None => ((start_liq_of prev_end_liq row + Qsum (map amount ev_q))
                  + nansum (map cash_flow btc_df))%Q
       | Some x => x
       end;
     events := ev_q;
     btc_out := btc_df |}.

End QuarterInputsOf.

(* ------------------------------------------------------------------ *)
(** ** Sample data *)

(** A rates frame at the offline default on every day from [s] to [e]. *)
Definition flat_5pct (s e : Timestamp) : list RateRow :=
  map (fun d => rate_row_of (d, Some DEFAULT_OFFLINE_RATE_PCT))
      (date_range s e).

(** 1970-01-01 to 1970-01-03. *)
Definition three_days_at_5pct : list RateRow := flat_5pct 0 2.

(** A scheduled event that gives both a change and a level. *)
Definition both_keys (date : string) : RateEvent :=
  {| ev_date := date; delta_bps := Some (-25 # 1); to_pct := Some (35 # 10) |}.

(** Five days (2025-02-02 to 2025-02-06) with two events and two days
    of purchases at the fallback amount. *)
Definition two_event_quarter : QuarterInputs :=
  {| qi_start := 20121; qi_end := 20125;
     start_liq := 47749 # 10; end_liq := 63858 # 10;
     events := [ {| e_date := 20122; amount := 14807 # 10; label := "" |};
                 {| e_date := 20124; amount := -300 # 7; label := "" |} ];
     btc_out := btc_fallback (date_range 20123 20124) None BTC_FEE_BPS |}.

(** Ten days (2025-01-01 to 2025-01-10), 1000 at the start, 1100 at the
    end, no event, no purchase. *)
Definition scenario_inputs : QuarterInputs :=
  {| qi_start := 20089; qi_end := 20098;
     start_liq := 1000; end_liq := 1100;
     events := []; btc_out := [] |}.

(** A flat daily rate of 0.0001 (3.65 percent a year). *)
Definition scenario_rates : list RateRow :=
  map (fun d => {| r_date := d;
                   rate_pct := Some (365 # 100);
                   daily_rate := Some (1 # 10000) |})
      (date_range 20089 20098).

(** The first forecast quarter of the frame: 2025-05-04 to 2025-08-02. *)
Definition forecast_row : QuarterRow :=
  {| iq := 14; q_end := 20302; q_start := 20212; days := 91 |}.

(** A forecast quarter of ten days (2025-01-01 to 2025-01-10) with one
    event of +50 on its fifth day. *)
Definition ten_day_row : QuarterRow :=
  {| iq := 2; q_end := 20098; q_start := 20089; days := 10 |}.

Definition event_on_day_5 : list Event :=
  [ {| e_date := 20093; amount := 50; label := "" |} ].

(** The world without network: every request raises. *)
Definition offline : World :=
  {| fred := fun _ _ => None; yahoo_btc := fun _ _ => None |}.

(* ------------------------------------------------------------------ *)
(** ** More sample data *)

(** [two_event_quarter] with one more event, dated before the quarter. *)
Definition two_event_quarter_and_one_before : QuarterInputs :=
  {| qi_start := 20121; qi_end := 20125;
     start_liq := 47749 # 10; end_liq := 63858 # 10;
     events := {| e_date := 20100; amount := 999; label := "" |}
                 :: events two_event_quarter;
     btc_out := btc_out two_event_quarter |}.

(** The inputs [inputs] with the events [evs] in place of its own. *)
Definition with_events (inputs : QuarterInputs) (evs : list Event)
    : QuarterInputs :=
  {| qi_start := qi_start inputs; qi_end := qi_end inputs;
     start_liq := start_liq inputs; end_liq := end_liq inputs;
     events := evs; btc_out := btc_out inputs |}.

(** The cell of a series of floats on day [d]: NaN when the series has
    no row for the day. *)
Definition cell_at (s : Series (option Q)) (d : Timestamp) : option Q :=
  match lookup d s with
  | Some v => v
  | None => None
  end.

(** The last number of a column, or [last] when it has none: what
    forward fill carries past the column. *)
Definition last_valid (last : option Q) (s : Series (option Q)) : option Q :=
  fold_left (fun acc c => match snd c with Some _ => snd c | None => acc end)
            s last.

(** A FRED response with a number on the third and the sixth of eight
    days, and NaN on the fifth. *)
Definition sparse_response : Series (option Q) :=
  [(3, Some 4%Q); (5, None); (6, Some 2%Q)].

(** The scheduled events with their effective dates, as the sort key
    of [apply_future_rate_events] computes them. *)
Definition keyed_events (events : list RateEvent)
    : result (list (Timestamp * RateEvent)) :=
  mapM (fun ev => t <- to_dt (ev_date ev) ;; Ok (t, ev)) events.

(** The sum of the relative changes, in percent, of the events in
    effect on day [d]. *)
Definition total_delta (keyed : list (Timestamp * RateEvent))
    (d : Timestamp) : Q :=
  Qsum (map (fun c => if fst c <=? d
                      then (or_zero (delta_bps (snd c)) / 100)%Q
                      else 0%Q) keyed).

(** What one event without a level does to the cell of day [d]. *)
Definition shift_cell (c : Timestamp * RateEvent) (d : Timestamp)
    (v : option Q) : option Q :=
  if fst c <=? d then
    match delta_bps (snd c) with
    | Some b => option_map (fun x => (x + b / 100)%Q) v
    | None => v
    end
  else v.

(** A rate with NaN read as the offline default. *)
Definition or_default (v : option Q) : Q :=
  match v with Some x => x | None => DEFAULT_OFFLINE_RATE_PCT end.

(** A cut of 25 basis points from [date]. *)
Definition cut_on (date : string) : RateEvent :=
  {| ev_date := date; delta_bps := Some (-25 # 1); to_pct := None |}.

(** A level of 3.5 percent from [date]. *)
Definition level_on (date : string) : RateEvent :=
  {| ev_date := date; delta_bps := None; to_pct := Some (35 # 10) |}.

(** A cut on 1970-01-02, then a level from 1970-01-03, given out of
    order. *)
Definition cut_then_level : list RateEvent :=
  [ level_on "1970-01-03"; cut_on "1970-01-02" ].

(** Two cuts of 25 basis points, on 1970-01-02 and on 1970-01-03, given
    out of order. *)
Definition two_cuts : list RateEvent :=
  [ cut_on "1970-01-03"; cut_on "1970-01-02" ].

Definition two_cuts_keyed : list (Timestamp * RateEvent) :=
  [ (2, cut_on "1970-01-03"); (1, cut_on "1970-01-02") ].

(** The price column that [btc_outflow_series] reads from the Yahoo
    frame, by price basis. *)
Definition price_column (price_basis : string) (btc : list PriceRow)
    : Series (option Q) :=
  if String.eqb (lower (if String.eqb price_basis "" then "close"
                        else price_basis)) "hlc3"
  then map (fun r => (p_date r, hlc3 r)) btc
  else map (fun r => (p_date r, Close r)) btc.

(** The units bought per day. *)
Definition units_per_day_of (total_btc : Q) (units_per_day_override : option Q)
    (dates : list Timestamp) : Q :=
  match units_per_day_override with
  | Some u => u
  | None => (total_btc / inject_Z (Z.of_nat (length dates)))%Q
  end.

(** The row of a day priced at [p]. *)
Definition priced_row (units_per_day fee_bps : Q) (d : Timestamp)
    (p : option Q) : BtcRow :=
  {| b_date := d;
     cash_flow :=
       option_map (fun p => (- (((p * units_per_day)
                                 * (1 + fee_bps / 10000)) / 1000000))%Q) p;
     btc_units := Some units_per_day;
     btc_price_usd := p;
     btc_fee_mult := Some (1 + fee_bps / 10000)%Q |}.

(** A Yahoo frame with closes on 2025-05-04 and 2025-05-06. *)
Definition two_closes : list PriceRow :=
  [ {| p_date := 20212; High := Some 96000%Q; Low := Some 94000%Q;
       Close := Some 95000%Q |};
    {| p_date := 20214; High := Some 97000%Q; Low := Some 95000%Q;
       Close := Some 96500%Q |} ].

(** An anchor table listed out of order. *)
Definition shuffled_anchors : Dict :=
  [ ("2023-01-28", 13906 # 10); ("2022-04-30", 10350 # 10);
    ("2022-07-30", 9089 # 10) ]%string.

(** An anchor table with a key that names no calendar day. *)
Definition anchors_with_april_31 : Dict :=
  [ ("2022-01-29", 12710 # 10); ("2022-04-31", 10350 # 10) ]%string.

(** Whether formatting day [t] and parsing the text gives [t] back. *)
Definition parses_back (t : Timestamp) : bool :=
  match to_dt (strftime t) with
  | Ok t' => t =? t'
  | Raise _ => false
  end.

(* ------------------------------------------------------------------ *)
(** ** Quarter-end closes *)

(** The cell that [s.reindex(target, method="ffill")] gives to the
    target [w] when the index of [s] increases: the cell of the last
    label at or before [w], NaN when there is none. *)
Definition pad_lookup (s : Series (option Q)) (w : Timestamp) : option Q :=
  fold_left (fun acc c => if fst c <=? w then snd c else acc) s None.

(** The [try] branch of [prefetch_btc_closes]; [df] is the outcome of
    the download, [None] when it raises. *)
Definition closes_on (df : option (list PriceRow)) (want : list Timestamp)
    : result (Series (option Q)) :=
  match df with
  | None => Raise RuntimeError
  | Some [] => Raise RuntimeError
  | Some df =>
      let px := map (fun r => (p_date r, Close r)) df in
      let all_days :=
        date_range (column_min (index px)) (column_max (index px)) in
      px <- reindex px all_days None ;;
      let px := ffill px in
      Ok (map (fun w => (w, pad_lookup px w)) want)
  end.

Definition prefetch_btc_closes
    (yahoo : Timestamp -> Timestamp -> option (list PriceRow))
    (q_end_dates : list Timestamp) : Series (option Q) :=
  match q_end_dates with
  | [] => []
  | _ =>
      let start := column_min q_end_dates - 5 in
      let end_ := column_max q_end_dates + 2 in
      match closes_on (yahoo start end_) q_end_dates with
      | Ok out => out
      | Raise _ => map (fun w => (w, None)) q_end_dates
      end
  end.

(** Closes on 2025-05-01 and 2025-05-03, and a row without a close on
    2025-05-04. *)
Definition three_price_rows : list PriceRow :=
  [ {| p_date := 20209; High := None; Low := None; Close := Some 96000%Q |};
    {| p_date := 20211; High := None; Low := None; Close := Some 95000%Q |};
    {| p_date := 20212; High := None; Low := None; Close := None |} ].

(* ------------------------------------------------------------------ *)
(** ** Holdings and yields *)

(** [.mean()] of a float column: NaN when no cell holds a number. *)
Definition mean (l : list Q) : option Q :=
  match l with
  | [] => None
  | _ => Some (Qsum l / inject_Z (Z.of_nat (length l)))%Q
  end.

Definition valid_cells (l : list (option Q)) : list Q :=
  flat_map (fun v => match v with Some x => [x] | None => [] end) l.

Definition nanmean (l : list (option Q)) : option Q := mean (valid_cells l).

(** [x > 0]. *)
Definition is_positive (x : Q) : bool := negb (Qle_bool x 0).

(** What the loop carries on the position from one quarter to the
    next. *)
Record Holdings : Type := {
  cum_btc_units : Q;
  cum_btc_cost_mm : Q;
  prev_q_end : option Timestamp
}.

(** The variables of one turn of the loop: those of [QuarterResult]
    and the diagnostics on the purchases, the yields and the holdings,
    before the rounding of the report row. *)
Record QuarterReport : Type := {
  core : QuarterResult;
  btc_spent_mm : Q;
  btc_avg_price_usd : option Q;
  days_in_q : Z;
  avg_balance_mm : option Q;
  ref_3m_ann_yield_pct : option Q;
  implied_ann_yield_modeled_pct : option Q;
  btc_px_qbeg_usd : option Q;
  btc_px_qend_usd : option Q;
  btc_units_beg : Q;
  fv_beg_mm : Q;
  btc_units_end : Q;
  fv_end_mm : Q;
  btc_earnings_mm : Q;
  total_end_liq_mm : Q
}.

Section ReportLoop.

Variable yahoo : Timestamp -> Timestamp -> option (list PriceRow).
Variable q_liq : Dict.
Variable all_events : list Event.
Variable rates : list RateRow.
Variable btc_units_total : Q.
Variables btc_start btc_end : Timestamp.
Variables units_per_day_global fallback_per_day_mm_global : Q.
Variable btc_closes_by_qend : Series (option Q).

(** The whole body of the loop: the variables that [simulate_quarter]
    computes are read from its result.  The index of the rates frame is
    a range of days, so that [rates.loc[q_start:q_end]] is the rows
    dated in the quarter; the quarter ends are distinct, so that
    [btc_closes_by_qend.get] reads one cell. *)
Definition quarter_report (st : Holdings) (prev_end_liq : option Q)
    (row : QuarterRow) : result (QuarterReport * Holdings) :=
  let q_end := q_end row in
  let q_start := q_start row in
  let btc_df :=
    quarter_btc yahoo btc_units_total btc_start btc_end
      units_per_day_global fallback_per_day_mm_global q_start q_end in
  let btc_spent_mm :=
    match btc_df with
    | [] => 0%Q
    | _ => (- nansum (map cash_flow btc_df))%Q
    end in
  r <- simulate_quarter yahoo q_liq all_events rates btc_units_total
         btc_start btc_end units_per_day_global fallback_per_day_mm_global
         prev_end_liq row ;;
  let btc_units_executed := btc_units_executed r in
  let btc_avg_price_usd :=
    if is_positive btc_units_executed
    then Some ((btc_spent_mm * 1000000) / btc_units_executed)%Q
    else None in
  let daily := daily r in
  let modeled_interest_mm := modeled_interest_mm r in
  let days_in_q := Z.of_nat (length daily) in
  let avg_balance_mm := mean (map ending_balance_mm daily) in
  let ref_3m_ann_yield_pct :=
    nanmean (map rate_pct
               (filter (fun x => (q_start <=? r_date x)
                                 && (r_date x <=? q_end)) rates)) in
  let implied_ann_yield_modeled_pct :=
    match avg_balance_mm with
    | Some avg =>
        if is_positive avg && (0 <? days_in_q)
        then Some (((modeled_interest_mm / (avg * inject_Z days_in_q))
                    * 365) * 100)%Q
        else None
    | None => None
    end in
  let btc_px_qbeg_usd :=
    match prev_q_end st with
    | Some p => cell_at btc_closes_by_qend p
    | None => None
    end in
  let btc_px_qend_usd := cell_at btc_closes_by_qend q_end in
  let btc_units_beg := cum_btc_units st in
  let fv_beg_mm :=
    match btc_px_qbeg_usd with
    | Some px => if is_positive btc_units_beg
                 then ((btc_units_beg * px) / 1000000)%Q else 0%Q
    | None => 0%Q
    end in
  let btc_units_end := (btc_units_beg + btc_units_executed)%Q in
  let fv_end_mm :=
    match btc_px_qend_usd with
    | Some px => if is_positive btc_units_end
                 then ((btc_units_end * px) / 1000000)%Q else 0%Q
    | None => 0%Q
    end in
  let btc_earnings_mm := (fv_end_mm - (fv_beg_mm + btc_spent_mm))%Q in
  let total_end_liq_mm := (end_liq_carry_mm r + fv_end_mm)%Q in
  Ok ({| core := r;
         btc_spent_mm := btc_spent_mm;
         btc_avg_price_usd := btc_avg_price_usd;
         days_in_q := days_in_q;
         avg_balance_mm := avg_balance_mm;
         ref_3m_ann_yield_pct := ref_3m_ann_yield_pct;
         implied_ann_yield_modeled_pct := implied_ann_yield_modeled_pct;
         btc_px_qbeg_usd := btc_px_qbeg_usd;
         btc_px_qend_usd := btc_px_qend_usd;
         btc_units_beg := btc_units_beg;
         fv_beg_mm := fv_beg_mm;
         btc_units_end := btc_units_end;
         fv_end_mm := fv_end_mm;
         btc_earnings_mm := btc_earnings_mm;
         total_end_liq_mm := total_end_liq_mm |},
      {| cum_btc_units := btc_units_end;
         cum_btc_cost_mm := (cum_btc_cost_mm st + btc_spent_mm)%Q;
         prev_q_end := Some q_end |}).

(** The loop with the position it carries. *)
Fixpoint report_loop (st : Holdings) (prev_end_liq : option Q)
    (qdf : list QuarterRow) : result (list QuarterReport) :=
  match qdf with
  | [] => Ok []
  | row :: tl =>
      ' (g, st') <- quarter_report st prev_end_liq row ;;
      gs <- report_loop st' (Some (end_liq_carry_mm (core g))) tl ;;
      Ok (g :: gs)
  end.

End ReportLoop.

(** No unit held, no cost, no quarter before. *)
Definition no_holdings : Holdings :=
  {| cum_btc_units := 0; cum_btc_cost_mm := 0; prev_q_end := None |}.

(** [simulate_all] with the diagnostics, up to the results of the
    loop. *)
Definition simulate_all_report (w : World) (net_to_gross btc_units : Q)
    (btc_window : string * string) (forecast_quarters : Z)
    : result (list QuarterReport) :=
  qdf <- build_quarter_frame_with_forecast forecast_quarters 91 ;;
  let q_liq := quarter_end_liquidity in
  evs <- dated_events net_to_gross ;;
  let start_all := column_min (map q_start qdf) - 5 in
  let end_all := column_max (map q_end qdf) + 5 in
  rates <- fetch_rates (fred w) start_all end_all ;;
  rates <- apply_future_rate_events rates FUTURE_RATE_EVENTS ;;
  let btc_closes_by_qend :=
    prefetch_btc_closes (yahoo_btc w) (map q_end qdf) in
  btc_window_start <- to_dt (fst btc_window) ;;
  btc_window_end <- to_dt (snd btc_window) ;;
  let btc_global_days := date_range btc_window_start btc_window_end in
  let n := inject_Z (Z.of_nat (length btc_global_days)) in
  let units_per_day_global :=
    match btc_global_days with [] => 0%Q | _ => (btc_units / n)%Q end in
  let fallback_per_day_mm_global :=
    match btc_global_days with [] => 0%Q | _ => (BTC_USD_TOTAL_MM / n)%Q end in
  report_loop (yahoo_btc w) q_liq evs rates btc_units
    btc_window_start btc_window_end
    units_per_day_global fallback_per_day_mm_global btc_closes_by_qend
    no_holdings None qdf.

(** The fair value in USD millions of [units] at the price [px]: the
    expression of the loop for the begin and the end of a quarter. *)
Definition fair_value_mm (units : Q) (px : option Q) : Q :=
  match px with
  | Some p => if is_positive units then ((units * p) / 1000000)%Q else 0%Q
  | None => 0%Q
  end.

(** The value of the position that the loop carries. *)
Definition carried_value_mm (closes : Series (option Q)) (st : Holdings)
    : Q :=
  fair_value_mm (cum_btc_units st)
    (match prev_q_end st with
     | Some p => cell_at closes p
     | None => None
     end).

(** A rates frame at [c] percent on every day from [s] to [e]. *)
Definition flat_rates (c : Q) (s e : Timestamp) : list RateRow :=
  map (fun d => rate_row_of (d, Some c)) (date_range s e).

(** A world without FRED where every day trades at 100000 dollars. *)
Definition flat_btc_world : World :=
  {| fred := fun _ _ => None;
     yahoo_btc := fun s e =>
       Some (map (fun d => {| p_date := d; High := None; Low := None;
                              Close := Some 100000%Q |})
                 (date_range s e)) |}.

(* ------------------------------------------------------------------ *)
(** ** Days that a month lacks *)

Definition is_leap_year (y : Z) : bool :=
  ((y mod 4 =? 0) && negb (y mod 100 =? 0)) || (y mod 400 =? 0).

(** The number of days of month [m] of year [y]. *)
Definition days_in_month (y m : Z) : Z :=
  if m =? 2 then (if is_leap_year y then 29 else 28)
  else if (m =? 4) || (m =? 6) || (m =? 9) || (m =? 11) then 30
  else 31.

(** The text YYYY-MM-DD of a year, a month and a day, whether or not
    the month has the day. *)
Definition iso_text (y m d : Z) : string :=
  string_of_list_ascii
    (digits4 y ++ [dash] ++ digits2 m ++ [dash] ++ digits2 d).

(** The years that a [pd.Timestamp] covers from their first to their
    last day. *)
Definition timestamp_years : list Z := map Z.of_nat (seq 1678 584).

(** Whether [to_dt] raises [ValueError] on each of the days 29, 30 and
    31 that month [m] of year [y] lacks. *)
Definition rejects_days_past_month (y m : Z) : bool :=
  forallb (fun d =>
             (d <=? days_in_month y m)
             || match to_dt (iso_text y m d) with
                | Raise ValueError => true
                | _ => false
                end)
          [29; 30; 31].

Definition rejects_days_past_months (y : Z) : bool :=
  forallb (rejects_days_past_month y) [1; 2; 3; 4; 5; 6; 7; 8; 9; 10; 11; 12].

(* ------------------------------------------------------------------ *)
(** ** The drift of a forecast quarter in binary64 *)

Section Binary64.

Import PrimFloat.
Local Open Scope float_scope.

(** [len(df)] as a float; exact below 2^53. *)
Fixpoint float_of_nat (n : nat) : float :=
  match n with
  | O => 0
  | S k => float_of_nat k + 1
  end.

(** [.sum()] of a float column without NaN.  pandas fixes the order of
    the additions; on a column with at most two cells other than 0.0
    every order gives the same float, since adding 0.0 changes
    nothing. *)
Definition float_sum (l : list float) : float := fold_left add l 0.

(** [dated_events], with the amounts as the binary64 numbers that
    Python reads and computes, and the dates parsed. *)
#[warnings="-inexact-float"]
Definition dated_events_float (net_to_gross : float) : Series float :=
  [ (19867%Z, 933.4 * net_to_gross);
    (19885%Z, 2137.0 * net_to_gross);
    (19989%Z, 398.1);
    (20179%Z, 1480.7);
    (20256%Z, 2230.0);
    (20263%Z, 446.6) ].

(** The drift per day of a turn of the quarter loop on a quarter
    without an anchor and without a purchase, every operation on
    floats being the binary64 one: the events of the quarter, their
    sum and the end liquidity as in [simulate_all], then the two
    columns over the days of the quarter, their total and the drift as
    in [build_daily_path]. *)
Definition forecast_drift_per_day (start_liq : float)
    (events : Series float) (q_start q_end : Timestamp) : result float :=
  let ev_q :=
    filter (fun c => ((q_start <=? fst c) && (fst c <=? q_end))%Z) events in
  let ev_sum :=
    match ev_q with [] => 0 | _ => float_sum (values ev_q) end in
  let btc_sum := 0 in
  let end_liq := start_liq + ev_sum + btc_sum in
  let dates := date_range q_start q_end in
  e <- reindex ev_q dates 0 ;;
  let btc := 0 in
  let mech_flows_total := float_sum (map (fun c => snd c + btc) e) in
  let n_days := float_of_nat (length e) in
  Ok ((end_liq - start_liq - mech_flows_total) / n_days).

(** The last anchor, 6385.8 on 2025-05-03, as Python reads it. *)
#[warnings="-inexact-float"]
Definition last_anchor_float : float := 6385.8.

#[warnings="-inexact-float"]
Definition atm_net_to_gross_float : float := 0.995.

End Binary64.

(* ================================================================== *)
(** * Properties *)

Ltac qeq_by_computation := vm_compute; reflexivity.

(* ------------------------------------------------------------------ *)
(** ** Quarter frame *)

Section QuarterFrameFacts.

Variable quarter_days : Z.

Lemma forecast_ends_length last_end n :
  length (forecast_ends quarter_days last_end n) = n.
Proof.
  revert last_end; induction n as [|n IH]; intros; simpl; auto.
Qed.

Lemma append_forecast_ends_app n : forall ends l,
  ends <> [] ->
  last ends 0 = l ->
  append_forecast_ends n quarter_days ends
  = Ok (ends ++ forecast_ends quarter_days l n).
Proof.
  induction n as [|n IH]; intros ends l Hne Hl; simpl.
  - now rewrite app_nil_r.
  - destruct (exists_last Hne) as (front & x & ->).
    rewrite last_last in Hl; subst x.
    rewrite rev_app_distr; simpl.
    rewrite (IH _ (l + quarter_days)).
    + now rewrite <- app_assoc.
    + now destruct front.
    + apply last_last.
Qed.

Lemma append_forecast_ends_nil n :
  append_forecast_ends n quarter_days []
  = match n with O => Ok [] | S _ => Raise IndexError end.
Proof. destruct n; reflexivity. Qed.

Lemma quarter_rows_length ends : forall i prev,
  length (quarter_rows i prev quarter_days ends) = length ends.
Proof.
  induction ends as [|e tl IH]; intros; simpl; auto.
Qed.

Lemma quarter_rows_app a : forall b i prev,
  quarter_rows i prev quarter_days (a ++ b)
  = quarter_rows i prev quarter_days a
    ++ quarter_rows (i + Z.of_nat (length a))
         (match a with [] => prev | _ => Some (last a 0) end)
         quarter_days b.
Proof.
  induction a as [|x a IH]; intros b i prev.
  - simpl. now rewrite Z.add_0_r.
  - cbn [app quarter_rows]. rewrite IH. cbn [app]. f_equal.
    replace (i + 1 + Z.of_nat (length a))
      with (i + Z.of_nat (length (x :: a)))
      by (cbn [length]; lia).
    destruct a; reflexivity.
Qed.

(** Every row after the first starts the day after the end of the row
    before it. *)
Lemma quarter_rows_chain ends : forall i prev k a b,
  nth_error (quarter_rows i prev quarter_days ends) k = Some a ->
  nth_error (quarter_rows i prev quarter_days ends) (S k) = Some b ->
  snd b = snd (fst a) + 1.
Proof.
  induction ends as [|e tl IH]; intros i prev k a b Ha Hb.
  - destruct k; discriminate.
  - destruct k as [|k].
    + simpl in Ha. injection Ha as <-.
      destruct tl as [|e2 tl]; simpl in Hb; [discriminate|].
      injection Hb as <-. reflexivity.
    + simpl in Ha, Hb. eapply IH; eauto.
Qed.

(** A forecast quarter counts [quarter_days] days. *)
Lemma forecast_rows_days n : forall l i r,
  In r (quarter_rows i (Some l) quarter_days (forecast_ends quarter_days l n)) ->
  (snd (fst r) - snd r) + 1 = quarter_days.
Proof.
  induction n as [|n IH]; intros l i r Hin; simpl in Hin.
  - contradiction.
  - destruct Hin as [<- | Hin].
    + simpl. lia.
    + eapply IH; eauto.
Qed.

End QuarterFrameFacts.

Lemma anchor_ends_parsed :
  mapM to_dt (keys quarter_end_liquidity) = Ok anchor_ends.
Proof. vm_compute. reflexivity. Qed.

Lemma anchor_ends_sorted :
  sorted_by (fun t : Z => t) anchor_ends = anchor_ends.
Proof. vm_compute. reflexivity. Qed.

(** The frame in closed form. *)
Lemma build_quarter_frame_with_forecast_eq forecast_quarters quarter_days :
  build_quarter_frame_with_forecast forecast_quarters quarter_days
  = assign_days
      (quarter_rows 0 None quarter_days
         (anchor_ends
            ++ forecast_ends quarter_days 20211
                 (Z.to_nat (Z.max forecast_quarters 0)))).
Proof.
  unfold build_quarter_frame_with_forecast, build_quarter_frame_from.
  rewrite anchor_ends_parsed. cbn [bind].
  rewrite anchor_ends_sorted.
  rewrite (append_forecast_ends_app quarter_days _ anchor_ends 20211);
    [reflexivity | discriminate | reflexivity].
Qed.

Lemma assign_days_ok rows :
  rows <> [] -> assign_days rows = Ok (map row_of rows).
Proof.
  destruct rows as [|r rows]; [congruence|]. intros _. reflexivity.
Qed.

(** The builder returns a frame, with one row per anchor and one per
    forecast quarter. *)
Lemma quarter_frame_shape (forecast_quarters quarter_days : Z) :
  exists qdf,
    build_quarter_frame_with_forecast forecast_quarters quarter_days = Ok qdf
    /\ length qdf
       = (length quarter_end_liquidity
          + Z.to_nat (Z.max forecast_quarters 0))%nat.
Proof.
  rewrite build_quarter_frame_with_forecast_eq.
  set (rows := quarter_rows 0 None quarter_days _).
  assert (Hlen : length rows
                 = (13 + Z.to_nat (Z.max forecast_quarters 0))%nat).
  { unfold rows. rewrite quarter_rows_length, length_app,
      forecast_ends_length. reflexivity. }
  exists (map row_of rows). split.
  - apply assign_days_ok. intros E. rewrite E in Hlen. discriminate.
  - rewrite length_map. exact Hlen.
Qed.

(** C6: the frame that [build_quarter_frame_with_forecast] returns has
    one row per anchor and one per forecast quarter; its first row
    starts [quarter_days - 1] days before its end; every later row
    starts the day after the row before it ends; every appended forecast
    row counts exactly [quarter_days] days, both ends included. *)
Theorem quarter_frame_contiguity (forecast_quarters quarter_days : Z) :
  exists qdf,
    build_quarter_frame_with_forecast forecast_quarters quarter_days = Ok qdf
    /\ length qdf
       = (length quarter_end_liquidity
          + Z.to_nat (Z.max forecast_quarters 0))%nat
    /\ (exists first, nth_error qdf 0 = Some first
                      /\ q_start first = q_end first - (quarter_days - 1))
    /\ (forall i prev row,
          nth_error qdf i = Some prev ->
          nth_error qdf (S i) = Some row ->
          q_start row = q_end prev + 1)
    /\ (forall i row,
          (length quarter_end_liquidity <= i)%nat ->
          nth_error qdf i = Some row ->
          days row = quarter_days).
Proof.
  rewrite build_quarter_frame_with_forecast_eq.
  set (n := Z.to_nat (Z.max forecast_quarters 0)).
  set (rows := quarter_rows 0 None quarter_days
                 (anchor_ends ++ forecast_ends quarter_days 20211 n)).
  assert (Hlen : length rows = (13 + n)%nat).
  { unfold rows. rewrite quarter_rows_length, length_app,
      forecast_ends_length. reflexivity. }
  exists (map row_of rows). split.
  { apply assign_days_ok. intros E. rewrite E in Hlen. discriminate. }
  split. { rewrite length_map. exact Hlen. }
  split.
  { eexists. split; [reflexivity|]. reflexivity. }
  split.
  - intros i prev row Hp Hr.
    rewrite nth_error_map in Hp, Hr.
    destruct (nth_error rows i) as [[[pi pe] ps]|] eqn:Ep; [|discriminate].
    destruct (nth_error rows (S i)) as [[[ri re] rs]|] eqn:Er; [|discriminate].
    injection Hp as <-. injection Hr as <-. simpl.
    exact (quarter_rows_chain quarter_days _ _ _ _ _ _ Ep Er).
  - intros i row Hi Hr.
    rewrite nth_error_map in Hr.
    destruct (nth_error rows i) as [[[ri re] rs]|] eqn:Er; [|discriminate].
    injection Hr as <-. simpl.
    unfold rows in Er. rewrite quarter_rows_app in Er.
    rewrite nth_error_app2 in Er
      by (rewrite quarter_rows_length; exact Hi).
    apply nth_error_In in Er.
    exact (forecast_rows_days quarter_days _ _ _ _ Er).
Qed.

(** C8: over an empty anchor table the frame builder raises, whatever
    the number of forecast quarters: [IndexError] from [ends[-1]] when
    one is asked for, [KeyError] from the "q_end" column of the frame
    made from no row otherwise. *)
Theorem empty_anchor_table_raises (forecast_quarters quarter_days : Z) :
  build_quarter_frame_from [] forecast_quarters quarter_days
  = Raise (if 0 <? forecast_quarters then IndexError else KeyError).
Proof.
  unfold build_quarter_frame_from. cbn [keys map mapM bind sorted_by fold_right].
  rewrite append_forecast_ends_nil.
  destruct (Z.ltb_spec 0 forecast_quarters) as [H|H].
  - destruct (Z.to_nat (Z.max forecast_quarters 0)) eqn:E; [lia|reflexivity].
  - replace (Z.to_nat (Z.max forecast_quarters 0)) with O by lia.
    reflexivity.
Qed.

(** C10: a number of forecast quarters that is zero or negative is
    clamped to zero: the builder returns, without raising, the frame it
    returns for zero, which has one row per anchor and no other. *)
Theorem nonpositive_forecast_quarters_clamped
    (forecast_quarters quarter_days : Z) :
  forecast_quarters <= 0 ->
  build_quarter_frame_with_forecast forecast_quarters quarter_days
  = build_quarter_frame_with_forecast 0 quarter_days
  /\ exists qdf,
       build_quarter_frame_with_forecast forecast_quarters quarter_days
       = Ok qdf
       /\ map q_end qdf = anchor_ends.
Proof.
  intros H.
  rewrite !build_quarter_frame_with_forecast_eq.
  replace (Z.to_nat (Z.max forecast_quarters 0)) with O by lia.
  split; [reflexivity|].
  eexists. split; reflexivity.
Qed.

Lemma nonpositive_forecast_quarters_clamped_witness :
  build_quarter_frame_with_forecast (-3) 91
  = build_quarter_frame_with_forecast 0 91
  /\ exists qdf,
       build_quarter_frame_with_forecast (-3) 91 = Ok qdf
       /\ map q_end qdf = anchor_ends.
Proof.
  apply (nonpositive_forecast_quarters_clamped (-3) 91). lia.
Defined.

(* ------------------------------------------------------------------ *)
(** ** Dates and series *)

Lemma days_from_In n : forall s d,
  In d (days_from s n) <-> s <= d < s + Z.of_nat n.
Proof.
  induction n as [|n IH]; intros s d.
  - simpl. lia.
  - cbn [days_from In]. rewrite IH. lia.
Qed.

Lemma date_range_In s e d : In d (date_range s e) <-> s <= d <= e.
Proof. unfold date_range. rewrite days_from_In. lia. Qed.

Lemma days_from_length s n : length (days_from s n) = n.
Proof. revert s; induction n as [|n IH]; intros; simpl; auto. Qed.

Lemma date_range_length s e :
  Z.of_nat (length (date_range s e)) = Z.max 0 (e - s + 1).
Proof. unfold date_range. rewrite days_from_length. lia. Qed.

Lemma ffill_from_index s : forall last, index (ffill_from last s) = index s.
Proof.
  induction s as [|[d v] s IH]; intros last; [reflexivity|].
  unfold index in *. cbn [ffill_from map fst]. f_equal. apply IH.
Qed.

Lemma bfill_index s : index (bfill s) = index s.
Proof.
  unfold bfill, index. rewrite map_rev.
  fold (index (ffill_from None (rev s))). rewrite ffill_from_index.
  unfold index. rewrite map_rev. apply rev_involutive.
Qed.

Lemma fillna_index x s : index (fillna x s) = index s.
Proof.
  unfold fillna, index. rewrite map_map. apply map_ext.
  intros [d v]. reflexivity.
Qed.

Lemma fillna_defined x s :
  Forall (fun c => exists v, snd c = Some v) (fillna x s).
Proof.
  unfold fillna. apply Forall_forall. intros c Hc.
  apply in_map_iff in Hc as ([d v] & <- & _).
  destruct v as [v|]; simpl; eauto.
Qed.

(** A column of NaN stays so under forward and backward fill. *)
Lemma ffill_all_nan (l : list Timestamp) :
  ffill_from None (map (fun d => (d, @None Q)) l)
  = map (fun d => (d, None)) l.
Proof. induction l as [|d l IH]; simpl; [reflexivity|]. now rewrite IH. Qed.

Lemma bfill_all_nan (l : list Timestamp) :
  bfill (map (fun d => (d, @None Q)) l) = map (fun d => (d, None)) l.
Proof.
  unfold bfill. rewrite <- map_rev, ffill_all_nan, <- map_rev.
  now rewrite rev_involutive.
Qed.

(* ------------------------------------------------------------------ *)
(** ** Rate adapter *)

Lemma fetch_rates_eq fred start end_ :
  is_unique (index (or_empty_frame (fred start end_))) = true ->
  fetch_rates fred start end_
  = Ok (map rate_row_of
          (fillna DEFAULT_OFFLINE_RATE_PCT
             (bfill (ffill
                (map (fun d =>
                        (d, match lookup d (or_empty_frame (fred start end_))
                            with Some v => v | None => None end))
                     (date_range start end_)))))).
Proof.
  intros Hu. unfold fetch_rates, reindex. rewrite Hu. reflexivity.
Qed.

Lemma fetch_rates_dates fred start end_ rates :
  fetch_rates fred start end_ = Ok rates ->
  map r_date rates = date_range start end_.
Proof.
  unfold fetch_rates, reindex.
  destruct (is_unique _); [|discriminate]. cbn [bind].
  intros H. injection H as <-.
  rewrite map_map.
  transitivity (index (fillna DEFAULT_OFFLINE_RATE_PCT
     (bfill (ffill
        (map (fun d =>
                (d, match lookup d (or_empty_frame (fred start end_))
                    with Some v => v | None => None end))
             (date_range start end_)))))).
  { unfold index. apply map_ext. intros [d v]. reflexivity. }
  rewrite fillna_index, bfill_index. unfold ffill.
  rewrite ffill_from_index. unfold index. rewrite map_map. apply map_id.
Qed.

(** C7: whatever the FRED request does (it raises, it returns nothing,
    it returns a series, whose dates pandas requires to be distinct),
    [fetch_rates] returns one row for each calendar day from [start] to
    [end_], in order, and each row holds a rate that is not NaN together
    with the daily rate (rate / 100) / 365; when the request raises or
    returns nothing that rate is the offline default on every day. *)
Theorem fetch_rates_complete
    (fred : Timestamp -> Timestamp -> option (Series (option Q)))
    (start end_ : Timestamp) :
  is_unique (index (or_empty_frame (fred start end_))) = true ->
  exists rates,
    fetch_rates fred start end_ = Ok rates
    /\ map r_date rates = date_range start end_
    /\ (forall d, start <= d <= end_ ->
          exists r, In r rates /\ r_date r = d)
    /\ Forall (fun r => exists pct,
                  rate_pct r = Some pct
                  /\ daily_rate r = Some ((pct / 100) / DAYCOUNT)%Q) rates
    /\ (or_empty_frame (fred start end_) = [] ->
        Forall (fun r => rate_pct r = Some DEFAULT_OFFLINE_RATE_PCT) rates).
Proof.
  intros Hu. pose proof (fetch_rates_eq _ _ _ Hu) as E.
  eexists. split; [exact E|].
  pose proof (fetch_rates_dates _ _ _ _ E) as Hd.
  split; [exact Hd|]. split; [|split].
  - intros d Hin. apply date_range_In in Hin. rewrite <- Hd in Hin.
    apply in_map_iff in Hin as (r & <- & Hr). eauto.
  - apply Forall_forall. intros r Hr.
    apply in_map_iff in Hr as ([d v] & <- & Hc).
    pose proof (fillna_defined DEFAULT_OFFLINE_RATE_PCT
                  (bfill (ffill
                     (map (fun d =>
                        (d, match lookup d (or_empty_frame (fred start end_))
                            with Some v => v | None => None end))
                        (date_range start end_))))) as Hall.
    rewrite Forall_forall in Hall. destruct (Hall _ Hc) as (x & Hx).
    simpl in Hx. subst v. exists x. split; reflexivity.
  - intros Hempty. rewrite Hempty. cbn [lookup].
    unfold ffill. rewrite ffill_all_nan, bfill_all_nan.
    apply Forall_forall. intros r Hr.
    apply in_map_iff in Hr as ([d v] & <- & Hc).
    unfold fillna in Hc. apply in_map_iff in Hc as ([d' v'] & Hc & Hin).
    apply in_map_iff in Hin as (d0 & Hd0 & _).
    injection Hd0 as _ <-. injection Hc as _ <-. reflexivity.
Qed.

Lemma fetch_rates_complete_witness :
  exists rates,
    fetch_rates (fun _ _ => Some [(3, Some 4%Q); (5, None)]) 1 8 = Ok rates
    /\ length rates = 8%nat.
Proof.
  destruct (fetch_rates_complete
              (fun _ _ => Some [(3, Some 4%Q); (5, None)]) 1 8)
    as (rates & E & Hd & _).
  - reflexivity.
  - exists rates. split; [exact E|].
    rewrite <- (length_map r_date), Hd. reflexivity.
Defined.

(* ------------------------------------------------------------------ *)
(** ** Scheduled rate events *)

Lemma to_dt_raises s e : to_dt s = Raise e -> e = ValueError.
Proof.
  unfold to_dt.
  repeat match goal with
         | |- context [match ?x with _ => _ end] => destruct x
         end; congruence.
Qed.

Lemma insert_sorted_In {A : Type} (key : A -> Z) (a x : A) l :
  In x (insert_sorted key a l) <-> x = a \/ In x l.
Proof.
  induction l as [|b l IH]; simpl.
  - intuition auto.
  - destruct (key a <=? key b); simpl; rewrite ?IH; intuition auto.
Qed.

Lemma sorted_by_In {A : Type} (key : A -> Z) (x : A) l :
  In x (sorted_by key l) <-> In x l.
Proof.
  induction l as [|a l IH]; simpl; [tauto|].
  rewrite insert_sorted_In, IH. intuition auto.
Qed.

Lemma keyed_events_In (evs : list RateEvent) : forall keyed ev eff,
  mapM (fun ev => t <- to_dt (ev_date ev) ;; Ok (t, ev)) evs = Ok keyed ->
  In ev evs ->
  to_dt (ev_date ev) = Ok eff ->
  In (eff, ev) keyed.
Proof.
  induction evs as [|a evs IH]; intros keyed ev eff Hm Hin Heff.
  - contradiction.
  - cbn [mapM] in Hm.
    destruct (to_dt (ev_date a)) as [t|] eqn:Ea; [|discriminate].
    cbn [bind] in Hm.
    destruct (mapM _ evs) as [ks|] eqn:Ek; [|discriminate].
    cbn [bind] in Hm. injection Hm as <-.
    destruct Hin as [-> | Hin].
    + left. congruence.
    + right. eapply IH; eauto.
Qed.

Lemma keyed_events_raise (evs : list RateEvent) e :
  mapM (fun ev => t <- to_dt (ev_date ev) ;; Ok (t, ev)) evs = Raise e ->
  e = ValueError.
Proof.
  induction evs as [|a evs IH]; cbn [mapM]; [discriminate|].
  destruct (to_dt (ev_date a)) as [t|e'] eqn:Ea; cbn [bind].
  - destruct (mapM _ evs) as [ks|e'']; cbn [bind]; [discriminate|].
    intros H. injection H as <-. now apply IH.
  - intros H. injection H as <-. eapply to_dt_raises; eauto.
Qed.

Lemma apply_rate_event_index eff ev out out' :
  apply_rate_event eff ev out = Ok out' -> index out' = index out.
Proof.
  unfold apply_rate_event.
  destruct (negb _); [intros H; injection H as <-; reflexivity|].
  destruct (is_some (delta_bps ev) && is_some (to_pct ev)); [discriminate|].
  destruct (to_pct ev), (delta_bps ev); intros H; injection H as <-;
    try reflexivity;
    unfold index; rewrite map_map; apply map_ext; intros [d v]; simpl;
    destruct (eff <=? d); reflexivity.
Qed.

Lemma apply_rate_event_raise eff ev out e :
  apply_rate_event eff ev out = Raise e -> e = ValueError.
Proof.
  unfold apply_rate_event.
  destruct (negb _); [discriminate|].
  destruct (is_some (delta_bps ev) && is_some (to_pct ev)); [congruence|].
  destruct (to_pct ev), (delta_bps ev); discriminate.
Qed.

(** An event with both keys that takes effect on some day of the series
    stops the loop, unless an earlier event already has. *)
Lemma apply_rate_events_both evs : forall out eff ev,
  In (eff, ev) evs ->
  is_some (delta_bps ev) = true ->
  is_some (to_pct ev) = true ->
  existsb (fun d : Timestamp => eff <=? d) (index out) = true ->
  apply_rate_events evs out = Raise ValueError.
Proof.
  induction evs as [|[eff' ev'] evs IH]; intros out eff ev Hin Hd Ha Hm.
  - contradiction.
  - cbn [apply_rate_events].
    destruct (apply_rate_event eff' ev' out) as [out'|e] eqn:E; cbn [bind].
    + destruct Hin as [Heq | Hin].
      * injection Heq as -> ->. unfold apply_rate_event in E.
        cbv zeta in E. rewrite Hm, Hd, Ha in E. discriminate.
      * apply (IH out' eff ev); auto.
        now rewrite (apply_rate_event_index _ _ _ _ E).
    + now rewrite (apply_rate_event_raise _ _ _ _ E).
Qed.

(** C4, as the code has it: an event that gives both 'delta_bps' and
    'to_pct' makes [apply_future_rate_events] raise [ValueError], and so
    return no adjusted series, when its date is on or before some date
    of the rate series.  (An event dated after the whole series is
    skipped before its keys are looked at.) *)
Theorem both_keys_in_range_raises
    (rates : list RateRow) (events : list RateEvent)
    (ev : RateEvent) (eff : Timestamp) (r : RateRow) :
  In ev events ->
  delta_bps ev <> None ->
  to_pct ev <> None ->
  to_dt (ev_date ev) = Ok eff ->
  In r rates ->
  eff <= r_date r ->
  apply_future_rate_events rates events = Raise ValueError.
Proof.
  intros Hin Hd Ha Heff Hr Hle.
  unfold apply_future_rate_events.
  destruct events as [|e0 events']; [contradiction|].
  set (events := e0 :: events') in *.
  destruct (mapM (fun ev => t <- to_dt (ev_date ev) ;; Ok (t, ev)) events)
    as [keyed|e] eqn:Ek; cbn [bind].
  - rewrite (apply_rate_events_both _ _ eff ev); [reflexivity| | | |].
    + apply sorted_by_In. eapply keyed_events_In; eauto.
    + destruct (delta_bps ev); [reflexivity|congruence].
    + destruct (to_pct ev); [reflexivity|congruence].
    + rewrite fillna_index. unfold index. rewrite map_map.
      apply existsb_exists. exists (r_date r). split.
      * apply in_map_iff. exists r. split; [reflexivity|exact Hr].
      * now apply Z.leb_le.
  - now rewrite (keyed_events_raise _ _ Ek).
Qed.

Lemma both_keys_in_range_raises_witness :
  apply_future_rate_events three_days_at_5pct [both_keys "1970-01-02"]
  = Raise ValueError.
Proof.
  apply (both_keys_in_range_raises three_days_at_5pct
           [both_keys "1970-01-02"] (both_keys "1970-01-02") 1
           (rate_row_of (2, Some DEFAULT_OFFLINE_RATE_PCT))).
  - left. reflexivity.
  - discriminate.
  - discriminate.
  - reflexivity.
  - right. right. left. reflexivity.
  - simpl. lia.
Defined.

(** C4, as stated, fails: an event with both keys dated 1970-01-20,
    after the three days of the series, is skipped and the call returns
    the series. *)
Lemma both_keys_after_range_not_raised :
  delta_bps (both_keys "1970-01-20") <> None
  /\ to_pct (both_keys "1970-01-20") <> None
  /\ apply_future_rate_events three_days_at_5pct [both_keys "1970-01-20"]
     = Ok three_days_at_5pct.
Proof.
  split; [discriminate|]. split; [discriminate|]. reflexivity.
Qed.

(* ------------------------------------------------------------------ *)
(** ** Sums of rationals *)

Lemma Qsum_app l1 l2 : (Qsum (l1 ++ l2) == Qsum l1 + Qsum l2)%Q.
Proof.
  induction l1 as [|x l1 IH]; simpl.
  - ring.
  - rewrite IH. ring.
Qed.

Lemma Qsum_const {A : Type} (c : Q) (l : list A) :
  (Qsum (map (fun _ => c) l) == inject_Z (Z.of_nat (length l)) * c)%Q.
Proof.
  induction l as [|a l IH].
  - simpl. ring.
  - cbn [map Qsum fold_right length]. fold (Qsum (map (fun _ : A => c) l)).
    rewrite IH, Nat2Z.inj_succ, <- Z.add_1_r, inject_Z_plus. ring.
Qed.

Lemma inject_Z_length_nonzero {A : Type} (l : list A) :
  l <> [] -> ~ (inject_Z (Z.of_nat (length l)) == 0)%Q.
Proof.
  intros Hne H. destruct l as [|a l]; [congruence|].
  unfold Qeq in H. simpl in H. lia.
Qed.

(** The drift brings the walk to the end liquidity. *)
Lemma reconcile_arith (s e m n dr : Q) :
  ~ (n == 0)%Q ->
  (dr == ((e - s) - m) / n)%Q ->
  (s + (m + n * dr) == e)%Q.
Proof. intros Hn ->. field. exact Hn. Qed.

(* ------------------------------------------------------------------ *)
(** ** Purchase schedule *)

Lemma date_range_nonempty s e : s <= e -> date_range s e <> [].
Proof.
  intros H E. pose proof (date_range_length s e) as L.
  rewrite E in L. simpl in L. lia.
Qed.


(** The download raising, or returning an empty frame, makes the [try]
    branch raise. *)
Lemma btc_priced_fetch_fails btc dates total_btc upo fee_bps price_basis :
  btc = None \/ btc = Some [] ->
  btc_priced btc dates total_btc upo fee_bps price_basis = Raise RuntimeError.
Proof. intros [-> | ->]; reflexivity. Qed.




(* ------------------------------------------------------------------ *)
(** ** Daily path *)

Lemma is_unique_NoDup l : is_unique l = true <-> NoDup l.
Proof.
  induction l as [|a l IH]; simpl.
  - split; [constructor|reflexivity].
  - rewrite andb_true_iff, negb_true_iff, IH, NoDup_cons_iff.
    assert (H : existsb (Z.eqb a) l = false <-> ~ In a l).
    { rewrite <- not_true_iff_false, existsb_exists. split.
      - intros N Hin. apply N. exists a. split; [exact Hin|apply Z.eqb_refl].
      - intros N (x & Hin & Hx). apply Z.eqb_eq in Hx. now subst x. }
    now rewrite H.
Qed.

Lemma days_from_NoDup n : forall s, NoDup (days_from s n).
Proof.
  induction n as [|n IH]; intros s; simpl; constructor.
  - rewrite days_from_In. lia.
  - apply IH.
Qed.

Lemma date_range_NoDup s e : NoDup (date_range s e).
Proof. apply days_from_NoDup. Qed.

Lemma days_from_snoc n : forall s,
  days_from s (S n) = days_from s n ++ [s + Z.of_nat n].
Proof.
  induction n as [|n IH]; intros s.
  - simpl. now rewrite Z.add_0_r.
  - change (days_from s (S (S n))) with (s :: days_from (s + 1) (S n)).
    rewrite IH. cbn [days_from app]. do 2 f_equal. f_equal. lia.
Qed.

Lemma date_range_snoc s e :
  s <= e -> date_range s e = date_range s (e - 1) ++ [e].
Proof.
  intros H. unfold date_range.
  replace (Z.to_nat (e - s + 1)) with (S (Z.to_nat (e - 1 - s + 1))) by lia.
  rewrite days_from_snoc. do 2 f_equal. lia.
Qed.

Lemma reindex_inv {V : Type} (s : Series V) target fill r :
  reindex s target fill = Ok r ->
  is_unique (index s) = true
  /\ r = map (fun d => (d, match lookup d s with
                           | Some v => v
                           | None => fill
                           end)) target.
Proof.
  unfold reindex. destruct (is_unique (index s)); [|discriminate].
  intros H. injection H as <-. auto.
Qed.

Lemma reindex_ok {V : Type} (s : Series V) target fill :
  is_unique (index s) = true ->
  reindex s target fill
  = Ok (map (fun d => (d, match lookup d s with
                          | Some v => v
                          | None => fill
                          end)) target).
Proof. unfold reindex. now intros ->. Qed.

Lemma combine_map_same {A B C : Type} (f : A -> B) (g : A -> C) l :
  combine (map f l) (map g l) = map (fun x => (f x, g x)) l.
Proof. induction l as [|a l IH]; simpl; [reflexivity|]. now rewrite IH. Qed.

Lemma combine_snoc {A B : Type} (l1 : list A) : forall (l2 : list B) a b,
  length l1 = length l2 ->
  combine (l1 ++ [a]) (l2 ++ [b]) = combine l1 l2 ++ [(a, b)].
Proof.
  induction l1 as [|x l1 IH]; intros [|y l2] a b Hlen;
    try discriminate; simpl; [reflexivity|].
  rewrite IH; auto.
Qed.

Lemma events_column_inv evs dates e :
  events_column evs dates = Ok e ->
  is_unique (map e_date evs) = true
  /\ e = map (fun d => (d, events_at evs d)) dates.
Proof.
  unfold events_column. intros H. apply reindex_inv in H as [Hu ->].
  unfold index in Hu. rewrite map_map in Hu. cbn [fst] in Hu.
  split; [exact Hu|reflexivity].
Qed.

Lemma events_column_ok evs dates :
  is_unique (map e_date evs) = true ->
  events_column evs dates = Ok (map (fun d => (d, events_at evs d)) dates).
Proof.
  intros Hu. unfold events_column. apply reindex_ok.
  unfold index. rewrite map_map. exact Hu.
Qed.

Lemma btc_column_inv btc dates b :
  btc_column btc dates = Ok b ->
  is_unique (map b_date btc) = true
  /\ b = map (fun d => (d, btc_at btc d)) dates.
Proof.
  unfold btc_column. destruct btc as [|r0 btc].
  - intros H. injection H as <-. split; reflexivity.
  - set (s := map (fun r => (b_date r, cash_flow r)) (r0 :: btc)).
    destruct (reindex s dates None) as [r|] eqn:E; [|discriminate].
    cbn [bind]. intros H. injection H as <-.
    apply reindex_inv in E as [Hu ->].
    unfold index, s in Hu. rewrite map_map in Hu. cbn [fst] in Hu.
    split; [exact Hu|].
    rewrite map_map. apply map_ext. intros d. unfold btc_at. fold s.
    destruct (lookup d s) as [[x|]|]; reflexivity.
Qed.

Lemma btc_column_ok btc dates :
  is_unique (map b_date btc) = true ->
  btc_column btc dates = Ok (map (fun d => (d, btc_at btc d)) dates).
Proof.
  intros Hu. unfold btc_column. destruct btc as [|r0 btc]; [reflexivity|].
  set (s := map (fun r => (b_date r, cash_flow r)) (r0 :: btc)).
  rewrite reindex_ok
    by (unfold index, s; rewrite map_map; exact Hu).
  cbn [bind]. f_equal.
  rewrite map_map. apply map_ext. intros d. unfold btc_at. fold s.
  destruct (lookup d s) as [[x|]|]; reflexivity.
Qed.

Section PathRowsFacts.

Variables (ev bt : Timestamp -> Q) (rate : Timestamp -> option Q).
Variables (start dr : Q).

Lemma running_balance_length rows : forall bal,
  length (running_balance bal rows) = length rows.
Proof.
  induction rows as [|[[[d e] b] x] rows IH]; intros; simpl; auto.
Qed.

Lemma running_balance_app a : forall bal b,
  running_balance bal (a ++ b)
  = running_balance bal a ++ running_balance (final_balance bal a) b.
Proof.
  induction a as [|[[[d e] b0] x] a IH]; intros bal b; simpl.
  - reflexivity.
  - now rewrite IH.
Qed.

Lemma final_balance_sum rows : forall bal,
  (final_balance bal rows
   == bal + Qsum (map (fun '(_, e, b, x) => (e + b) + x) rows))%Q.
Proof.
  induction rows as [|[[[d e] b] x] rows IH]; intros bal.
  - simpl. ring.
  - change (final_balance bal ((d, e, b, x) :: rows))
      with (final_balance (bal + ((e + b) + x))%Q rows).
    rewrite IH. cbn [map]. unfold Qsum. cbn [fold_right]. ring.
Qed.

Lemma flow_rows_sum dates :
  (Qsum (map (fun '(_, e, b, x) => (e + b) + x) (flow_rows ev bt dr dates))
   == Qsum (map (fun d => ev d + bt d) dates)
      + inject_Z (Z.of_nat (length dates)) * dr)%Q.
Proof.
  unfold flow_rows. rewrite map_map.
  induction dates as [|d dates IH].
  - simpl. ring.
  - cbn [map Qsum fold_right length].
    fold (Qsum (map (fun d => (ev d + bt d + dr)%Q) dates)).
    fold (Qsum (map (fun d => (ev d + bt d)%Q) dates)).
    rewrite IH, Nat2Z.inj_succ, <- Z.add_1_r, inject_Z_plus. ring.
Qed.

Lemma path_rows_length dates : length (path_rows ev bt rate start dr dates) = length dates.
Proof.
  unfold path_rows, flow_rows.
  rewrite length_map, !length_combine, running_balance_length, !length_map.
  lia.
Qed.

Lemma path_rows_snoc dates d :
  path_rows ev bt rate start dr (dates ++ [d])
  = path_rows ev bt rate start dr dates
    ++ [ {| d_date := d;
            d_events := ev d;
            d_btc := bt d;
            drift := dr;
            ending_balance_mm :=
              final_balance start (flow_rows ev bt dr (dates ++ [d]));
            d_daily_rate := rate d;
            interest_mm :=
              option_map
                (fun y => (final_balance start (flow_rows ev bt dr (dates ++ [d]))
                           * y)%Q) (rate d) |} ].
Proof.
  unfold path_rows, flow_rows.
  rewrite !map_app. cbn [map].
  rewrite running_balance_app. cbn [running_balance].
  rewrite !combine_snoc.
  - rewrite map_app. cbn [map daily_row_of].
    unfold final_balance. rewrite fold_left_app. reflexivity.
  - rewrite length_combine, running_balance_length, !length_map. lia.
  - rewrite running_balance_length. reflexivity.
Qed.

Lemma path_rows_drift dates : Forall (fun r => drift r = dr) (path_rows ev bt rate start dr dates).
Proof.
  apply Forall_forall. intros r Hin. unfold path_rows in Hin.
  apply in_map_iff in Hin as ([[[[[d e] b] x] bal] [d' r']] & <- & Hin).
  apply in_combine_l, in_combine_l in Hin.
  unfold flow_rows in Hin. apply in_map_iff in Hin as (d0 & E & _).
  injection E as _ _ _ <-. reflexivity.
Qed.

End PathRowsFacts.

Lemma build_daily_path_body inputs rates e b r :
  let dates := date_range (qi_start inputs) (qi_end inputs) in
  e = map (fun d => (d, events_at (events inputs) d)) dates ->
  b = map (fun d => (d, btc_at (btc_out inputs) d)) dates ->
  r = map (fun d => (d, rate_at rates d)) dates ->
  (let df := map (fun '((d, ev), (_, bt)) => (d, ev, bt)) (combine e b) in
   let mech_flows_total := Qsum (map (fun '(_, ev, bt) => (ev + bt)%Q) df) in
   let n_days := Z.of_nat (length df) in
   let drift_per_day :=
     (((end_liq inputs - start_liq inputs) - mech_flows_total)
      / inject_Z n_days)%Q in
   let df := map (fun '(d, ev, bt) => (d, ev, bt, drift_per_day)) df in
   let balance := running_balance (start_liq inputs) df in
   map (fun '((d, ev, bt, dr), bal, (_, rate)) =>
           {| d_date := d;
              d_events := ev;
              d_btc := bt;
              drift := dr;
              ending_balance_mm := bal;
              d_daily_rate := rate;
              interest_mm := option_map (fun x => (bal * x)%Q) rate |})
        (combine (combine df balance) r))
  = daily_path_of inputs rates.
Proof.
  intros dates -> -> ->. cbv zeta.
  rewrite combine_map_same, !map_map, length_map.
  unfold daily_path_of, path_rows, flow_rows, drift_of. fold dates.
  apply map_ext. intros [[[[[d ev] bt] dr] bal] [d' rate]]. reflexivity.
Qed.

Lemma build_daily_path_inv inputs rates df interest :
  build_daily_path inputs rates = Ok (df, interest) ->
  df = daily_path_of inputs rates
  /\ interest = nansum (map interest_mm df).
Proof.
  unfold build_daily_path.
  destruct (events_column _ _) as [e|] eqn:Ee; [|discriminate].
  destruct (btc_column _ _) as [b|] eqn:Eb; [|discriminate].
  cbn [bind].
  destruct (reindex _ _ _) as [r|] eqn:Er; [|discriminate].
  cbn [bind]. intros H.
  apply events_column_inv in Ee as [_ Ee].
  apply btc_column_inv in Eb as [_ Eb].
  apply reindex_inv in Er as [_ Er].
  pose proof (build_daily_path_body inputs rates e b r Ee Eb Er) as Hb.
  cbv zeta in Hb, H. rewrite Hb in H. injection H as <- <-. auto.
Qed.

Lemma build_daily_path_ok inputs rates :
  is_unique (map e_date (events inputs)) = true ->
  is_unique (map b_date (btc_out inputs)) = true ->
  is_unique (map r_date rates) = true ->
  build_daily_path inputs rates
  = Ok (daily_path_of inputs rates,
        nansum (map interest_mm (daily_path_of inputs rates))).
Proof.
  intros He Hb Hr. unfold build_daily_path.
  rewrite (events_column_ok _ _ He), (btc_column_ok _ _ Hb). cbn [bind].
  rewrite reindex_ok by (unfold index; rewrite map_map; exact Hr).
  cbn [bind].
  exact (f_equal (fun df => Ok (df, nansum (map interest_mm df)))
           (build_daily_path_body inputs rates _ _ _
              eq_refl eq_refl eq_refl)).
Qed.

(** The last row of the path is the quarter end, and its balance is the
    end liquidity of the inputs. *)
Lemma daily_path_last inputs rates :
  qi_start inputs <= qi_end inputs ->
  exists front row,
    daily_path_of inputs rates = front ++ [row]
    /\ d_date row = qi_end inputs
    /\ (ending_balance_mm row == end_liq inputs)%Q.
Proof.
  intros Hle. unfold daily_path_of.
  pose proof (date_range_nonempty _ _ Hle) as Hne.
  pose proof (inject_Z_length_nonzero _ Hne) as Hn.
  assert (Hd : drift_of inputs
               = (((end_liq inputs - start_liq inputs)
                   - Qsum (map (fun d => events_at (events inputs) d
                                         + btc_at (btc_out inputs) d)
                               (date_range (qi_start inputs) (qi_end inputs))))
                  / inject_Z (Z.of_nat
                      (length (date_range (qi_start inputs)
                                          (qi_end inputs)))))%Q)
    by reflexivity.
  revert Hn Hd. generalize (drift_of inputs) as dr.
  rewrite (date_range_snoc _ _ Hle).
  intros dr Hn Hd. rewrite path_rows_snoc.
  eexists. eexists. split; [reflexivity|]. split; [reflexivity|].
  cbn [ending_balance_mm].
  rewrite final_balance_sum, flow_rows_sum.
  apply reconcile_arith; [exact Hn|]. rewrite Hd. apply Qeq_refl.
Qed.

(** C1: for a quarter that has a day, whatever the events and the
    purchase flows, a path that [build_daily_path] returns ends on the
    quarter end with an ending balance equal to the end liquidity of the
    inputs, which for a reported quarter is its anchor; and the function
    does return a path when no two events, no two purchase rows and no
    two rate rows bear the same date (pandas raises otherwise). *)
Theorem reconciliation_exact (inputs : QuarterInputs) (rates : list RateRow) :
  qi_start inputs <= qi_end inputs ->
  (forall df interest,
      build_daily_path inputs rates = Ok (df, interest) ->
      exists front row,
        df = front ++ [row]
        /\ d_date row = qi_end inputs
        /\ (ending_balance_mm row == end_liq inputs)%Q)
  /\ (is_unique (map e_date (events inputs)) = true ->
      is_unique (map b_date (btc_out inputs)) = true ->
      is_unique (map r_date rates) = true ->
      exists df interest, build_daily_path inputs rates = Ok (df, interest)).
Proof.
  intros Hle. split.
  - intros df interest H. apply build_daily_path_inv in H as [-> _].
    now apply daily_path_last.
  - intros He Hb Hr. rewrite (build_daily_path_ok _ _ He Hb Hr). eauto.
Qed.

Lemma reconciliation_exact_witness :
  exists df interest front row,
    build_daily_path two_event_quarter (flat_5pct 20116 20130)
    = Ok (df, interest)
    /\ df = front ++ [row]
    /\ (ending_balance_mm row == 63858 # 10)%Q.
Proof.
  destruct (reconciliation_exact two_event_quarter (flat_5pct 20116 20130))
    as [Hlast Hret].
  - simpl. lia.
  - destruct Hret as (df & interest & E); try reflexivity.
    destruct (Hlast df interest E) as (front & row & Hdf & _ & Hbal).
    exists df, interest, front, row. auto.
Defined.

(* ------------------------------------------------------------------ *)
(** ** The flat-rate scenario *)

(** C9: on the scenario [build_daily_path] returns ten rows, each with a
    drift of 10, with ending balances 1010, 1020, ..., 1100 in order,
    the last being 1100, and a total interest of
    0.0001 * (1010 + ... + 1100), which is 1.055. *)
Theorem scenario_flat_rate_quarter :
  exists df interest,
    build_daily_path scenario_inputs scenario_rates = Ok (df, interest)
    /\ map d_date df = date_range 20089 20098
    /\ Forall (fun r => (drift r == 10)%Q) df
    /\ Forall2 (fun r bal => (ending_balance_mm r == bal)%Q) df
         [1010; 1020; 1030; 1040; 1050; 1060; 1070; 1080; 1090; 1100]%Q
    /\ (exists front row,
          df = front ++ [row] /\ (ending_balance_mm row == 1100)%Q)
    /\ (interest
        == (1 # 10000) * (1010 + 1020 + 1030 + 1040 + 1050
                          + 1060 + 1070 + 1080 + 1090 + 1100))%Q
    /\ (interest == 1055 # 1000)%Q.
Proof.
  destruct (build_daily_path scenario_inputs scenario_rates)
    as [[df interest]|] eqn:E; [|discriminate E].
  exists df, interest. split; [reflexivity|].
  vm_compute in E. injection E as <- <-.
  split; [reflexivity|].
  split; [repeat constructor; qeq_by_computation|].
  split; [repeat constructor; qeq_by_computation|].
  split.
  - eexists (_ :: _ :: _ :: _ :: _ :: _ :: _ :: _ :: _ :: nil), _.
    split; [reflexivity|qeq_by_computation].
  - split; qeq_by_computation.
Qed.

(* ------------------------------------------------------------------ *)
(** ** Flows of a quarter *)

Lemma Qsum_map_plus {A : Type} (f g : A -> Q) l :
  (Qsum (map (fun a => f a + g a) l) == Qsum (map f l) + Qsum (map g l))%Q.
Proof.
  induction l as [|a l IH]; unfold Qsum in *; cbn [map fold_right].
  - ring.
  - rewrite IH. ring.
Qed.

Lemma lookup_not_in {V : Type} (s : Series V) d :
  ~ In d (index s) -> lookup d s = None.
Proof.
  induction s as [|[k v] s IH]; intros Hn; [reflexivity|].
  cbn [lookup]. destruct (Z.eqb_spec d k) as [->|Hne].
  - exfalso. apply Hn. now left.
  - apply IH. intros Hin. apply Hn. now right.
Qed.

(** One more entry [(k, v)] in front of a series adds [v] to the sum of
    the column reindexed on [dates], when [k] is one of the dates and is
    not in the series yet. *)
Lemma Qsum_pick (g : Timestamp -> Q) (k : Timestamp) (v : Q) dates :
  NoDup dates ->
  In k dates ->
  g k = 0%Q ->
  (Qsum (map (fun d => if d =? k then v else g d) dates)
   == v + Qsum (map g dates))%Q.
Proof.
  induction dates as [|d dates IH]; intros Hnd Hin Hg; [contradiction|].
  apply NoDup_cons_iff in Hnd as [Hnotin Hnd].
  unfold Qsum in *. cbn [map fold_right].
  destruct (Z.eqb_spec d k) as [->|Hne].
  - rewrite Hg.
    rewrite (map_ext_in (fun d => if d =? k then v else g d) g).
    + ring.
    + intros a Ha. destruct (Z.eqb_spec a k) as [->|_]; [contradiction|].
      reflexivity.
  - destruct Hin as [->|Hin]; [congruence|].
    rewrite (IH Hnd Hin Hg). ring.
Qed.

Lemma Qsum_reindexed (s : Series Q) dates :
  NoDup (index s) ->
  NoDup dates ->
  (forall d, In d (index s) -> In d dates) ->
  (Qsum (map (fun d => or_zero (lookup d s)) dates) == Qsum (values s))%Q.
Proof.
  induction s as [|[k v] s IH]; intros Hs Hd Hincl.
  - cbn [lookup or_zero values map].
    rewrite (Qsum_const 0%Q dates). unfold Qsum. cbn [fold_right]. ring.
  - cbn [index map fst] in Hs. apply NoDup_cons_iff in Hs as [Hk Hs].
    rewrite (map_ext (fun d => or_zero (lookup d ((k, v) :: s)))
                     (fun d => if d =? k then v
                               else or_zero (lookup d s))).
    + rewrite Qsum_pick.
      * rewrite IH; auto.
        -- unfold Qsum. cbn [values map snd fold_right]. reflexivity.
        -- intros d Hin. apply Hincl. now right.
      * exact Hd.
      * apply Hincl. now left.
      * now rewrite (lookup_not_in s k Hk).
    + intros d. cbn [lookup]. destruct (d =? k); reflexivity.
Qed.

Lemma lookup_map_values {V W : Type} (f : V -> W) (s : Series V) d :
  lookup d (map (fun '(k, v) => (k, f v)) s) = option_map f (lookup d s).
Proof.
  induction s as [|[k v] s IH]; [reflexivity|].
  cbn [map lookup]. destruct (d =? k); [reflexivity|exact IH].
Qed.

(** The "events" column adds up to the sum of the amounts when the
    events have distinct dates, all among the days. *)
Lemma events_column_sum evs dates :
  NoDup (map e_date evs) ->
  NoDup dates ->
  (forall ev, In ev evs -> In (e_date ev) dates) ->
  (Qsum (map (events_at evs) dates) == Qsum (map amount evs))%Q.
Proof.
  intros Hu Hd Hin.
  pose proof (Qsum_reindexed (map (fun ev => (e_date ev, amount ev)) evs)
                             dates) as H.
  unfold index, values in H. rewrite !map_map in H. cbn [fst snd] in H.
  apply H; auto.
  intros d Hd'. apply in_map_iff in Hd' as (ev & <- & Hev). auto.
Qed.

(** The "btc" column adds up to the NaN-skipping sum of the cash flows
    when the purchase rows have distinct dates, all among the days. *)
Lemma btc_column_sum btc dates :
  NoDup (map b_date btc) ->
  NoDup dates ->
  (forall r, In r btc -> In (b_date r) dates) ->
  (Qsum (map (btc_at btc) dates) == nansum (map cash_flow btc))%Q.
Proof.
  intros Hu Hd Hin.
  pose proof (Qsum_reindexed
                (map (fun r => (b_date r, or_zero (cash_flow r))) btc)
                dates) as H.
  unfold index, values in H. rewrite !map_map in H. cbn [fst snd] in H.
  unfold nansum. rewrite map_map.
  rewrite <- H; auto.
  - rewrite (map_ext (btc_at btc)
               (fun d => or_zero
                  (lookup d (map (fun r => (b_date r, or_zero (cash_flow r)))
                                 btc)))).
    + reflexivity.
    + intros d. unfold btc_at.
      replace (map (fun r => (b_date r, or_zero (cash_flow r))) btc)
        with (map (fun '(k, v) => (k, or_zero v))
                  (map (fun r => (b_date r, cash_flow r)) btc))
        by (rewrite map_map; reflexivity).
      rewrite lookup_map_values.
      destruct (lookup d _) as [[x|]|]; reflexivity.
  - intros d Hd'. apply in_map_iff in Hd' as (r & <- & Hr). auto.
Qed.

Lemma zero_over (x n : Q) : (x == 0)%Q -> (x / n == 0)%Q.
Proof. intros ->. unfold Qdiv. ring. Qed.

(** Where the end liquidity is the start liquidity plus the flows of
    the quarter, the drift is zero in exact arithmetic. *)
Lemma drift_of_forecast inputs :
  NoDup (map e_date (events inputs)) ->
  NoDup (map b_date (btc_out inputs)) ->
  (forall ev, In ev (events inputs) ->
              qi_start inputs <= e_date ev <= qi_end inputs) ->
  (forall r, In r (btc_out inputs) ->
             qi_start inputs <= b_date r <= qi_end inputs) ->
  (end_liq inputs
   == (start_liq inputs + Qsum (map amount (events inputs)))
      + nansum (map cash_flow (btc_out inputs)))%Q ->
  (drift_of inputs == 0)%Q.
Proof.
  intros He Hb Hein Hbin Hend. unfold drift_of.
  apply zero_over.
  rewrite Qsum_map_plus.
  rewrite events_column_sum, btc_column_sum, Hend;
    auto using date_range_NoDup.
  - ring.
  - intros r Hr. apply date_range_In. auto.
  - intros ev Hev. apply date_range_In. auto.
Qed.

(* ------------------------------------------------------------------ *)
(** ** Purchase frame of a quarter *)

Lemma btc_priced_dates btc dates total_btc upo fee_bps price_basis df :
  btc_priced btc dates total_btc upo fee_bps price_basis = Ok df ->
  map b_date df = dates.
Proof.
  unfold btc_priced. destruct btc as [[|p0 btc]|]; try discriminate.
  destruct (reindex _ dates None) as [px|] eqn:E; [|discriminate].
  cbn [bind]. intros H. injection H as <-.
  apply reindex_inv in E as [_ ->].
  rewrite map_map.
  transitivity (index (ffill
    (map (fun d => (d, match lookup d
                          (if (lower (if (price_basis =? "")%string
                                      then "close"%string else price_basis)
                               =? "hlc3")%string
                           then map (fun r => (p_date r, hlc3 r)) (p0 :: btc)
                           else map (fun r => (p_date r, Close r)) (p0 :: btc))
                       with Some v => v | None => None end)) dates))).
  - unfold index. apply map_ext. intros [d v]. reflexivity.
  - unfold ffill. rewrite ffill_from_index. unfold index.
    rewrite map_map. apply map_id.
Qed.

Lemma btc_outflow_series_dates yahoo start end_ total_btc upo fpo fee_bps
    price_basis :
  map b_date (btc_outflow_series yahoo start end_ total_btc upo fpo fee_bps
                price_basis)
  = date_range start end_.
Proof.
  unfold btc_outflow_series.
  destruct (date_range start end_) as [|d0 dates] eqn:Ed; [reflexivity|].
  destruct (btc_priced _ _ _ _ _ _) as [df|e] eqn:E.
  - exact (btc_priced_dates _ _ _ _ _ _ _ E).
  - unfold btc_fallback. rewrite map_map. apply map_id.
Qed.

Lemma NoDup_map_filter {A : Type} (f : A -> Z) (p : A -> bool) l :
  NoDup (map f l) -> NoDup (map f (filter p l)).
Proof.
  induction l as [|a l IH]; intros H; [constructor|].
  cbn [map] in H. apply NoDup_cons_iff in H as [Hn Hd].
  cbn [filter]. destruct (p a); auto.
  cbn [map]. constructor; auto.
  intros Hin. apply Hn. apply in_map_iff in Hin as (x & Hx & Hf).
  apply filter_In in Hf as [Hf _]. apply in_map_iff. eauto.
Qed.

Section QuarterLoopFacts.

Variable yahoo : Timestamp -> Timestamp -> option (list PriceRow).
Variable q_liq : Dict.
Variable all_events : list Event.
Variable rates : list RateRow.
Variable btc_units_total : Q.
Variables btc_start btc_end : Timestamp.
Variables units_per_day_global fallback_per_day_mm_global : Q.

Local Abbreviation quarter_btc_of :=
  (quarter_btc yahoo btc_units_total btc_start btc_end
     units_per_day_global fallback_per_day_mm_global).

Local Abbreviation simulate_quarter_of :=
  (simulate_quarter yahoo q_liq all_events rates btc_units_total
     btc_start btc_end units_per_day_global fallback_per_day_mm_global).

Local Abbreviation quarter_loop_of :=
  (quarter_loop yahoo q_liq all_events rates btc_units_total
     btc_start btc_end units_per_day_global fallback_per_day_mm_global).

Local Abbreviation quarter_events_of := (quarter_events all_events).

Local Abbreviation start_liq_in := (start_liq_of q_liq).

Local Abbreviation quarter_inputs_in :=
  (quarter_inputs_of yahoo q_liq all_events btc_units_total
     btc_start btc_end units_per_day_global fallback_per_day_mm_global).

Lemma quarter_btc_dates q_start q_end :
  NoDup (map b_date (quarter_btc_of q_start q_end))
  /\ forall r, In r (quarter_btc_of q_start q_end) ->
               q_start <= b_date r <= q_end.
Proof.
  unfold quarter_btc.
  destruct (Z.max q_start btc_start <=? Z.min q_end btc_end).
  - split.
    + rewrite btc_outflow_series_dates. apply date_range_NoDup.
    + intros r Hr. apply (in_map b_date) in Hr.
      rewrite btc_outflow_series_dates in Hr.
      apply date_range_In in Hr. lia.
  - split; [constructor|contradiction].
Qed.

Lemma quarter_events_dates q_start q_end :
  forall ev, In ev (quarter_events_of q_start q_end) ->
             q_start <= e_date ev <= q_end.
Proof.
  intros ev Hin. apply filter_In in Hin as [_ H].
  apply andb_true_iff in H as [H1 H2]. lia.
Qed.

(** What a turn of the loop returns is read off the closed form of the
    path of its inputs. *)
Lemma simulate_quarter_inv prev row r :
  simulate_quarter_of prev row = Ok r ->
  let inputs := quarter_inputs_in prev row in
  daily r = daily_path_of inputs rates
  /\ is_unique (map e_date (events inputs)) = true
  /\ modeled_interest_mm r = nansum (map interest_mm (daily r))
  /\ start_liq_mm r = start_liq_in prev row
  /\ end_liq_mm r = end_liq inputs
  /\ ev_sum_mm r = Qsum (map amount (events inputs))
  /\ btc_sum_mm r = nansum (map cash_flow (btc_out inputs))
  /\ is_forecast r = negb (is_some (dict_get (strftime (q_end row)) q_liq))
  /\ end_liq_carry_mm r
     = (end_liq_mm r
        + (if is_forecast r then modeled_interest_mm r else 0))%Q
  /\ drift_per_day_mm r
     = match daily r with [] => None | d :: _ => Some (drift d) end
  /\ r_q_end r = q_end row.
Proof.
  intros H inputs.
  unfold simulate_quarter in H. cbv zeta in H.
  change (build_daily_path _ rates)
    with (build_daily_path inputs rates) in H.
  destruct (build_daily_path inputs rates) as [[df mi]|] eqn:E;
    [|discriminate].
  cbn [bind] in H. injection H as <-. cbn.
  pose proof E as E'. apply build_daily_path_inv in E' as [-> ->].
  unfold build_daily_path in E.
  destruct (events_column _ _) as [e|] eqn:Ee; [|discriminate].
  apply events_column_inv in Ee as [Hu _].
  repeat split; auto.
Qed.

Lemma simulate_quarter_ok prev row :
  is_unique (map e_date all_events) = true ->
  is_unique (map r_date rates) = true ->
  exists r, simulate_quarter_of prev row = Ok r.
Proof.
  intros He Hr.
  unfold simulate_quarter. cbv zeta.
  change (build_daily_path _ rates)
    with (build_daily_path (quarter_inputs_in prev row) rates).
  rewrite build_daily_path_ok; [cbn [bind]; eauto| | |exact Hr].
  - apply is_unique_NoDup. cbn [events quarter_inputs_of].
    apply NoDup_map_filter. now apply is_unique_NoDup.
  - apply is_unique_NoDup. cbn [btc_out quarter_inputs_of].
    apply quarter_btc_dates.
Qed.

(** The drift of a quarter without an anchor is zero in exact
    arithmetic. *)
Lemma forecast_quarter_drift prev row :
  dict_get (strftime (q_end row)) q_liq = None ->
  is_unique (map e_date (events (quarter_inputs_in prev row))) = true ->
  (drift_of (quarter_inputs_in prev row) == 0)%Q.
Proof.
  intros Hnone Hu. apply drift_of_forecast.
  - now apply is_unique_NoDup.
  - apply quarter_btc_dates.
  - apply quarter_events_dates.
  - apply quarter_btc_dates.
  - cbn [end_liq start_liq events btc_out quarter_inputs_of].
    rewrite Hnone. reflexivity.
Qed.

(** A forecast turn of the loop: the end liquidity is the start
    liquidity plus the flows, and every row of the path has drift 0. *)
Lemma simulate_quarter_forecast prev row r :
  dict_get (strftime (q_end row)) q_liq = None ->
  simulate_quarter_of prev row = Ok r ->
  is_forecast r = true
  /\ end_liq_mm r = ((start_liq_mm r + ev_sum_mm r) + btc_sum_mm r)%Q
  /\ ev_sum_mm r
     = Qsum (map amount (quarter_events_of (q_start row) (q_end row)))
  /\ btc_sum_mm r
     = nansum (map cash_flow (quarter_btc_of (q_start row) (q_end row)))
  /\ Forall (fun d => (drift d == 0)%Q) (daily r)
  /\ length (daily r) = length (date_range (q_start row) (q_end row)).
Proof.
  intros Hnone H.
  destruct (simulate_quarter_inv _ _ _ H)
    as (Hd & Hu & _ & Hs & He & Hev & Hbtc & Hf & _).
  rewrite Hf, Hnone, Hs, He, Hev, Hbtc.
  cbn [end_liq events btc_out quarter_inputs_of]. rewrite Hnone.
  repeat split; try reflexivity.
  - rewrite Hd. unfold daily_path_of.
    eapply Forall_impl; [|apply path_rows_drift].
    intros d ->. now apply forecast_quarter_drift.
  - rewrite Hd. unfold daily_path_of. now rewrite path_rows_length.
Qed.

(** A reported turn of the loop: the path ends on the anchor. *)
Lemma simulate_quarter_reported prev row r anchor :
  dict_get (strftime (q_end row)) q_liq = Some anchor ->
  q_start row <= q_end row ->
  simulate_quarter_of prev row = Ok r ->
  is_forecast r = false
  /\ end_liq_mm r = anchor
  /\ exists front last,
       daily r = front ++ [last]
       /\ d_date last = q_end row
       /\ (ending_balance_mm last == anchor)%Q.
Proof.
  intros Hsome Hle H.
  destruct (simulate_quarter_inv _ _ _ H)
    as (Hd & _ & _ & _ & He & _ & _ & Hf & _).
  rewrite Hf, He, Hd. cbn [end_liq quarter_inputs_of]. rewrite Hsome.
  split; [reflexivity|]. split; [reflexivity|].
  destruct (daily_path_last (quarter_inputs_in prev row) rates Hle)
    as (front & last & E & Hdate & Hbal).
  exists front, last. split; [exact E|]. split; [exact Hdate|].
  cbn [end_liq quarter_inputs_of] in Hbal. now rewrite Hsome in Hbal.
Qed.

(** Each turn of the loop is a call of the body on the carry of the
    turn before it. *)
Lemma quarter_loop_inv qdf : forall prev rs,
  quarter_loop_of prev qdf = Ok rs ->
  length rs = length qdf
  /\ forall i row r,
       nth_error qdf i = Some row ->
       nth_error rs i = Some r ->
       simulate_quarter_of
         (match i with
          | O => prev
          | S j => option_map end_liq_carry_mm (nth_error rs j)
          end) row = Ok r.
Proof.
  induction qdf as [|row0 qdf IH]; intros prev rs H.
  - injection H as <-. split; [reflexivity|].
    intros [|i] row r Hq; discriminate.
  - cbn [quarter_loop] in H.
    destruct (simulate_quarter_of prev row0) as [r0|] eqn:E0;
      [|discriminate].
    cbn [bind] in H.
    destruct (quarter_loop_of (Some (end_liq_carry_mm r0)) qdf)
      as [rs'|] eqn:E'; [|discriminate].
    cbn [bind] in H. injection H as <-.
    destruct (IH _ _ E') as [Hlen Hnth].
    split; [cbn [length]; now rewrite Hlen|].
    intros [|i] row r Hq Hr.
    + injection Hq as <-. injection Hr as <-. exact E0.
    + cbn [nth_error] in Hq, Hr. specialize (Hnth i row r Hq Hr).
      destruct i as [|j]; exact Hnth.
Qed.

Lemma quarter_loop_ok qdf : forall prev,
  is_unique (map e_date all_events) = true ->
  is_unique (map r_date rates) = true ->
  exists rs, quarter_loop_of prev qdf = Ok rs.
Proof.
  induction qdf as [|row0 qdf IH]; intros prev He Hr.
  - exists []. reflexivity.
  - cbn [quarter_loop].
    destruct (simulate_quarter_ok prev row0 He Hr) as [r0 ->].
    cbn [bind].
    destruct (IH (Some (end_liq_carry_mm r0)) He Hr) as [rs ->].
    cbn [bind]. eauto.
Qed.

(** The carry rules of the loop. *)
Lemma quarter_loop_carry qdf prev rs :
  quarter_loop_of prev qdf = Ok rs ->
  (forall i p r,
      nth_error rs i = Some p ->
      nth_error rs (S i) = Some r ->
      start_liq_mm r = end_liq_carry_mm p)
  /\ (forall p, In p rs ->
        match dict_get (strftime (r_q_end p)) q_liq with
        | Some anchor =>
            is_forecast p = false
            /\ end_liq_mm p = anchor
            /\ (end_liq_carry_mm p == end_liq_mm p)%Q
        | None =>
            is_forecast p = true
            /\ (end_liq_carry_mm p
                == end_liq_mm p + modeled_interest_mm p)%Q
        end).
Proof.
  intros H. destruct (quarter_loop_inv _ _ _ H) as [Hlen Hnth].
  split.
  - intros i p r Hp Hr.
    destruct (nth_error qdf (S i)) as [row|] eqn:Eq.
    + specialize (Hnth (S i) row r Eq Hr). cbn beta iota in Hnth.
      rewrite Hp in Hnth. cbn [option_map] in Hnth.
      now destruct (simulate_quarter_inv _ _ _ Hnth) as (_ & _ & _ & Hs & _).
    + apply nth_error_None in Eq.
      assert (nth_error rs (S i) <> None) as Hlt by congruence.
      apply nth_error_Some in Hlt. lia.
  - intros p Hp. apply In_nth_error in Hp as [i Hi].
    destruct (nth_error qdf i) as [row|] eqn:Eq.
    + specialize (Hnth i row p Eq Hi).
      destruct (simulate_quarter_inv _ _ _ Hnth)
        as (_ & _ & _ & _ & He & _ & _ & Hf & Hc & _ & Hq).
      rewrite Hq, Hc, Hf, He.
      cbn [end_liq quarter_inputs_of].
      destruct (dict_get (strftime (q_end row)) q_liq) as [anchor|];
        cbn [is_some negb].
      * split; [reflexivity|]. split; [reflexivity|]. ring.
      * split; reflexivity.
    + apply nth_error_None in Eq.
      assert (nth_error rs i <> None) as Hlt by congruence.
      apply nth_error_Some in Hlt. lia.
Qed.

End QuarterLoopFacts.

(** In exact arithmetic: in a turn of the quarter loop on a quarter
    without an anchor, the end liquidity is the start liquidity plus the
    sum of the amounts of the events of the quarter plus the sum of its
    purchase cash flows, and the drift of [build_daily_path], the same
    on every day of the path, is zero; the turn does produce a result
    when no two events and no two rate rows bear the same date.  The
    program computes on binary64 numbers, where the same subtractions
    leave a residue: see [forecast_drift_residue]. *)
Lemma forecast_drift_zero_exact
    (yahoo : Timestamp -> Timestamp -> option (list PriceRow))
    (q_liq : Dict) (all_events : list Event) (rates : list RateRow)
    (btc_units_total : Q) (btc_start btc_end : Timestamp)
    (units_per_day_global fallback_per_day_mm_global : Q)
    (prev_end_liq : option Q) (row : QuarterRow) :
  dict_get (strftime (q_end row)) q_liq = None ->
  q_start row <= q_end row ->
  (forall r,
      simulate_quarter yahoo q_liq all_events rates btc_units_total
        btc_start btc_end units_per_day_global fallback_per_day_mm_global
        prev_end_liq row = Ok r ->
      is_forecast r = true
      /\ end_liq_mm r = ((start_liq_mm r + ev_sum_mm r) + btc_sum_mm r)%Q
      /\ ev_sum_mm r
         = Qsum (map amount
                   (quarter_events all_events (q_start row) (q_end row)))
      /\ btc_sum_mm r
         = nansum (map cash_flow
                     (quarter_btc yahoo btc_units_total btc_start btc_end
                        units_per_day_global fallback_per_day_mm_global
                        (q_start row) (q_end row)))
      /\ (exists x, drift_per_day_mm r = Some x /\ (x == 0)%Q)
      /\ Forall (fun d => (drift d == 0)%Q) (daily r))
  /\ (is_unique (map e_date all_events) = true ->
      is_unique (map r_date rates) = true ->
      exists r,
        simulate_quarter yahoo q_liq all_events rates btc_units_total
          btc_start btc_end units_per_day_global fallback_per_day_mm_global
          prev_end_liq row = Ok r).
Proof.
  intros Hnone Hle. split.
  - intros r H.
    destruct (simulate_quarter_forecast _ _ _ _ _ _ _ _ _ _ _ _ Hnone H)
      as (Hf & He & Hev & Hbtc & Hall & Hlen).
    repeat split; auto.
    destruct (simulate_quarter_inv _ _ _ _ _ _ _ _ _ _ _ _ H)
      as (_ & _ & _ & _ & _ & _ & _ & _ & _ & Hd & _).
    rewrite Hd. destruct (daily r) as [|d0 ds].
    + pose proof (date_range_nonempty _ _ Hle) as Hne.
      destruct (date_range (q_start row) (q_end row)); [congruence|].
      discriminate Hlen.
    + exists (drift d0). split; [reflexivity|].
      now apply Forall_inv in Hall.
  - apply simulate_quarter_ok.
Qed.

Lemma forecast_drift_zero_exact_witness :
  exists r,
    simulate_quarter (fun _ _ => None) quarter_end_liquidity
      [ {| e_date := 20256; amount := 2230; label := "" |} ]
      (flat_5pct 20207 20307) 4710 20212 20249 (4710 / 38) (510 / 38)
      (Some (63858 # 10)%Q) forecast_row = Ok r
    /\ exists x, drift_per_day_mm r = Some x /\ (x == 0)%Q.
Proof.
  destruct (forecast_drift_zero_exact (fun _ _ => None) quarter_end_liquidity
              [ {| e_date := 20256; amount := 2230; label := "" |} ]
              (flat_5pct 20207 20307) 4710 20212 20249 (4710 / 38) (510 / 38)
              (Some (63858 # 10)%Q) forecast_row)
    as [Hprop Hret].
  - reflexivity.
  - simpl. lia.
  - destruct Hret as [r E]; try reflexivity.
    exists r. split; [exact E|]. now apply (Hprop r E).
Defined.

(* ------------------------------------------------------------------ *)
(** ** The whole run *)

(** The dated events parse, and they are sorted by date already. *)
Lemma dated_events_ok net_to_gross :
  exists evs,
    dated_events net_to_gross = Ok evs
    /\ map e_date evs = [19867; 19885; 19989; 20179; 20256; 20263].
Proof. eexists. split; reflexivity. Qed.

Lemma apply_rate_event_ok eff ev out :
  is_some (delta_bps ev) && is_some (to_pct ev) = false ->
  exists out',
    apply_rate_event eff ev out = Ok out' /\ index out' = index out.
Proof.
  intros Hb.
  destruct (apply_rate_event eff ev out) as [out'|e] eqn:E.
  - exists out'. split; [reflexivity|].
    exact (apply_rate_event_index _ _ _ _ E).
  - exfalso. unfold apply_rate_event in E. cbv zeta in E. rewrite Hb in E.
    destruct (negb _); [discriminate|].
    destruct (to_pct ev), (delta_bps ev); discriminate.
Qed.

Lemma apply_rate_events_ok evs : forall out,
  Forall (fun c => is_some (delta_bps (snd c)) && is_some (to_pct (snd c))
                   = false) evs ->
  exists out',
    apply_rate_events evs out = Ok out' /\ index out' = index out.
Proof.
  induction evs as [|[eff ev] evs IH]; intros out Hall.
  - exists out. split; reflexivity.
  - apply Forall_cons_iff in Hall as [Hev Hall]. cbn [snd] in Hev.
    cbn [apply_rate_events].
    destruct (apply_rate_event_ok eff ev out Hev) as (out1 & -> & Hi1).
    cbn [bind].
    destruct (IH out1 Hall) as (out2 & -> & Hi2).
    exists out2. split; [reflexivity|congruence].
Qed.

(** The scheduled events of the program give a relative change only, so
    applying them raises nothing and keeps the dates of the series. *)
Lemma apply_scheduled_rate_events_ok rates :
  exists out,
    apply_future_rate_events rates FUTURE_RATE_EVENTS = Ok out
    /\ map r_date out = map r_date rates.
Proof.
  unfold apply_future_rate_events, FUTURE_RATE_EVENTS.
  cbn [mapM ev_date].
  change (to_dt "2025-09-17") with (Ok 20348).
  change (to_dt "2025-10-29") with (Ok 20390).
  cbn [bind sorted_by fold_right insert_sorted fst].
  change (20348 <=? 20390) with true. cbv iota.
  match goal with
  | |- context [apply_rate_events ?evs ?out] =>
      destruct (apply_rate_events_ok evs out) as (out' & -> & Hi)
  end.
  - repeat constructor.
  - cbn [bind]. eexists. split; [reflexivity|].
    rewrite map_map.
    transitivity (index out').
    + unfold index. apply map_ext. intros [d v]. reflexivity.
    + rewrite Hi, fillna_index. unfold index. rewrite map_map. reflexivity.
Qed.

(** C3: in a run of [simulate_all], every quarter after the first
    starts from the carry of the quarter before it; the carry of a
    reported quarter (one with an anchor, which is its end liquidity) is
    its end liquidity, and the carry of a forecast quarter is its end
    liquidity plus its modeled interest.  The run does return, with one
    result per quarter of the frame, when the FRED response has no two
    rows of the same date and the purchase window is given by two
    dates. *)
Theorem carry_continuity (w : World) (net_to_gross btc_units : Q)
    (btc_window : string * string) (forecast_quarters : Z) :
  (forall rs,
      simulate_all w net_to_gross btc_units btc_window forecast_quarters
      = Ok rs ->
      (forall i prev r,
          nth_error rs i = Some prev ->
          nth_error rs (S i) = Some r ->
          start_liq_mm r = end_liq_carry_mm prev)
      /\ (forall p, In p rs ->
            match dict_get (strftime (r_q_end p)) quarter_end_liquidity with
            | Some anchor =>
                is_forecast p = false
                /\ end_liq_mm p = anchor
                /\ (end_liq_carry_mm p == end_liq_mm p)%Q
            | None =>
                is_forecast p = true
                /\ (end_liq_carry_mm p
                    == end_liq_mm p + modeled_interest_mm p)%Q
            end))
  /\ ((forall s e, is_unique (index (or_empty_frame (fred w s e))) = true) ->
      (exists a b, to_dt (fst btc_window) = Ok a
                   /\ to_dt (snd btc_window) = Ok b) ->
      exists rs,
        simulate_all w net_to_gross btc_units btc_window forecast_quarters
        = Ok rs
        /\ length rs
           = (length quarter_end_liquidity
              + Z.to_nat (Z.max forecast_quarters 0))%nat).
Proof.
  split.
  - intros rs H. unfold simulate_all in H.
    destruct (build_quarter_frame_with_forecast forecast_quarters 91)
      as [qdf|]; [|discriminate].
    cbn [bind] in H.
    destruct (dated_events net_to_gross) as [evs|]; [|discriminate].
    cbn [bind] in H.
    destruct (fetch_rates _ _ _) as [rates0|]; [|discriminate].
    cbn [bind] in H.
    destruct (apply_future_rate_events _ _) as [rates|]; [|discriminate].
    cbn [bind] in H.
    destruct (to_dt (fst btc_window)) as [a|]; [|discriminate].
    cbn [bind] in H.
    destruct (to_dt (snd btc_window)) as [b|]; [|discriminate].
    cbn [bind] in H. cbv zeta in H.
    exact (quarter_loop_carry _ _ _ _ _ _ _ _ _ _ _ _ H).
  - intros Hfred (a & b & Ha & Hb). unfold simulate_all.
    destruct (quarter_frame_shape forecast_quarters 91)
      as (qdf & -> & Hlen).
    cbn [bind].
    destruct (dated_events_ok net_to_gross) as (evs & -> & Hev).
    cbn [bind].
    destruct (fetch_rates (fred w) (column_min (map q_start qdf) - 5)
                (column_max (map q_end qdf) + 5)) as [rates0|] eqn:Er;
      [|rewrite (fetch_rates_eq _ _ _ (Hfred _ _)) in Er; discriminate].
    cbn [bind].
    destruct (apply_scheduled_rate_events_ok rates0) as (rates & -> & Hr).
    cbn [bind]. rewrite Ha, Hb. cbn [bind]. cbv zeta.
    match goal with
    | |- context [quarter_loop ?y ?q ?e ?r ?u ?s1 ?s2 ?g1 ?g2 None qdf] =>
        destruct (quarter_loop_ok y q e r u s1 s2 g1 g2 qdf None)
          as [rs Hrs]
    end.
    + rewrite Hev. reflexivity.
    + rewrite Hr, (fetch_rates_dates _ _ _ _ Er).
      apply is_unique_NoDup, date_range_NoDup.
    + exists rs. split; [exact Hrs|].
      destruct (quarter_loop_inv _ _ _ _ _ _ _ _ _ _ _ _ Hrs) as [-> _].
      exact Hlen.
Qed.

Lemma carry_continuity_witness :
  exists rs,
    simulate_all offline ATM_NET_TO_GROSS 4710
      ("2025-05-04", "2025-06-10")%string 3 = Ok rs
    /\ length rs = 16%nat
    /\ forall i prev r,
         nth_error rs i = Some prev ->
         nth_error rs (S i) = Some r ->
         start_liq_mm r = end_liq_carry_mm prev.
Proof.
  destruct (carry_continuity offline ATM_NET_TO_GROSS 4710
              ("2025-05-04", "2025-06-10")%string 3) as [Hinv Hret].
  destruct Hret as (rs & E & Hlen).
  - intros s e. reflexivity.
  - exists 20212, 20249. split; reflexivity.
  - exists rs. split; [exact E|]. split; [exact Hlen|].
    exact (proj1 (Hinv rs E)).
Defined.

(* ------------------------------------------------------------------ *)
(** ** A forecast quarter with one event *)

(** Start liquidity 500, +50 on day 5 of 10, no purchase, no anchor:
    the drift is 0, the end liquidity is 550, and the balance steps from
    500 to 550 on day 5. *)
Example forecast_quarter_with_one_event :
  exists r,
    simulate_quarter (fun _ _ => None) [] event_on_day_5 scenario_rates
      4710 20212 20249 (4710 / 38) (510 / 38) (Some 500%Q) ten_day_row
    = Ok r
    /\ is_forecast r = true
    /\ (end_liq_mm r == 550)%Q
    /\ Forall (fun d => (drift d == 0)%Q) (daily r)
    /\ Forall2 (fun d bal => (ending_balance_mm d == bal)%Q) (daily r)
         [500; 500; 500; 500; 550; 550; 550; 550; 550; 550]%Q.
Proof.
  destruct (simulate_quarter (fun _ _ => None) [] event_on_day_5
              scenario_rates 4710 20212 20249 (4710 / 38) (510 / 38)
              (Some 500%Q) ten_day_row) as [r|] eqn:E; [|discriminate E].
  exists r. split; [reflexivity|].
  vm_compute in E. injection E as <-.
  split; [reflexivity|].
  split; [qeq_by_computation|].
  split; repeat constructor; qeq_by_computation.
Qed.

(* ------------------------------------------------------------------ *)
(** ** More on the daily path *)

Lemma path_rows_cons ev bt rate start dr d dates :
  path_rows ev bt rate start dr (d :: dates)
  = {| d_date := d;
       d_events := ev d;
       d_btc := bt d;
       drift := dr;
       ending_balance_mm := (start + ((ev d + bt d) + dr))%Q;
       d_daily_rate := rate d;
       interest_mm :=
         option_map (fun y => ((start + ((ev d + bt d) + dr)) * y)%Q)
                    (rate d) |}
    :: path_rows ev bt rate (start + ((ev d + bt d) + dr))%Q dr dates.
Proof. reflexivity. Qed.

Lemma path_rows_dates ev bt rate dr dates : forall start,
  map d_date (path_rows ev bt rate start dr dates) = dates.
Proof.
  induction dates as [|d dates IH]; intros start; [reflexivity|].
  rewrite path_rows_cons. cbn [map d_date]. now rewrite IH.
Qed.



Lemma path_rows_drifts ev bt rate dr dates : forall start,
  map drift (path_rows ev bt rate start dr dates) = map (fun _ => dr) dates.
Proof.
  induction dates as [|d dates IH]; intros start; [reflexivity|].
  rewrite path_rows_cons. cbn [map drift]. now rewrite IH.
Qed.

Lemma path_rows_rates ev bt rate dr dates : forall start,
  map d_daily_rate (path_rows ev bt rate start dr dates) = map rate dates.
Proof.
  induction dates as [|d dates IH]; intros start; [reflexivity|].
  rewrite path_rows_cons. cbn [map d_daily_rate]. now rewrite IH.
Qed.

(** X1: the path that [build_daily_path] returns has one row for each
    calendar day from the quarter start to the quarter end, in order:
    (q_end - q_start) + 1 rows, and none when the end is before the
    start. *)
Theorem daily_path_one_row_per_day (inputs : QuarterInputs)
    (rates : list RateRow) (df : list DailyRow) (interest : Q) :
  build_daily_path inputs rates = Ok (df, interest) ->
  map d_date df = date_range (qi_start inputs) (qi_end inputs)
  /\ Z.of_nat (length df) = Z.max 0 (qi_end inputs - qi_start inputs + 1).
Proof.
  intros H. apply build_daily_path_inv in H as [-> _].
  unfold daily_path_of. split.
  - apply path_rows_dates.
  - rewrite path_rows_length. apply date_range_length.
Qed.

Lemma daily_path_one_row_per_day_witness :
  exists df interest,
    build_daily_path two_event_quarter (flat_5pct 20116 20130)
    = Ok (df, interest)
    /\ map d_date df = [20121; 20122; 20123; 20124; 20125].
Proof.
  destruct (build_daily_path two_event_quarter (flat_5pct 20116 20130))
    as [[df interest]|] eqn:E; [|discriminate E].
  exists df, interest. split; [reflexivity|].
  exact (proj1 (daily_path_one_row_per_day _ _ _ _ E)).
Defined.

Lemma path_rows_step ev bt rate dr dates : forall start i a b,
  nth_error (path_rows ev bt rate start dr dates) i = Some a ->
  nth_error (path_rows ev bt rate start dr dates) (S i) = Some b ->
  ending_balance_mm b
  = (ending_balance_mm a + ((d_events b + d_btc b) + drift b))%Q.
Proof.
  induction dates as [|d dates IH]; intros start i a b Ha Hb.
  - destruct i; discriminate.
  - rewrite path_rows_cons in Ha, Hb. destruct i as [|i].
    + cbn [nth_error] in Ha, Hb. injection Ha as <-.
      destruct dates as [|d2 dates]; [discriminate|].
      rewrite path_rows_cons in Hb. cbn [nth_error] in Hb.
      injection Hb as <-. reflexivity.
    + cbn [nth_error] in Ha, Hb. eapply IH; eauto.
Qed.

(** X2: the balances of the path are a running sum: the first ending
    balance is the start liquidity plus the flows and the drift of the
    first day, and every later ending balance is the one of the day
    before plus the flows and the drift of its own day. *)
Theorem daily_path_running_balance (inputs : QuarterInputs)
    (rates : list RateRow) (df : list DailyRow) (interest : Q) :
  build_daily_path inputs rates = Ok (df, interest) ->
  (forall a, nth_error df 0 = Some a ->
     ending_balance_mm a
     = (start_liq inputs + ((d_events a + d_btc a) + drift a))%Q)
  /\ (forall i a b,
        nth_error df i = Some a ->
        nth_error df (S i) = Some b ->
        ending_balance_mm b
        = (ending_balance_mm a + ((d_events b + d_btc b) + drift b))%Q).
Proof.
  intros H. apply build_daily_path_inv in H as [-> _].
  unfold daily_path_of. split.
  - intros a Ha.
    destruct (date_range (qi_start inputs) (qi_end inputs)) as [|d dates];
      [discriminate|].
    rewrite path_rows_cons in Ha. injection Ha as <-. reflexivity.
  - intros i a b. apply path_rows_step.
Qed.

Lemma daily_path_running_balance_witness :
  exists df interest a,
    build_daily_path two_event_quarter (flat_5pct 20116 20130)
    = Ok (df, interest)
    /\ nth_error df 0 = Some a
    /\ ending_balance_mm a
       = (start_liq two_event_quarter
          + ((d_events a + d_btc a) + drift a))%Q.
Proof.
  destruct (build_daily_path two_event_quarter (flat_5pct 20116 20130))
    as [[df interest]|] eqn:E; [|discriminate E].
  destruct (nth_error df 0) as [a|] eqn:Ea;
    [|vm_compute in E; injection E as <- _; discriminate Ea].
  exists df, interest, a. split; [reflexivity|]. split; [exact Ea|].
  exact (proj1 (daily_path_running_balance _ _ _ _ E) a Ea).
Defined.

Lemma lookup_In {V : Type} (s : Series V) d v :
  lookup d s = Some v -> In (d, v) s.
Proof.
  induction s as [|[k w] s IH]; [discriminate|].
  cbn [lookup]. destruct (Z.eqb_spec d k) as [->|_].
  - intros H. injection H as <-. now left.
  - intros H. right. auto.
Qed.

Lemma Qsum_nonneg l : Forall (fun x => (0 <= x)%Q) l -> (0 <= Qsum l)%Q.
Proof.
  induction 1 as [|x l Hx _ IH]; unfold Qsum in *; cbn [fold_right].
  - apply Qle_refl.
  - replace 0%Q with (0 + 0)%Q by reflexivity. now apply Qplus_le_compat.
Qed.

(** X3: the interest that [build_daily_path] returns is the sum, over
    the rows that have a daily rate, of ending balance times daily rate;
    it is not negative when no ending balance and no daily rate is. *)
Theorem daily_path_interest_nonneg (inputs : QuarterInputs)
    (rates : list RateRow) (df : list DailyRow) (interest : Q) :
  build_daily_path inputs rates = Ok (df, interest) ->
  (forall r, In r df -> (0 <= ending_balance_mm r)%Q) ->
  (forall r x, In r rates -> daily_rate r = Some x -> (0 <= x)%Q) ->
  interest = nansum (map interest_mm df)
  /\ Forall (fun r => interest_mm r
                      = option_map (fun x => (ending_balance_mm r * x)%Q)
                                   (d_daily_rate r)) df
  /\ (0 <= interest)%Q.
Proof.
  intros H Hbal Hrate.
  destruct (build_daily_path_inv _ _ _ _ H) as [Hdf ->].
  split; [reflexivity|].
  assert (Hcell : Forall (fun r =>
            interest_mm r
            = option_map (fun x => (ending_balance_mm r * x)%Q)
                         (d_daily_rate r)
            /\ (forall x, d_daily_rate r = Some x -> (0 <= x)%Q)) df).
  { rewrite Hdf. unfold daily_path_of, path_rows.
    apply Forall_forall. intros r Hin.
    apply in_map_iff in Hin as ([[[[[d e] b] x] bal] [d' rt]] & <- & Hin).
    cbn. split; [reflexivity|].
    intros y ->. apply in_combine_r in Hin.
    apply in_map_iff in Hin as (d0 & E & _). injection E as _ E.
    unfold rate_at in E.
    destruct (lookup d0 _) as [v|] eqn:El; [|discriminate]. subst v.
    apply lookup_In in El. apply in_map_iff in El as (r0 & E0 & Hr0).
    injection E0 as _ E0. eauto. }
  split.
  - eapply Forall_impl; [|exact Hcell]. intros r [Hr _]. exact Hr.
  - unfold nansum. apply Qsum_nonneg.
    rewrite Forall_forall in Hcell. apply Forall_forall. intros y Hy.
    apply in_map_iff in Hy as (c & <- & Hc).
    apply in_map_iff in Hc as (r & <- & Hr).
    destruct (Hcell r Hr) as [-> Hx].
    destruct (d_daily_rate r) as [x|]; cbn; [|apply Qle_refl].
    apply Qmult_le_0_compat; auto.
Qed.

Lemma daily_path_interest_nonneg_witness :
  exists df interest,
    build_daily_path scenario_inputs scenario_rates = Ok (df, interest)
    /\ (0 <= interest)%Q.
Proof.
  destruct (build_daily_path scenario_inputs scenario_rates)
    as [[df interest]|] eqn:E; [|discriminate E].
  exists df, interest. split; [reflexivity|].
  apply (daily_path_interest_nonneg _ _ _ _ E).
  - intros r Hr. vm_compute in E. injection E as <- _.
    repeat (destruct Hr as [<-|Hr]; [discriminate|]). contradiction.
  - intros r x Hr Hx.
    repeat (destruct Hr as [<-|Hr];
            [injection Hx as <-; discriminate|]). contradiction.
Defined.

(** X4: a quarter none of whose days has a row in the rates frame gets
    NaN as the daily rate and as the interest of every day, and the
    interest of the quarter, which skips NaN, is zero. *)
Theorem daily_path_without_rates (inputs : QuarterInputs)
    (rates : list RateRow) (df : list DailyRow) (interest : Q) :
  build_daily_path inputs rates = Ok (df, interest) ->
  (forall r, In r rates ->
     r_date r < qi_start inputs \/ qi_end inputs < r_date r) ->
  Forall (fun r => d_daily_rate r = None /\ interest_mm r = None) df
  /\ (interest == 0)%Q.
Proof.
  intros H Hout.
  destruct (build_daily_path_inv _ _ _ _ H) as [Hdf ->].
  assert (Hcell : Forall (fun r => d_daily_rate r = None
                                   /\ interest_mm r = None) df).
  { rewrite Hdf. unfold daily_path_of, path_rows.
    apply Forall_forall. intros r Hin.
    apply in_map_iff in Hin as ([[[[[d e] b] x] bal] [d' rt]] & <- & Hin).
    apply in_combine_r in Hin.
    apply in_map_iff in Hin as (d0 & E & Hd0). injection E as _ E.
    apply date_range_In in Hd0.
    assert (rt = None) as ->.
    { rewrite <- E. unfold rate_at.
      rewrite lookup_not_in; [reflexivity|].
      unfold index. rewrite map_map. cbn [fst]. intros Hin.
      apply in_map_iff in Hin as (r0 & <- & Hr0).
      destruct (Hout r0 Hr0); lia. }
    split; reflexivity. }
  split; [exact Hcell|].
  unfold nansum. rewrite map_map.
  rewrite (map_ext_in _ (fun _ => 0%Q)).
  - rewrite Qsum_const. ring.
  - intros r Hr. rewrite Forall_forall in Hcell.
    destruct (Hcell r Hr) as [_ ->]. reflexivity.
Qed.

Lemma daily_path_without_rates_witness :
  exists df interest,
    build_daily_path two_event_quarter three_days_at_5pct = Ok (df, interest)
    /\ (interest == 0)%Q.
Proof.
  destruct (build_daily_path two_event_quarter three_days_at_5pct)
    as [[df interest]|] eqn:E; [|discriminate E].
  exists df, interest. split; [reflexivity|].
  apply (daily_path_without_rates _ _ _ _ E).
  intros r Hr. left.
  repeat (destruct Hr as [<-|Hr]; [simpl; lia|]). contradiction.
Defined.



Lemma lookup_filter_events (p : Event -> bool) evs d :
  (forall ev, In ev evs -> e_date ev = d -> p ev = true) ->
  lookup d (map (fun ev => (e_date ev, amount ev)) (filter p evs))
  = lookup d (map (fun ev => (e_date ev, amount ev)) evs).
Proof.
  induction evs as [|ev evs IH]; intros Hp; [reflexivity|].
  cbn [filter map lookup].
  destruct (Z.eqb_spec d (e_date ev)) as [Heq|Hne].
  - rewrite (Hp ev (or_introl eq_refl) (eq_sym Heq)).
    cbn [map lookup]. rewrite Heq, Z.eqb_refl. reflexivity.
  - destruct (p ev); cbn [map lookup].
    + destruct (Z.eqb_spec d (e_date ev)); [contradiction|].
      apply IH. intros ev' Hin. apply Hp. now right.
    + apply IH. intros ev' Hin. apply Hp. now right.
Qed.

(** X6: events dated outside the quarter have no effect: when
    [build_daily_path] returns a path, it returns the same path and the
    same interest on the inputs with those events taken out. *)
Theorem daily_path_ignores_outside_events (inputs : QuarterInputs)
    (rates : list RateRow) (df : list DailyRow) (interest : Q) :
  build_daily_path inputs rates = Ok (df, interest) ->
  build_daily_path
    (with_events inputs
       (filter (fun ev => (qi_start inputs <=? e_date ev)
                          && (e_date ev <=? qi_end inputs))
               (events inputs)))
    rates
  = Ok (df, interest).
Proof.
  intros H.
  set (inside := fun ev => (qi_start inputs <=? e_date ev)
                           && (e_date ev <=? qi_end inputs)).
  assert (Hat : forall d,
            In d (date_range (qi_start inputs) (qi_end inputs)) ->
            events_at (filter inside (events inputs)) d
            = events_at (events inputs) d).
  { intros d Hd. apply date_range_In in Hd. unfold events_at.
    rewrite lookup_filter_events; [reflexivity|].
    intros ev _ Hev. unfold inside. rewrite Hev.
    apply andb_true_iff. split; apply Z.leb_le; lia. }
  assert (Hpath : daily_path_of (with_events inputs
                                   (filter inside (events inputs))) rates
                  = daily_path_of inputs rates).
  { unfold daily_path_of, drift_of, with_events.
    cbn [qi_start qi_end start_liq end_liq events btc_out].
    rewrite (map_ext_in
               (fun d => (events_at (filter inside (events inputs)) d
                          + btc_at (btc_out inputs) d)%Q)
               (fun d => (events_at (events inputs) d
                          + btc_at (btc_out inputs) d)%Q))
      by (intros d Hd; now rewrite Hat).
    unfold path_rows, flow_rows.
    rewrite (map_ext_in
               (fun d => (d, events_at (filter inside (events inputs)) d,
                          btc_at (btc_out inputs) d, _))
               (fun d => (d, events_at (events inputs) d,
                          btc_at (btc_out inputs) d, _)))
      by (intros d Hd; now rewrite Hat).
    reflexivity. }
  pose proof H as H'. apply build_daily_path_inv in H' as [Hdf Hi].
  unfold build_daily_path in H.
  destruct (events_column _ _) as [e|] eqn:Ee; [|discriminate].
  destruct (btc_column _ _) as [b|] eqn:Eb; [|discriminate].
  cbn [bind] in H.
  destruct (reindex _ _ _) as [r|] eqn:Er; [|discriminate].
  apply events_column_inv in Ee as [Hue _].
  apply btc_column_inv in Eb as [Hub _].
  apply reindex_inv in Er as [Hur _].
  unfold index in Hur. rewrite map_map in Hur. cbn [fst] in Hur.
  rewrite build_daily_path_ok.
  - rewrite Hpath, <- Hdf, <- Hi. reflexivity.
  - cbn [events with_events]. apply is_unique_NoDup, NoDup_map_filter.
    now apply is_unique_NoDup.
  - exact Hub.
  - exact Hur.
Qed.

Lemma daily_path_ignores_outside_events_witness :
  exists df interest,
    build_daily_path two_event_quarter_and_one_before
      (flat_5pct 20116 20130) = Ok (df, interest)
    /\ build_daily_path two_event_quarter (flat_5pct 20116 20130)
       = Ok (df, interest).
Proof.
  destruct (build_daily_path two_event_quarter_and_one_before
              (flat_5pct 20116 20130)) as [[df interest]|] eqn:E;
    [|discriminate E].
  exists df, interest. split; [reflexivity|].
  exact (daily_path_ignores_outside_events _ _ _ _ E).
Defined.

Lemma reindex_duplicates {V : Type} (s : Series V) target fill :
  is_unique (index s) = false ->
  reindex s target fill = Raise ValueError.
Proof. unfold reindex. now intros ->. Qed.

(** X7: [build_daily_path] returns a path exactly when no two events,
    no two purchase rows and no two rate rows bear the same date;
    otherwise it raises [ValueError], from the reindexing. *)
Theorem daily_path_returns_iff_unique_dates (inputs : QuarterInputs)
    (rates : list RateRow) :
  build_daily_path inputs rates
  = if is_unique (map e_date (events inputs))
       && is_unique (map b_date (btc_out inputs))
       && is_unique (map r_date rates)
    then Ok (daily_path_of inputs rates,
             nansum (map interest_mm (daily_path_of inputs rates)))
    else Raise ValueError.
Proof.
  destruct (is_unique (map e_date (events inputs))) eqn:He.
  - destruct (is_unique (map b_date (btc_out inputs))) eqn:Hb.
    + destruct (is_unique (map r_date rates)) eqn:Hr.
      * now apply build_daily_path_ok.
      * cbn [andb]. unfold build_daily_path.
        rewrite (events_column_ok _ _ He), (btc_column_ok _ _ Hb).
        cbn [bind]. rewrite reindex_duplicates; [reflexivity|].
        unfold index. rewrite map_map. exact Hr.
    + cbn [andb]. unfold build_daily_path.
      rewrite (events_column_ok _ _ He). cbn [bind].
      unfold btc_column. destruct (btc_out inputs) as [|r0 btc];
        [discriminate Hb|].
      rewrite reindex_duplicates; [reflexivity|].
      unfold index. rewrite map_map. exact Hb.
  - cbn [andb]. unfold build_daily_path, events_column.
    rewrite reindex_duplicates; [reflexivity|].
    unfold index. rewrite map_map. exact He.
Qed.

(* ------------------------------------------------------------------ *)
(** ** How the rate adapter fills the calendar *)

Lemma days_from_app a : forall s b,
  days_from s (a + b) = days_from s a ++ days_from (s + Z.of_nat a) b.
Proof.
  induction a as [|a IH]; intros s b.
  - simpl. now rewrite Z.add_0_r.
  - cbn [Nat.add days_from app]. rewrite IH.
    replace (s + 1 + Z.of_nat a) with (s + Z.of_nat (S a)) by lia.
    reflexivity.
Qed.

Lemma date_range_split s m e :
  s <= m <= e ->
  date_range s e = date_range s (m - 1) ++ m :: date_range (m + 1) e.
Proof.
  intros H. unfold date_range.
  replace (Z.to_nat (e - s + 1))
    with (Z.to_nat (m - 1 - s + 1) + S (Z.to_nat (e - (m + 1) + 1)))%nat
    by lia.
  rewrite days_from_app.
  replace (s + Z.of_nat (Z.to_nat (m - 1 - s + 1))) with m by lia.
  reflexivity.
Qed.

Lemma ffill_from_app a : forall last b,
  ffill_from last (a ++ b)
  = ffill_from last a ++ ffill_from (last_valid last a) b.
Proof.
  induction a as [|[d v] a IH]; intros last b; [reflexivity|].
  cbn [app ffill_from]. rewrite IH. f_equal.
Qed.

Lemma last_valid_all_nan s : forall last,
  (forall c, In c s -> snd c = None) -> last_valid last s = last.
Proof.
  induction s as [|c s IH]; intros last H; [reflexivity|].
  unfold last_valid. cbn [fold_left].
  rewrite (H c (or_introl eq_refl)). apply IH.
  intros c' Hc. apply H. now right.
Qed.

Lemma last_valid_app a b last :
  last_valid last (a ++ b) = last_valid (last_valid last a) b.
Proof. unfold last_valid. apply fold_left_app. Qed.

(** Forward fill carries a number over the NaN cells that follow it. *)
Lemma ffill_carries last pre d0 v mid d post :
  (forall c, In c mid -> snd c = None) ->
  In (d, Some v)
     (ffill_from last (pre ++ (d0, Some v) :: mid ++ (d, None) :: post)).
Proof.
  intros Hmid.
  replace (pre ++ (d0, Some v) :: mid ++ (d, None) :: post)
    with ((pre ++ [(d0, Some v)] ++ mid) ++ (d, None) :: post)
    by (rewrite <- !app_assoc; reflexivity).
  rewrite ffill_from_app. apply in_or_app. right.
  rewrite !last_valid_app. rewrite (last_valid_all_nan mid) by exact Hmid.
  cbn. now left.
Qed.

Lemma ffill_from_keeps s : forall last d v,
  In (d, Some v) s -> In (d, Some v) (ffill_from last s).
Proof.
  induction s as [|[k w] s IH]; intros last d v Hin; [contradiction|].
  cbn [ffill_from]. destruct Hin as [E|Hin].
  - injection E as -> ->. now left.
  - right. now apply IH.
Qed.

Lemma bfill_keeps s d v : In (d, Some v) s -> In (d, Some v) (bfill s).
Proof.
  intros Hin. unfold bfill. apply -> in_rev.
  apply ffill_from_keeps. now apply -> in_rev.
Qed.

Lemma fillna_keeps x s d v :
  In (d, Some v) s -> In (d, Some v) (fillna x s).
Proof.
  intros Hin. unfold fillna. apply in_map_iff.
  exists (d, Some v). split; [reflexivity|exact Hin].
Qed.

Lemma ffill_from_nan_prefix s : forall rest,
  (forall c, In c s -> snd c = None) ->
  ffill_from None (s ++ rest) = s ++ ffill_from None rest.
Proof.
  induction s as [|[d v] s IH]; intros rest H; [reflexivity|].
  pose proof (H (d, v) (or_introl eq_refl)) as Hv. cbn in Hv. subst v.
  cbn [app ffill_from]. rewrite IH; [reflexivity|].
  intros c Hc. apply H. now right.
Qed.

(** The rates frame once the FRED response is known to have distinct
    dates: the filled column over the calendar. *)
Lemma fetch_rates_rows fred start end_ :
  is_unique (index (or_empty_frame (fred start end_))) = true ->
  fetch_rates fred start end_
  = Ok (map rate_row_of
          (fillna DEFAULT_OFFLINE_RATE_PCT
             (bfill (ffill
                (map (fun d => (d, cell_at (or_empty_frame
                                              (fred start end_)) d))
                     (date_range start end_)))))).
Proof. exact (fetch_rates_eq fred start end_). Qed.

(** X8: a day of the range for which the FRED response gives a number
    keeps that number as its rate. *)
Theorem fetch_rates_keeps_known_rate
    (fred : Timestamp -> Timestamp -> option (Series (option Q)))
    (start end_ d : Timestamp) (v : Q) :
  is_unique (index (or_empty_frame (fred start end_))) = true ->
  start <= d <= end_ ->
  cell_at (or_empty_frame (fred start end_)) d = Some v ->
  exists rates,
    fetch_rates fred start end_ = Ok rates
    /\ In (rate_row_of (d, Some v)) rates.
Proof.
  intros Hu Hd Hv. rewrite (fetch_rates_rows _ _ _ Hu).
  eexists. split; [reflexivity|].
  apply in_map, fillna_keeps, bfill_keeps, ffill_from_keeps.
  apply in_map_iff. exists d. split; [now rewrite Hv|].
  now apply date_range_In.
Qed.

Lemma fetch_rates_keeps_known_rate_witness :
  exists rates,
    fetch_rates (fun _ _ => Some sparse_response) 1 8 = Ok rates
    /\ In (rate_row_of (6, Some 2%Q)) rates.
Proof.
  apply (fetch_rates_keeps_known_rate
           (fun _ _ => Some sparse_response) 1 8 6 2).
  - reflexivity.
  - lia.
  - reflexivity.
Defined.

(** X9: forward fill.  A day for which the response gives no number
    takes the number of the closest earlier day of the range that has
    one. *)
Theorem fetch_rates_forward_fill
    (fred : Timestamp -> Timestamp -> option (Series (option Q)))
    (start end_ d0 d : Timestamp) (v : Q) :
  is_unique (index (or_empty_frame (fred start end_))) = true ->
  start <= d0 -> d0 < d -> d <= end_ ->
  cell_at (or_empty_frame (fred start end_)) d0 = Some v ->
  (forall d', d0 < d' <= d ->
              cell_at (or_empty_frame (fred start end_)) d' = None) ->
  exists rates,
    fetch_rates fred start end_ = Ok rates
    /\ In (rate_row_of (d, Some v)) rates.
Proof.
  intros Hu H0 H1 H2 Hv Hnan. rewrite (fetch_rates_rows _ _ _ Hu).
  eexists. split; [reflexivity|].
  apply in_map, fillna_keeps, bfill_keeps. unfold ffill.
  set (cell := cell_at (or_empty_frame (fred start end_))) in *.
  rewrite (date_range_split start d0 end_) by lia.
  rewrite (date_range_split (d0 + 1) d end_) by lia.
  rewrite !map_app. cbn [map]. rewrite !map_app. cbn [map].
  rewrite Hv, (Hnan d) by lia.
  apply ffill_carries.
  intros c Hc. apply in_map_iff in Hc as (d' & <- & Hd').
  apply date_range_In in Hd'. cbn [snd]. apply Hnan. lia.
Qed.

Lemma fetch_rates_forward_fill_witness :
  exists rates,
    fetch_rates (fun _ _ => Some sparse_response) 1 8 = Ok rates
    /\ In (rate_row_of (5, Some 4%Q)) rates.
Proof.
  apply (fetch_rates_forward_fill
           (fun _ _ => Some sparse_response) 1 8 3 5 4).
  - reflexivity.
  - lia.
  - lia.
  - lia.
  - reflexivity.
  - intros d' Hd'. assert (d' = 4 \/ d' = 5) as [-> | ->] by lia;
      reflexivity.
Defined.

(** X10: backward fill.  The days of the range before the first day
    that has a number take the number of that day. *)
Theorem fetch_rates_back_fill
    (fred : Timestamp -> Timestamp -> option (Series (option Q)))
    (start end_ d0 d : Timestamp) (v : Q) :
  is_unique (index (or_empty_frame (fred start end_))) = true ->
  start <= d -> d < d0 -> d0 <= end_ ->
  cell_at (or_empty_frame (fred start end_)) d0 = Some v ->
  (forall d', start <= d' < d0 ->
              cell_at (or_empty_frame (fred start end_)) d' = None) ->
  exists rates,
    fetch_rates fred start end_ = Ok rates
    /\ In (rate_row_of (d, Some v)) rates.
Proof.
  intros Hu H0 H1 H2 Hv Hnan. rewrite (fetch_rates_rows _ _ _ Hu).
  eexists. split; [reflexivity|].
  apply in_map, fillna_keeps. unfold ffill.
  set (cell := cell_at (or_empty_frame (fred start end_))) in *.
  rewrite (date_range_split start d0 end_) by lia.
  rewrite map_app. cbn [map]. rewrite Hv.
  set (before := map (fun d => (d, cell d)) (date_range start (d0 - 1))).
  assert (Hbefore : forall c, In c before -> snd c = None).
  { intros c Hc. apply in_map_iff in Hc as (d' & <- & Hd').
    apply date_range_In in Hd'. cbn [snd]. apply Hnan. lia. }
  rewrite ffill_from_nan_prefix by exact Hbefore.
  cbn [ffill_from].
  set (after := ffill_from (Some v) _).
  unfold bfill. apply -> in_rev.
  rewrite rev_app_distr. cbn [rev]. rewrite <- app_assoc. cbn [app].
  assert (Hin : In (d, None) (rev before)).
  { apply -> in_rev. apply in_map_iff. exists d.
    split; [now rewrite Hnan by lia|]. apply date_range_In. lia. }
  apply in_split in Hin as (l1 & l2 & E). rewrite E.
  apply ffill_carries.
  intros c Hc. apply Hbefore. apply in_rev. rewrite E.
  apply in_or_app. now left.
Qed.

Lemma fetch_rates_back_fill_witness :
  exists rates,
    fetch_rates (fun _ _ => Some sparse_response) 1 8 = Ok rates
    /\ In (rate_row_of (1, Some 4%Q)) rates.
Proof.
  apply (fetch_rates_back_fill
           (fun _ _ => Some sparse_response) 1 8 3 1 4).
  - reflexivity.
  - lia.
  - lia.
  - lia.
  - reflexivity.
  - intros d' Hd'. assert (d' = 1 \/ d' = 2) as [-> | ->] by lia;
      reflexivity.
Defined.

(* ------------------------------------------------------------------ *)
(** ** Sorting *)

Section SortingFacts.

Context {A : Type} (key : A -> Z).

Lemma insert_sorted_perm a l :
  Permutation (insert_sorted key a l) (a :: l).
Proof.
  induction l as [|b l IH]; cbn [insert_sorted]; [reflexivity|].
  destruct (key a <=? key b); [reflexivity|].
  rewrite IH. apply perm_swap.
Qed.

Lemma sorted_by_perm l : Permutation (sorted_by key l) l.
Proof.
  induction l as [|a l IH]; cbn [sorted_by fold_right]; [reflexivity|].
  fold (sorted_by key l). rewrite insert_sorted_perm. now constructor.
Qed.

Lemma insert_sorted_sorted a l :
  StronglySorted (fun x y => key x <= key y) l ->
  StronglySorted (fun x y => key x <= key y) (insert_sorted key a l).
Proof.
  induction 1 as [|b l Hs IH Hb]; cbn [insert_sorted].
  - repeat constructor.
  - destruct (Z.leb_spec (key a) (key b)) as [Hle|Hlt].
    + constructor; [now constructor|].
      constructor; [exact Hle|].
      eapply Forall_impl; [|exact Hb]. intros c Hc. cbn in Hc. lia.
    + constructor; [exact IH|].
      eapply Permutation_Forall.
      * symmetry. apply insert_sorted_perm.
      * constructor; [lia|exact Hb].
Qed.

Lemma sorted_by_sorted l :
  StronglySorted (fun x y => key x <= key y) (sorted_by key l).
Proof.
  induction l as [|a l IH]; cbn [sorted_by fold_right]; [constructor|].
  now apply insert_sorted_sorted.
Qed.

(** An element whose key is above every other key is sorted last. *)
Lemma sorted_by_max_last a x b :
  (forall c, In c (a ++ b) -> key c < key x) ->
  exists front,
    sorted_by key (a ++ x :: b) = front ++ [x]
    /\ Permutation front (a ++ b).
Proof.
  intros Hmax.
  pose proof (sorted_by_perm (a ++ x :: b)) as Hp.
  pose proof (sorted_by_sorted (a ++ x :: b)) as Hs.
  assert (Hin : In x (sorted_by key (a ++ x :: b))).
  { eapply Permutation_in; [symmetry; exact Hp|].
    apply in_or_app. right. now left. }
  apply in_split in Hin as (l1 & l2 & E). rewrite E in Hp, Hs.
  assert (Hp' : Permutation (l1 ++ l2) (a ++ b)).
  { eapply Permutation_app_inv. exact Hp. }
  destruct l2 as [|c l2].
  - exists l1. split; [exact E|]. now rewrite app_nil_r in Hp'.
  - exfalso.
    assert (Hc : key c < key x).
    { apply Hmax. eapply Permutation_in; [exact Hp'|].
      apply in_or_app. right. now left. }
    clear - Hs Hc. induction l1 as [|y l1 IH].
    + cbn [app] in Hs. inversion Hs as [|? ? _ Hall]; subst.
      inversion Hall as [|? ? Hxc _]; subst. lia.
    + cbn [app] in Hs. inversion Hs; subst. auto.
Qed.

End SortingFacts.

(* ------------------------------------------------------------------ *)
(** ** More on the scheduled rate events *)

Lemma keyed_events_ok events :
  (forall ev, In ev events -> exists t, to_dt (ev_date ev) = Ok t) ->
  exists keyed,
    keyed_events events = Ok keyed /\ map snd keyed = events.
Proof.
  unfold keyed_events.
  induction events as [|ev events IH]; intros H.
  - exists []. split; reflexivity.
  - destruct (H ev (or_introl eq_refl)) as [t Ht].
    destruct IH as (keyed & Ek & Hk); [intros; apply H; now right|].
    exists ((t, ev) :: keyed). cbn [mapM]. rewrite Ht. cbn [bind].
    rewrite Ek. cbn [bind map snd]. now rewrite Hk.
Qed.

Lemma keyed_events_snd events keyed :
  keyed_events events = Ok keyed -> map snd keyed = events.
Proof.
  unfold keyed_events. revert keyed.
  induction events as [|ev events IH]; intros keyed H.
  - injection H as <-. reflexivity.
  - cbn [mapM] in H.
    destruct (to_dt (ev_date ev)) as [t|]; [|discriminate]. cbn [bind] in H.
    destruct (mapM _ events) as [ks|]; [|discriminate]. cbn [bind] in H.
    injection H as <-. cbn [map snd]. now rewrite (IH ks eq_refl).
Qed.

Lemma apply_rate_event_defined eff ev out out' :
  apply_rate_event eff ev out = Ok out' ->
  Forall (fun c => exists v, snd c = Some v) out ->
  Forall (fun c => exists v, snd c = Some v) out'.
Proof.
  unfold apply_rate_event.
  destruct (negb _); [intros H; injection H as <-; auto|].
  destruct (is_some (delta_bps ev) && is_some (to_pct ev)); [discriminate|].
  destruct (to_pct ev) as [p|], (delta_bps ev) as [b|];
    intros H Hall; injection H as <-; auto;
    apply Forall_forall; intros c Hc;
    apply in_map_iff in Hc as ([d v] & <- & Hin);
    rewrite Forall_forall in Hall; destruct (Hall _ Hin) as [x Hx];
    cbn [snd] in Hx; subst v; destruct (eff <=? d); cbn; eauto.
Qed.

Lemma apply_rate_events_defined evs : forall out out',
  apply_rate_events evs out = Ok out' ->
  Forall (fun c => exists v, snd c = Some v) out ->
  Forall (fun c => exists v, snd c = Some v) out'.
Proof.
  induction evs as [|[eff ev] evs IH]; intros out out' H Hall.
  - injection H as <-. exact Hall.
  - cbn [apply_rate_events] in H.
    destruct (apply_rate_event eff ev out) as [out1|] eqn:E; [|discriminate].
    cbn [bind] in H.
    eapply IH; [exact H|]. eapply apply_rate_event_defined; eauto.
Qed.

(** X11: when every event has a date and none gives both a change and
    a level, [apply_future_rate_events] raises nothing; it returns a
    frame with the dates of the input, in which every rate is a number
    and every daily rate is (rate / 100) / 365. *)
Theorem apply_future_rate_events_well_formed
    (rates : list RateRow) (events : list RateEvent) :
  events <> [] ->
  (forall ev, In ev events -> exists t, to_dt (ev_date ev) = Ok t) ->
  (forall ev, In ev events -> delta_bps ev = None \/ to_pct ev = None) ->
  exists out,
    apply_future_rate_events rates events = Ok out
    /\ map r_date out = map r_date rates
    /\ Forall (fun r => exists pct,
                  rate_pct r = Some pct
                  /\ daily_rate r = Some ((pct / 100) / DAYCOUNT)%Q) out.
Proof.
  intros Hne Hdates Hone.
  destruct (keyed_events_ok events Hdates) as (keyed & Ek & Hk).
  unfold apply_future_rate_events.
  destruct events as [|e0 events']; [congruence|].
  set (events := e0 :: events') in *.
  fold (keyed_events events). rewrite Ek. cbn [bind].
  set (out0 := fillna DEFAULT_OFFLINE_RATE_PCT
                 (map (fun r => (r_date r, rate_pct r)) rates)).
  destruct (apply_rate_events_ok (sorted_by fst keyed) out0)
    as (out & Eo & Hi).
  { apply Forall_forall. intros [eff ev] Hin. cbn [snd].
    apply sorted_by_In in Hin. apply (in_map snd) in Hin.
    rewrite Hk in Hin. cbn [snd] in Hin.
    destruct (Hone ev Hin) as [-> | ->]; [reflexivity|].
    apply andb_false_r. }
  rewrite Eo. cbn [bind]. eexists. split; [reflexivity|]. split.
  - rewrite map_map.
    transitivity (index out).
    + unfold index. apply map_ext. intros [d v]. reflexivity.
    + rewrite Hi. unfold out0. rewrite fillna_index. unfold index.
      rewrite map_map. reflexivity.
  - pose proof (apply_rate_events_defined _ _ _ Eo
                  (fillna_defined _ _)) as Hdef.
    apply Forall_forall. intros r Hr.
    apply in_map_iff in Hr as ([d v] & <- & Hin).
    rewrite Forall_forall in Hdef. destruct (Hdef _ Hin) as [x Hx].
    cbn [snd] in Hx. subst v. exists x. split; reflexivity.
Qed.

Lemma apply_future_rate_events_well_formed_witness :
  exists out,
    apply_future_rate_events three_days_at_5pct cut_then_level = Ok out
    /\ map r_date out = [0; 1; 2].
Proof.
  destruct (apply_future_rate_events_well_formed
              three_days_at_5pct cut_then_level) as (out & E & Hd & _).
  - discriminate.
  - intros ev [<-|[<-|[]]]; eexists; reflexivity.
  - intros ev [<-|[<-|[]]]; [left|right]; reflexivity.
  - exists out. split; [exact E|exact Hd].
Defined.

Lemma Qsum_perm l1 l2 : Permutation l1 l2 -> (Qsum l1 == Qsum l2)%Q.
Proof.
  induction 1 as [| x l1 l2 _ IH | x y l | l1 l2 l3 _ IH1 _ IH2];
    unfold Qsum in *; cbn [fold_right].
  - reflexivity.
  - now rewrite IH.
  - ring.
  - now rewrite IH1.
Qed.

Lemma total_delta_perm k1 k2 d :
  Permutation k1 k2 -> (total_delta k1 d == total_delta k2 d)%Q.
Proof. intros H. unfold total_delta. apply Qsum_perm. now apply Permutation_map. Qed.

(** An event without a level rewrites the column cell by cell. *)
Lemma apply_rate_event_shift eff ev out :
  to_pct ev = None ->
  apply_rate_event eff ev out
  = Ok (map (fun c => (fst c, shift_cell (eff, ev) (fst c) (snd c))) out).
Proof.
  intros Hp. unfold apply_rate_event. cbv zeta. rewrite Hp.
  rewrite andb_false_r.
  destruct (existsb (fun d : Timestamp => eff <=? d) (index out)) eqn:Ex;
    cbn [negb].
  - destruct (delta_bps ev) as [b|] eqn:Eb; f_equal.
    + apply map_ext. intros [d v]. unfold shift_cell. cbn [fst snd].
      rewrite Eb. destruct (eff <=? d); reflexivity.
    + symmetry. rewrite <- (map_id out) at 2. apply map_ext.
      intros [d v]. unfold shift_cell. cbn [fst snd]. rewrite Eb.
      destruct (eff <=? d); reflexivity.
  - f_equal. symmetry. rewrite <- (map_id out) at 2. apply map_ext_in.
    intros [d v] Hin. unfold shift_cell. cbn [fst snd].
    destruct (eff <=? d) eqn:El; [|reflexivity].
    exfalso. apply (in_map fst) in Hin.
    assert (existsb (fun d : Timestamp => eff <=? d) (index out) = true)
      by (apply existsb_exists; exists d; split; [exact Hin|exact El]).
    congruence.
Qed.

Lemma apply_rate_events_shift evs : forall out,
  (forall c, In c evs -> to_pct (snd c) = None) ->
  apply_rate_events evs out
  = Ok (map (fun c => (fst c,
                       fold_left (fun v e => shift_cell e (fst c) v)
                                 evs (snd c))) out).
Proof.
  induction evs as [|[eff ev] evs IH]; intros out H.
  - cbn [apply_rate_events fold_left]. f_equal.
    rewrite <- (map_id out) at 1. apply map_ext. now intros [d v].
  - cbn [apply_rate_events].
    rewrite apply_rate_event_shift
      by (exact (H (eff, ev) (or_introl eq_refl))).
    cbn [bind]. rewrite IH by (intros c Hc; apply H; now right).
    f_equal. rewrite map_map. apply map_ext. now intros [d v].
Qed.

Lemma shift_cells_total evs d : forall p,
  exists p',
    fold_left (fun v e => shift_cell e d v) evs (Some p) = Some p'
    /\ (p' == p + total_delta evs d)%Q.
Proof.
  induction evs as [|[eff ev] evs IH]; intros p.
  - exists p. split; [reflexivity|]. unfold total_delta, Qsum. cbn. ring.
  - cbn [fold_left]. unfold shift_cell at 2. cbn [fst snd].
    unfold total_delta, Qsum. cbn [map fold_right fst snd].
    fold (Qsum (map (fun c => if fst c <=? d
                              then (or_zero (delta_bps (snd c)) / 100)%Q
                              else 0%Q) evs)).
    fold (total_delta evs d).
    destruct (eff <=? d).
    + destruct (delta_bps ev) as [b|]; cbn [option_map or_zero].
      * destruct (IH (p + b / 100)%Q) as (p' & E & Hp').
        exists p'. split; [exact E|]. rewrite Hp'. ring.
      * destruct (IH p) as (p' & E & Hp').
        exists p'. split; [exact E|]. rewrite Hp'. field.
    + destruct (IH p) as (p' & E & Hp').
      exists p'. split; [exact E|]. rewrite Hp'. ring.
Qed.

(** X12: relative changes add up.  When no event gives a level, the
    rate of every row of the result is the rate of the same row of the
    input (the offline default if that is NaN) plus the sum, over the
    events dated on or before the row, of their changes in basis points
    over 100, whatever the order in which the events are listed. *)
Theorem apply_future_rate_events_cumulative
    (rates : list RateRow) (events : list RateEvent)
    (keyed : list (Timestamp * RateEvent)) :
  events <> [] ->
  keyed_events events = Ok keyed ->
  (forall ev, In ev events -> to_pct ev = None) ->
  exists out,
    apply_future_rate_events rates events = Ok out
    /\ Forall2 (fun r o =>
                  r_date o = r_date r
                  /\ exists pct,
                       rate_pct o = Some pct
                       /\ (pct == or_default (rate_pct r)
                                  + total_delta keyed (r_date r))%Q)
               rates out.
Proof.
  intros Hne Ek Hlevel.
  unfold apply_future_rate_events.
  destruct events as [|e0 events']; [congruence|].
  set (events := e0 :: events') in *.
  fold (keyed_events events). rewrite Ek. cbn [bind].
  rewrite apply_rate_events_shift.
  - cbn [bind]. eexists. split; [reflexivity|].
    unfold fillna. rewrite !map_map. cbn [fst snd].
    induction rates as [|r rates IH]; cbn [map]; constructor; [|exact IH].
    cbn [r_date rate_pct]. split; [reflexivity|].
    destruct (shift_cells_total (sorted_by fst keyed) (r_date r)
                (or_default (rate_pct r))) as (p' & E & Hp').
    exists p'. split.
    + rewrite <- E. destruct (rate_pct r); reflexivity.
    + rewrite Hp'. apply Qplus_comp; [reflexivity|].
      apply total_delta_perm, sorted_by_perm.
  - intros c Hc. apply sorted_by_In in Hc. apply (in_map snd) in Hc.
    rewrite (keyed_events_snd _ _ Ek) in Hc. now apply Hlevel.
Qed.

Lemma apply_future_rate_events_cumulative_witness :
  exists out,
    apply_future_rate_events three_days_at_5pct two_cuts = Ok out
    /\ Forall2 (fun r o =>
                  r_date o = r_date r
                  /\ exists pct,
                       rate_pct o = Some pct
                       /\ (pct == or_default (rate_pct r)
                                  + total_delta two_cuts_keyed (r_date r))%Q)
               three_days_at_5pct out.
Proof.
  apply (apply_future_rate_events_cumulative three_days_at_5pct two_cuts).
  - discriminate.
  - reflexivity.
  - intros ev [<-|[<-|[]]]; reflexivity.
Defined.

Lemma apply_rate_events_app a : forall b out,
  apply_rate_events (a ++ b) out
  = (out' <- apply_rate_events a out ;; apply_rate_events b out').
Proof.
  induction a as [|[eff ev] a IH]; intros b out; [reflexivity|].
  cbn [app apply_rate_events].
  destruct (apply_rate_event eff ev out) as [out1|e]; cbn [bind];
    [apply IH|reflexivity].
Qed.

(** X13: a level set by the latest event holds.  When the event with
    the latest date gives a level and no change, and no other event
    gives both keys, every row dated on or after that event has exactly
    that level as its rate, whatever the earlier events did. *)
Theorem apply_future_rate_events_latest_level
    (rates : list RateRow) (before after : list RateEvent)
    (ev : RateEvent) (eff : Timestamp) (level : Q) :
  to_dt (ev_date ev) = Ok eff ->
  to_pct ev = Some level ->
  delta_bps ev = None ->
  (forall ev', In ev' (before ++ after) ->
     (exists t, to_dt (ev_date ev') = Ok t /\ t < eff)
     /\ (delta_bps ev' = None \/ to_pct ev' = None)) ->
  exists out,
    apply_future_rate_events rates (before ++ ev :: after) = Ok out
    /\ forall o, In o out -> eff <= r_date o -> rate_pct o = Some level.
Proof.
  intros Heff Hlevel Hdelta Hothers.
  assert (Hdates : forall e, In e (before ++ ev :: after) ->
                             exists t, to_dt (ev_date e) = Ok t).
  { intros e He. apply in_app_or in He as [He|[<-|He]]; [|eauto|].
    - destruct (Hothers e) as [(t & Ht & _) _]; eauto using in_or_app.
    - destruct (Hothers e) as [(t & Ht & _) _]; eauto using in_or_app. }
  destruct (keyed_events_ok _ Hdates) as (keyed & Ek & Hk).
  (* the keyed list splits as the events do *)
  assert (Hsplit : exists ka kb,
             keyed = ka ++ (eff, ev) :: kb
             /\ map snd ka = before /\ map snd kb = after
             /\ forall c, In c (ka ++ kb) ->
                  fst c < eff
                  /\ is_some (delta_bps (snd c)) && is_some (to_pct (snd c))
                     = false).
  { clear Hdates Hk. unfold keyed_events in Ek. revert keyed Ek Hothers.
    induction before as [|b0 before IH]; intros keyed Ek Hothers.
    - cbn [app mapM] in Ek. rewrite Heff in Ek. cbn [bind] in Ek.
      destruct (mapM _ after) as [kb|] eqn:Eb; [|discriminate].
      cbn [bind] in Ek. injection Ek as <-.
      exists [], kb. split; [reflexivity|]. split; [reflexivity|].
      split; [exact (keyed_events_snd _ _ Eb)|].
      cbn [app]. clear - Eb Hothers. cbn [app] in Hothers.
      revert kb Eb. induction after as [|a0 after IH]; intros kb Eb.
      + injection Eb as <-. contradiction.
      + cbn [mapM] in Eb.
        destruct (to_dt (ev_date a0)) as [t|] eqn:Et; [|discriminate].
        cbn [bind] in Eb.
        destruct (mapM _ after) as [kb'|] eqn:Eb'; [|discriminate].
        cbn [bind] in Eb. injection Eb as <-.
        intros c [<-|Hc].
        * destruct (Hothers a0 (or_introl eq_refl))
            as [(t' & Ht' & Hlt) Hone].
          cbn [fst snd]. split; [congruence|].
          destruct Hone as [-> | ->]; [reflexivity|apply andb_false_r].
        * apply (IH (fun e He => Hothers e (or_intror He)) kb' eq_refl c Hc).
    - cbn [app mapM] in Ek.
      destruct (to_dt (ev_date b0)) as [t|] eqn:Et; [|discriminate].
      cbn [bind] in Ek.
      destruct (mapM _ (before ++ ev :: after)) as [ks|] eqn:Es;
        [|discriminate].
      cbn [bind] in Ek. injection Ek as <-.
      destruct (IH ks eq_refl (fun e He => Hothers e (or_intror He)))
        as (ka & kb & -> & Ha & Hb & Hall).
      exists ((t, b0) :: ka), kb.
      split; [reflexivity|]. split; [cbn; now rewrite Ha|].
      split; [exact Hb|].
      intros c [<-|Hc]; [|now apply Hall].
      destruct (Hothers b0 (or_introl eq_refl)) as [(t' & Ht' & Hlt) Hone].
      cbn [fst snd]. split; [congruence|].
      destruct Hone as [-> | ->]; [reflexivity|apply andb_false_r]. }
  destruct Hsplit as (ka & kb & -> & _ & _ & Hall).
  destruct (sorted_by_max_last fst ka (eff, ev) kb) as (front & Es & Hperm).
  { intros c Hc. cbn [fst]. now apply Hall. }
  unfold apply_future_rate_events.
  destruct (before ++ ev :: after) as [|e0 events'] eqn:Eev;
    [now destruct before|].
  fold (keyed_events (e0 :: events')).
  rewrite Ek. cbn [bind]. rewrite Es, apply_rate_events_app.
  set (out0 := fillna DEFAULT_OFFLINE_RATE_PCT
                 (map (fun r => (r_date r, rate_pct r)) rates)).
  destruct (apply_rate_events_ok front out0) as (out1 & -> & _).
  { apply Forall_forall. intros c Hc. apply Hall.
    eapply Permutation_in; eauto. }
  cbn [bind apply_rate_events]. unfold apply_rate_event. cbv zeta.
  rewrite Hlevel, Hdelta. cbn [is_some andb].
  destruct (negb _) eqn:Eany; cbn [bind].
  - eexists. split; [reflexivity|].
    intros o Ho Hle. exfalso.
    apply in_map_iff in Ho as ([d v] & <- & Hin). cbn [r_date] in Hle.
    apply negb_true_iff in Eany.
    assert (existsb (fun d : Timestamp => eff <=? d) (index out1) = true).
    { apply existsb_exists. exists d. split.
      - now apply (in_map fst) in Hin.
      - now apply Z.leb_le. }
    congruence.
  - eexists. split; [reflexivity|].
    intros o Ho Hle.
    apply in_map_iff in Ho as ([d v] & <- & Hin).
    apply in_map_iff in Hin as ([d' v'] & E & _).
    cbn [r_date] in Hle. cbn [rate_pct].
    destruct (Z.leb_spec eff d') as [_|Hlt].
    + now injection E as _ <-.
    + injection E as -> _. lia.
Qed.

Lemma apply_future_rate_events_latest_level_witness :
  exists out,
    apply_future_rate_events three_days_at_5pct cut_then_level = Ok out
    /\ forall o, In o out -> 2 <= r_date o -> rate_pct o = Some (35 # 10).
Proof.
  apply (apply_future_rate_events_latest_level three_days_at_5pct
           [] [cut_on "1970-01-02"] (level_on "1970-01-03") 2 (35 # 10)).
  - reflexivity.
  - reflexivity.
  - reflexivity.
  - intros ev' [<-|[]]. split.
    + exists 1. split; [reflexivity|lia].
    + right. reflexivity.
Defined.

(* ------------------------------------------------------------------ *)
(** ** More on the purchase schedule *)

(** The priced branch in closed form. *)
Lemma btc_priced_eq btc dates total_btc upo fee_bps price_basis :
  btc <> [] ->
  is_unique (map p_date btc) = true ->
  btc_priced (Some btc) dates total_btc upo fee_bps price_basis
  = Ok (map (fun c => priced_row (units_per_day_of total_btc upo dates)
                                 fee_bps (fst c) (snd c))
            (ffill (map (fun d => (d, cell_at (price_column price_basis btc)
                                               d)) dates))).
Proof.
  intros Hne Hu. unfold btc_priced.
  destruct btc as [|p0 btc]; [congruence|].
  fold (price_column price_basis (p0 :: btc)).
  rewrite reindex_ok.
  - cbn [bind]. f_equal. apply map_ext. now intros [d p].
  - unfold price_column, index.
    destruct (String.eqb _ "hlc3"); rewrite map_map; exact Hu.
Qed.

Lemma btc_priced_duplicates btc dates total_btc upo fee_bps price_basis :
  is_unique (map p_date btc) = false ->
  exists e,
    btc_priced (Some btc) dates total_btc upo fee_bps price_basis = Raise e.
Proof.
  intros Hu. unfold btc_priced.
  destruct btc as [|p0 btc]; [eauto|].
  fold (price_column price_basis (p0 :: btc)).
  rewrite reindex_duplicates; [cbn [bind]; eauto|].
  unfold price_column, index.
  destruct (String.eqb _ "hlc3"); rewrite map_map; exact Hu.
Qed.

(** X14: whatever Yahoo does, [btc_outflow_series] raises nothing and
    returns one row per day of the window, in order (none for an empty
    window), each with the fee multiplier 1 + fee_bps / 10000; a frame
    whose dates are not distinct gives the fallback rows as a failed
    download does. *)
Theorem btc_outflow_series_shape
    (yahoo : Timestamp -> Timestamp -> option (list PriceRow))
    (start end_ : Timestamp) (total_btc : Q)
    (units_per_day_override fallback_per_day_mm_override : option Q)
    (fee_bps : Q) (price_basis : string) :
  let df := btc_outflow_series yahoo start end_ total_btc
              units_per_day_override fallback_per_day_mm_override
              fee_bps price_basis in
  map b_date df = date_range start end_
  /\ Forall (fun r => btc_fee_mult r = Some (1 + fee_bps / 10000)%Q) df
  /\ (forall btc,
        yahoo (start - 3) (end_ + 3) = Some btc ->
        is_unique (map p_date btc) = false ->
        df = match date_range start end_ with
             | [] => []
             | _ => btc_fallback (date_range start end_)
                      fallback_per_day_mm_override fee_bps
             end).
Proof.
  intros df. split; [apply btc_outflow_series_dates|]. split.
  - unfold df, btc_outflow_series.
    destruct (date_range start end_) as [|d0 dates]; [constructor|].
    destruct (btc_priced _ _ _ _ _ _) as [rows|e] eqn:E.
    + unfold btc_priced in E.
      destruct (yahoo _ _) as [[|p0 btc]|]; try discriminate.
      destruct (reindex _ _ _) as [px|]; [|discriminate].
      cbn [bind] in E. injection E as <-.
      apply Forall_forall. intros r Hr.
      apply in_map_iff in Hr as ([d p] & <- & _). reflexivity.
    + unfold btc_fallback. apply Forall_forall. intros r Hr.
      apply in_map_iff in Hr as (d & <- & _). reflexivity.
  - intros btc Hy Hu. unfold df, btc_outflow_series.
    destruct (date_range start end_) as [|d0 dates]; [reflexivity|].
    rewrite Hy.
    destruct (btc_priced_duplicates btc (d0 :: dates) total_btc
                units_per_day_override fee_bps price_basis Hu) as [e ->].
    reflexivity.
Qed.

(** X15: on a day of the window for which the price column of the
    Yahoo frame (non-empty, with distinct dates) has a number p, the row
    has price p, the units of a day, and the cash flow
    -(p * units * fee_mult / 1,000,000); the units of a day are the
    override or, without one, total_btc over the number of days. *)
Theorem btc_outflow_series_priced_day
    (yahoo : Timestamp -> Timestamp -> option (list PriceRow))
    (start end_ : Timestamp) (total_btc : Q)
    (units_per_day_override fallback_per_day_mm_override : option Q)
    (fee_bps : Q) (price_basis : string)
    (btc : list PriceRow) (d : Timestamp) (p : Q) :
  yahoo (start - 3) (end_ + 3) = Some btc ->
  btc <> [] ->
  is_unique (map p_date btc) = true ->
  start <= d <= end_ ->
  cell_at (price_column price_basis btc) d = Some p ->
  In (priced_row (units_per_day_of total_btc units_per_day_override
                    (date_range start end_))
                 fee_bps d (Some p))
     (btc_outflow_series yahoo start end_ total_btc
        units_per_day_override fallback_per_day_mm_override
        fee_bps price_basis).
Proof.
  intros Hy Hne Hu Hd Hp. unfold btc_outflow_series.
  assert (Hin : In d (date_range start end_)) by now apply date_range_In.
  destruct (date_range start end_) as [|d0 dates] eqn:Ed; [contradiction|].
  rewrite Hy, (btc_priced_eq _ _ _ _ _ _ Hne Hu).
  apply in_map_iff. exists (d, Some p). split; [reflexivity|].
  apply ffill_from_keeps. apply in_map_iff. exists d.
  split; [now rewrite Hp|exact Hin].
Qed.

Lemma btc_outflow_series_priced_day_witness :
  In (priced_row (4710 / 38) BTC_FEE_BPS 20214 (Some 96500%Q))
     (btc_outflow_series (fun _ _ => Some two_closes) 20212 20215 4710
        (Some (4710 / 38)%Q) None BTC_FEE_BPS BTC_PRICE_BASIS).
Proof.
  apply (btc_outflow_series_priced_day (fun _ _ => Some two_closes)
           20212 20215 4710 (Some (4710 / 38)%Q) None BTC_FEE_BPS
           BTC_PRICE_BASIS two_closes 20214 96500).
  - reflexivity.
  - discriminate.
  - reflexivity.
  - lia.
  - reflexivity.
Defined.



Lemma ffill_from_source s : forall last d v,
  In (d, Some v) (ffill_from last s) ->
  last = Some v \/ exists d', In (d', Some v) s.
Proof.
  induction s as [|[k w] s IH]; intros last d v Hin; [contradiction|].
  cbn [ffill_from] in Hin. destruct Hin as [E|Hin].
  - injection E as -> E. destruct w as [w|].
    + right. exists d. left. now rewrite E.
    + now left.
  - apply IH in Hin as [E|(d' & Hd')].
    + destruct w as [w|]; [|now left].
      right. exists k. left. now rewrite E.
    + right. exists d'. now right.
Qed.

(** X17: cash flows are outflows.  When the fee multiplier, the units
    of a day and the per-day fallback amount are not negative and the
    Yahoo frame holds no negative price, no row has a positive cash
    flow. *)
Theorem btc_outflow_series_never_positive
    (yahoo : Timestamp -> Timestamp -> option (list PriceRow))
    (start end_ : Timestamp) (total_btc : Q)
    (units_per_day_override fallback_per_day_mm_override : option Q)
    (fee_bps : Q) (price_basis : string) :
  (0 <= 1 + fee_bps / 10000)%Q ->
  (0 <= units_per_day_of total_btc units_per_day_override
          (date_range start end_))%Q ->
  (forall x, fallback_per_day_mm_override = Some x -> (0 <= x)%Q) ->
  (forall btc r, yahoo (start - 3) (end_ + 3) = Some btc -> In r btc ->
     (forall x, High r = Some x -> (0 <= x)%Q)
     /\ (forall x, Low r = Some x -> (0 <= x)%Q)
     /\ (forall x, Close r = Some x -> (0 <= x)%Q)) ->
  forall r c,
    In r (btc_outflow_series yahoo start end_ total_btc
            units_per_day_override fallback_per_day_mm_override
            fee_bps price_basis) ->
    cash_flow r = Some c ->
    (c <= 0)%Q.
Proof.
  intros Hfee Hunits Hfall Hprices r c Hin Hc.
  unfold btc_outflow_series in Hin.
  destruct (date_range start end_) as [|d0 dates] eqn:Ed; [contradiction|].
  destruct (btc_priced _ _ _ _ _ _) as [rows|e] eqn:E.
  - destruct (yahoo _ _) as [btc|] eqn:Ey; [|discriminate E].
    destruct btc as [|p0 btc']; [discriminate E|].
    set (btc := p0 :: btc') in *.
    destruct (is_unique (map p_date btc)) eqn:Hu.
    2:{ destruct (btc_priced_duplicates btc (d0 :: dates) total_btc
                    units_per_day_override fee_bps price_basis Hu) as [e' E'].
        congruence. }
    rewrite btc_priced_eq in E by (subst btc; auto; discriminate).
    match type of E with Ok ?l = _ => set (closed := l) in E end.
    injection E as <-. unfold closed in Hin. clear closed.
    apply in_map_iff in Hin as ([d p] & <- & Hin).
    cbn [cash_flow priced_row fst snd] in Hc.
    destruct p as [p|]; [|discriminate].
    cbn [option_map] in Hc. injection Hc as <-.
    assert (Hp : (0 <= p)%Q).
    { apply ffill_from_source in Hin as [Hx|(d' & Hd')]; [discriminate|].
      apply in_map_iff in Hd' as (d1 & E1 & _). injection E1 as _ E1.
      unfold cell_at in E1.
      destruct (lookup d1 (price_column price_basis btc))
        as [[q|]|] eqn:El; try discriminate.
      injection E1 as ->. apply lookup_In in El.
      unfold price_column in El.
      destruct (String.eqb _ "hlc3");
        apply in_map_iff in El as (row & Erow & Hrow);
        injection Erow as _ Erow;
        destruct (Hprices _ row eq_refl Hrow) as (Hh & Hl & Hcl); auto.
      unfold hlc3 in Erow.
      destruct (High row) as [h|], (Low row) as [l|], (Close row) as [cl|];
        try discriminate.
      injection Erow as <-.
      apply Qle_shift_div_l; [reflexivity|].
      setoid_replace (0 * 3)%Q with (0 + 0 + 0)%Q by ring.
      repeat apply Qplus_le_compat; auto. }
    setoid_replace 0%Q with (- 0)%Q by ring.
    apply Qopp_le_compat. apply Qle_shift_div_l; [reflexivity|].
    setoid_replace (0 * 1000000)%Q with 0%Q by ring.
    repeat apply Qmult_le_0_compat; auto.
  - unfold btc_fallback in Hin.
    apply in_map_iff in Hin as (d & <- & _).
    cbn [cash_flow] in Hc. injection Hc as <-.
    setoid_replace 0%Q with (- 0)%Q by ring.
    apply Qopp_le_compat. apply Qmult_le_0_compat; [|exact Hfee].
    destruct fallback_per_day_mm_override as [x|]; [now apply Hfall|].
    apply Qle_shift_div_l.
    + unfold Qlt. cbn. lia.
    + setoid_replace (0 * inject_Z (Z.of_nat (length (d0 :: dates))))%Q
        with 0%Q by ring.
      discriminate.
Qed.

Lemma btc_outflow_series_never_positive_witness :
  exists r c,
    In r (btc_outflow_series (fun _ _ => Some two_closes) 20212 20215 4710
            (Some (4710 / 38)%Q) None BTC_FEE_BPS BTC_PRICE_BASIS)
    /\ cash_flow r = Some c
    /\ (c <= 0)%Q.
Proof.
  pose proof (btc_outflow_series_never_positive
                (fun _ _ => Some two_closes) 20212 20215 4710
                (Some (4710 / 38)%Q) None BTC_FEE_BPS BTC_PRICE_BASIS) as H.
  eexists (priced_row (4710 / 38) BTC_FEE_BPS 20212 (Some 95000%Q)), _.
  assert (Hin : In (priced_row (4710 / 38) BTC_FEE_BPS 20212 (Some 95000%Q))
                   (btc_outflow_series (fun _ _ => Some two_closes)
                      20212 20215 4710 (Some (4710 / 38)%Q) None
                      BTC_FEE_BPS BTC_PRICE_BASIS)) by (left; reflexivity).
  split; [exact Hin|]. split; [reflexivity|].
  apply (H ltac:(discriminate) ltac:(discriminate) ltac:(discriminate))
    with (r := priced_row (4710 / 38) BTC_FEE_BPS 20212 (Some 95000%Q)).
  - intros btc r E Hr. injection E as <-.
    destruct Hr as [<-|[<-|[]]]; repeat split;
      intros x Hx; injection Hx as <-; discriminate.
  - exact Hin.
  - reflexivity.
Defined.

(* ------------------------------------------------------------------ *)
(** ** More on the quarter frame *)

Lemma quarter_rows_iq quarter_days ends : forall i prev k t,
  nth_error (quarter_rows i prev quarter_days ends) k = Some t ->
  fst (fst t) = i + Z.of_nat k + 1.
Proof.
  induction ends as [|e ends IH]; intros i prev k t H.
  - destruct k; discriminate.
  - destruct k as [|k]; cbn [quarter_rows nth_error] in H.
    + injection H as <-. cbn. lia.
    + apply IH in H. rewrite H. lia.
Qed.

Lemma quarter_rows_ends quarter_days ends : forall i prev,
  map (fun t => snd (fst t)) (quarter_rows i prev quarter_days ends) = ends.
Proof.
  induction ends as [|e ends IH]; intros i prev; [reflexivity|].
  cbn [quarter_rows map fst snd]. now rewrite IH.
Qed.

Lemma frame_ends rows : map q_end (map row_of rows)
                        = map (fun t => snd (fst t)) rows.
Proof.
  rewrite map_map. apply map_ext. now intros [[i e] s].
Qed.

(** X18: for a quarter length of at least one day, the rows of the
    frame are numbered 1, 2, ... in order, every quarter counts at least
    one day (its start is not after its end), and the quarter ends are
    strictly increasing. *)
Theorem quarter_frame_ordered (forecast_quarters quarter_days : Z) :
  1 <= quarter_days ->
  exists qdf,
    build_quarter_frame_with_forecast forecast_quarters quarter_days = Ok qdf
    /\ (forall i r, nth_error qdf i = Some r ->
          iq r = Z.of_nat i + 1
          /\ days r = (q_end r - q_start r) + 1
          /\ 1 <= days r)
    /\ (forall i a b,
          nth_error qdf i = Some a ->
          nth_error qdf (S i) = Some b ->
          q_end a < q_end b).
Proof.
  intros Hqd.
  rewrite build_quarter_frame_with_forecast_eq.
  set (n := Z.to_nat (Z.max forecast_quarters 0)).
  set (rows := quarter_rows 0 None quarter_days
                 (anchor_ends ++ forecast_ends quarter_days 20211 n)).
  assert (Hne : rows <> []) by (unfold rows; discriminate).
  assert (Hdays : forall t, In t rows -> 1 <= (snd (fst t) - snd t) + 1).
  { intros t Ht. unfold rows in Ht. rewrite quarter_rows_app in Ht.
    apply in_app_or in Ht as [Ht|Ht].
    - unfold anchor_ends in Ht. cbn [quarter_rows In] in Ht.
      repeat (destruct Ht as [<-|Ht]; [cbn [fst snd]; lia|]).
      contradiction.
    - rewrite (forecast_rows_days quarter_days _ _ _ _ Ht). exact Hqd. }
  exists (map row_of rows). split; [now apply assign_days_ok|]. split.
  - intros i r Hr. rewrite nth_error_map in Hr.
    destruct (nth_error rows i) as [[[ri re] rs]|] eqn:Er; [|discriminate].
    injection Hr as <-. cbn [iq days q_end q_start row_of].
    pose proof (quarter_rows_iq _ _ _ _ _ _ Er) as Hi. cbn in Hi.
    pose proof (Hdays _ (nth_error_In _ _ Er)) as Hd. cbn in Hd.
    repeat split; lia.
  - intros i a b Ha Hb. rewrite nth_error_map in Ha, Hb.
    destruct (nth_error rows i) as [[[ai ae] as_]|] eqn:Ea; [|discriminate].
    destruct (nth_error rows (S i)) as [[[bi be] bs]|] eqn:Eb;
      [|discriminate].
    injection Ha as <-. injection Hb as <-. cbn [q_end row_of].
    pose proof (quarter_rows_chain quarter_days _ _ _ _ _ _ Ea Eb) as Hc.
    pose proof (Hdays _ (nth_error_In _ _ Eb)) as Hd. cbn in Hc, Hd. lia.
Qed.

Lemma quarter_frame_ordered_witness :
  exists qdf,
    build_quarter_frame_with_forecast 2 91 = Ok qdf
    /\ forall i a b,
         nth_error qdf i = Some a ->
         nth_error qdf (S i) = Some b ->
         q_end a < q_end b.
Proof.
  destruct (quarter_frame_ordered 2 91) as (qdf & E & _ & H).
  - lia.
  - exists qdf. split; [exact E|exact H].
Defined.

Lemma forecast_ends_sorted quarter_days n : forall l,
  0 <= quarter_days ->
  StronglySorted Z.le (forecast_ends quarter_days l n)
  /\ Forall (Z.le l) (forecast_ends quarter_days l n).
Proof.
  induction n as [|n IH]; intros l Hqd; cbn [forecast_ends].
  - split; constructor.
  - destruct (IH (l + quarter_days) Hqd) as [Hs Hf]. split.
    + constructor; [exact Hs|exact Hf].
    + constructor; [lia|].
      eapply Forall_impl; [|exact Hf]. intros x Hx. cbn in Hx. lia.
Qed.

Lemma StronglySorted_le_last l :
  StronglySorted Z.le l -> forall x, In x l -> x <= last l 0.
Proof.
  induction 1 as [|a l Hs IH Ha]; intros x Hx; [contradiction|].
  destruct l as [|b l].
  - destruct Hx as [<-|[]]. cbn. lia.
  - change (last (a :: b :: l) 0) with (last (b :: l) 0).
    destruct Hx as [<-|Hx]; [|now apply IH].
    rewrite Forall_forall in Ha.
    pose proof (Ha b (or_introl eq_refl)).
    pose proof (IH b (or_introl eq_refl)). lia.
Qed.

Lemma StronglySorted_le_app l1 l2 :
  StronglySorted Z.le l1 ->
  StronglySorted Z.le l2 ->
  (forall x y, In x l1 -> In y l2 -> x <= y) ->
  StronglySorted Z.le (l1 ++ l2).
Proof.
  induction 1 as [|a l1 Hs IH Ha]; intros H2 Hle; [exact H2|].
  cbn [app]. constructor.
  - apply IH; [exact H2|]. intros x y Hx Hy. apply Hle; [now right|exact Hy].
  - apply Forall_app. split; [exact Ha|].
    apply Forall_forall. intros y Hy. apply Hle; [now left|exact Hy].
Qed.

(** X19: over any anchor table whose keys are dates, given in any
    order, the frame builder returns the quarters in chronological
    order: the quarter ends are sorted, the first ones being the anchor
    dates and the others the forecast ends (for a quarter length that is
    not negative). *)
Theorem quarter_frame_sorts_anchors (anchors : Dict)
    (parsed : list Timestamp) (forecast_quarters quarter_days : Z) :
  mapM to_dt (keys anchors) = Ok parsed ->
  anchors <> [] ->
  0 <= quarter_days ->
  exists qdf,
    build_quarter_frame_from anchors forecast_quarters quarter_days = Ok qdf
    /\ length qdf
       = (length anchors + Z.to_nat (Z.max forecast_quarters 0))%nat
    /\ StronglySorted Z.le (map q_end qdf)
    /\ Permutation (firstn (length anchors) (map q_end qdf)) parsed.
Proof.
  intros Hp Hne Hqd. unfold build_quarter_frame_from.
  rewrite Hp. cbn [bind].
  set (ends := sorted_by (fun t : Z => t) parsed).
  set (n := Z.to_nat (Z.max forecast_quarters 0)).
  pose proof (sorted_by_perm (fun t : Z => t) parsed) as Hperm.
  fold ends in Hperm.
  assert (Hlen : length ends = length anchors).
  { rewrite (Permutation_length Hperm).
    clear - Hp. unfold keys in Hp. revert parsed Hp.
    induction anchors as [|[k v] anchors IH]; intros parsed Hp.
    - injection Hp as <-. reflexivity.
    - cbn [map mapM fst] in Hp.
      destruct (to_dt k); [|discriminate]. cbn [bind] in Hp.
      destruct (mapM to_dt (map fst anchors)) as [ps|]; [|discriminate].
      cbn [bind] in Hp. injection Hp as <-. cbn [length].
      now rewrite (IH ps eq_refl). }
  assert (Hends : ends <> []).
  { intros E. rewrite E in Hlen. destruct anchors; [congruence|discriminate]. }
  rewrite (append_forecast_ends_app quarter_days n ends (last ends 0)
             Hends eq_refl).
  cbn [bind].
  set (all := ends ++ forecast_ends quarter_days (last ends 0) n).
  assert (Hrows : quarter_rows 0 None quarter_days all <> []).
  { intros E. apply (f_equal (@length _)) in E.
    rewrite quarter_rows_length in E. unfold all in E.
    rewrite length_app in E. destruct ends; [congruence|discriminate]. }
  rewrite (assign_days_ok _ Hrows). eexists. split; [reflexivity|].
  rewrite frame_ends, quarter_rows_ends, length_map, quarter_rows_length.
  unfold all. split; [|split].
  - now rewrite length_app, forecast_ends_length, Hlen.
  - destruct (forecast_ends_sorted quarter_days n (last ends 0) Hqd)
      as [Hs Hf].
    apply StronglySorted_le_app; [apply sorted_by_sorted|exact Hs|].
    intros x y Hx Hy. rewrite Forall_forall in Hf.
    pose proof (Hf y Hy).
    pose proof (StronglySorted_le_last ends
                  (sorted_by_sorted (fun t : Z => t) parsed) x Hx).
    lia.
  - rewrite <- Hlen, firstn_app, Nat.sub_diag, firstn_all. cbn [firstn].
    rewrite app_nil_r. exact Hperm.
Qed.

Lemma quarter_frame_sorts_anchors_witness :
  exists qdf,
    build_quarter_frame_from shuffled_anchors 1 91 = Ok qdf
    /\ StronglySorted Z.le (map q_end qdf).
Proof.
  destruct (quarter_frame_sorts_anchors shuffled_anchors
              [19385; 19112; 19203] 1 91) as (qdf & E & _ & Hs & _).
  - reflexivity.
  - discriminate.
  - lia.
  - exists qdf. split; [exact E|exact Hs].
Defined.

Lemma mapM_raise {A B : Type} (f : A -> result B) l a e :
  In a l -> f a = Raise e ->
  (forall x e', f x = Raise e' -> e' = e) ->
  mapM f l = Raise e.
Proof.
  intros Hin Ha Hall. induction l as [|x l IH]; [contradiction|].
  cbn [mapM]. destruct (f x) as [b|e'] eqn:Ex; cbn [bind].
  - destruct Hin as [->|Hin]; [congruence|].
    rewrite (IH Hin). reflexivity.
  - now rewrite (Hall x e' Ex).
Qed.

(* ------------------------------------------------------------------ *)
(** ** Dates as text *)

Lemma ascii_of_digit_eq c n x :
  digit_of c = Some n -> x mod 10 = n -> ascii_of_digit x = c.
Proof.
  unfold digit_of, ascii_of_digit. cbv zeta.
  destruct (andb _ _) eqn:Hb; [|discriminate].
  apply andb_true_iff in Hb as [H1 H2].
  apply Z.leb_le in H1, H2.
  intros H Hx. injection H as <-. rewrite Hx.
  replace (48 + (Z.of_nat (nat_of_ascii c) - 48))
    with (Z.of_nat (nat_of_ascii c)) by lia.
  rewrite Nat2Z.id. apply ascii_nat_embedding.
Qed.

Lemma digit_of_range c n : digit_of c = Some n -> 0 <= n <= 9.
Proof.
  unfold digit_of. cbv zeta.
  destruct (andb _ _) eqn:Hb; [|discriminate].
  apply andb_true_iff in Hb as [H1 H2].
  apply Z.leb_le in H1, H2. intros H. injection H as <-. lia.
Qed.

Lemma number_of_cons acc c tl :
  number_of acc (c :: tl)
  = match digit_of c with
    | Some n => number_of (10 * acc + n) tl
    | None => None
    end.
Proof. reflexivity. Qed.

Lemma number_of_nil acc : number_of acc [] = Some acc.
Proof. reflexivity. Qed.

Lemma Some_inj {A : Type} (x y : A) : Some x = Some y -> x = y.
Proof. congruence. Qed.

Lemma digits4_number a b c d y :
  number_of 0 [a; b; c; d] = Some y -> digits4 y = [a; b; c; d].
Proof.
  rewrite number_of_cons.
  destruct (digit_of a) as [na|] eqn:Ea; [|discriminate].
  rewrite number_of_cons.
  destruct (digit_of b) as [nb|] eqn:Eb; [|discriminate].
  rewrite number_of_cons.
  destruct (digit_of c) as [nc|] eqn:Ec; [|discriminate].
  rewrite number_of_cons.
  destruct (digit_of d) as [nd|] eqn:Ed; [|discriminate].
  rewrite number_of_nil.
  intros H. apply Some_inj in H. subst y.
  pose proof (digit_of_range _ _ Ea). pose proof (digit_of_range _ _ Eb).
  pose proof (digit_of_range _ _ Ec). pose proof (digit_of_range _ _ Ed).
  unfold digits4.
  rewrite (ascii_of_digit_eq a na), (ascii_of_digit_eq b nb),
    (ascii_of_digit_eq c nc), (ascii_of_digit_eq d nd); auto;
    Z.to_euclidean_division_equations; lia.
Qed.

Lemma digits2_number a b y :
  number_of 0 [a; b] = Some y -> digits2 y = [a; b].
Proof.
  rewrite number_of_cons.
  destruct (digit_of a) as [na|] eqn:Ea; [|discriminate].
  rewrite number_of_cons.
  destruct (digit_of b) as [nb|] eqn:Eb; [|discriminate].
  rewrite number_of_nil.
  intros H. apply Some_inj in H. subst y.
  pose proof (digit_of_range _ _ Ea). pose proof (digit_of_range _ _ Eb).
  unfold digits2.
  rewrite (ascii_of_digit_eq a na), (ascii_of_digit_eq b nb); auto;
    Z.to_euclidean_division_equations; lia.
Qed.

(** X21: a text that [to_dt] accepts is given back by [strftime]: the
    key under which the loop looks a quarter end up in the anchor table
    is the key the quarter end was read from. *)
Theorem strftime_to_dt (s : string) (t : Timestamp) :
  to_dt s = Ok t -> strftime t = s.
Proof.
  unfold to_dt. rewrite <- (string_of_list_ascii_of_string s) at 2.
  destruct (list_ascii_of_string s)
    as [|y1 [|y2 [|y3 [|y4 [|s1 [|m1 [|m2 [|s2 [|d1 [|d2 [|x l]]]]]]]]]]];
    try discriminate.
  destruct (Ascii.eqb s1 dash && Ascii.eqb s2 dash) eqn:Hs; [|discriminate].
  apply andb_true_iff in Hs as [Hs1 Hs2].
  apply Ascii.eqb_eq in Hs1, Hs2. subst s1 s2.
  destruct (number_of 0 [y1; y2; y3; y4]) as [y|] eqn:Ey; [|discriminate].
  destruct (number_of 0 [m1; m2]) as [m|] eqn:Em; [|discriminate].
  destruct (number_of 0 [d1; d2]) as [d|] eqn:Ed; [|discriminate].
  cbv zeta.
  destruct (civil_from_days (days_from_civil y m d)) as [[y' m'] d'] eqn:Ec.
  destruct ((y' =? y) && (m' =? m) && (d' =? d)) eqn:Hv; [|discriminate].
  apply andb_true_iff in Hv as [Hv Hd]. apply andb_true_iff in Hv as [Hy Hm].
  apply Z.eqb_eq in Hy, Hm, Hd. subst y' m' d'.
  intros H. injection H as <-.
  unfold strftime. rewrite Ec.
  rewrite (digits4_number _ _ _ _ _ Ey), (digits2_number _ _ _ Em),
    (digits2_number _ _ _ Ed).
  reflexivity.
Qed.

Lemma strftime_to_dt_witness : strftime 20211 = "2025-05-03"%string.
Proof. apply (strftime_to_dt "2025-05-03" 20211). reflexivity. Defined.

Lemma forallb_date_range (f : Timestamp -> bool) s e t :
  forallb f (date_range s e) = true ->
  s <= t <= e ->
  f t = true.
Proof.
  intros H Ht. rewrite forallb_forall in H. apply H.
  now apply date_range_In.
Qed.

Lemma parses_back_to_2106 :
  forallb parses_back (date_range 0 50000) = true.
Proof. vm_compute. reflexivity. Qed.

(** X22: for every day from 1970-01-01 to 2106-11-23 (day 50000),
    parsing the text that [strftime] gives for the day gives the day
    back. *)
Theorem to_dt_strftime (t : Timestamp) :
  0 <= t <= 50000 -> to_dt (strftime t) = Ok t.
Proof.
  intros Ht.
  pose proof (forallb_date_range parses_back 0 50000 t
                parses_back_to_2106 Ht) as H.
  unfold parses_back in H.
  destruct (to_dt (strftime t)) as [t'|e]; [|discriminate H].
  f_equal. symmetry. now apply Z.eqb_eq.
Qed.

Lemma to_dt_strftime_witness : to_dt (strftime 20302) = Ok 20302.
Proof. apply (to_dt_strftime 20302). lia. Defined.

(* ------------------------------------------------------------------ *)
(** ** More on the quarter loop *)

Lemma simulate_quarter_total_drift yahoo q_liq all_events rates
    btc_units_total btc_start btc_end units_per_day_global
    fallback_per_day_mm_global prev row r :
  simulate_quarter yahoo q_liq all_events rates btc_units_total
    btc_start btc_end units_per_day_global fallback_per_day_mm_global
    prev row = Ok r ->
  total_drift_mm r
  = match daily r with
    | [] => None
    | _ => Some (Qsum (map drift (daily r)))
    end.
Proof.
  unfold simulate_quarter. cbv zeta.
  destruct (build_daily_path _ rates) as [[df mi]|]; [|discriminate].
  cbn [bind]. intros H.
  match type of H with Ok ?x = _ => set (res := x) in H end.
  apply (f_equal (fun o => match o with Ok v => v | Raise _ => res end)) in H.
  cbv beta iota in H. subst r. reflexivity.
Qed.

(** X23: for a quarter with at least one day, the total drift that a
    turn of the loop reports is the residual of the quarter: end
    liquidity minus start liquidity minus the sum of the amounts of the
    events of the quarter minus the sum of its purchase cash flows. *)
Theorem quarter_total_drift_is_residual
    (yahoo : Timestamp -> Timestamp -> option (list PriceRow))
    (q_liq : Dict) (all_events : list Event) (rates : list RateRow)
    (btc_units_total : Q) (btc_start btc_end : Timestamp)
    (units_per_day_global fallback_per_day_mm_global : Q)
    (prev_end_liq : option Q) (row : QuarterRow) (r : QuarterResult) :
  q_start row <= q_end row ->
  simulate_quarter yahoo q_liq all_events rates btc_units_total
    btc_start btc_end units_per_day_global fallback_per_day_mm_global
    prev_end_liq row = Ok r ->
  exists x,
    total_drift_mm r = Some x
    /\ (x == ((end_liq_mm r - start_liq_mm r) - ev_sum_mm r)
             - btc_sum_mm r)%Q.
Proof.
  intros Hle H.
  rewrite (simulate_quarter_total_drift _ _ _ _ _ _ _ _ _ _ _ _ H).
  destruct (simulate_quarter_inv _ _ _ _ _ _ _ _ _ _ _ _ H)
    as (Hd & Hu & _ & Hs & He & Hev & Hbtc & _).
  set (inputs := quarter_inputs_of yahoo q_liq all_events btc_units_total
                   btc_start btc_end units_per_day_global
                   fallback_per_day_mm_global prev_end_liq row) in *.
  pose proof (date_range_nonempty _ _ Hle) as Hne.
  pose proof (inject_Z_length_nonzero _ Hne) as Hn.
  rewrite Hd. unfold daily_path_of.
  change (qi_start inputs) with (q_start row).
  change (qi_end inputs) with (q_end row).
  destruct (date_range (q_start row) (q_end row)) as [|d0 dates] eqn:Ed;
    [congruence|].
  rewrite path_rows_cons. cbv iota. rewrite <- path_rows_cons.
  eexists. split; [reflexivity|].
  rewrite path_rows_drifts, Qsum_const.
  assert (Hm : (Qsum (map (fun d => events_at (events inputs) d
                                    + btc_at (btc_out inputs) d)
                          (d0 :: dates))
                == ev_sum_mm r + btc_sum_mm r)%Q).
  { rewrite Qsum_map_plus, Hev, Hbtc. rewrite <- Ed.
    apply Qplus_comp.
    - apply events_column_sum.
      + now apply is_unique_NoDup.
      + apply date_range_NoDup.
      + intros ev Hin. apply date_range_In.
        exact (quarter_events_dates _ _ _ _ Hin).
    - destruct (quarter_btc_dates yahoo btc_units_total btc_start btc_end
                  units_per_day_global fallback_per_day_mm_global
                  (q_start row) (q_end row)) as [Hnd Hin].
      apply btc_column_sum.
      + exact Hnd.
      + apply date_range_NoDup.
      + intros b Hb. apply date_range_In. now apply Hin. }
  rewrite Hs, He. unfold drift_of.
  change (qi_start inputs) with (q_start row).
  change (qi_end inputs) with (q_end row).
  rewrite Ed, Hm.
  change (start_liq inputs) with (start_liq_of q_liq prev_end_liq row).
  field. exact Hn.
Qed.

Lemma quarter_total_drift_is_residual_witness :
  exists r x,
    simulate_quarter (fun _ _ => None) [] event_on_day_5 scenario_rates
      4710 20212 20249 (4710 / 38) (510 / 38) (Some 500%Q) ten_day_row
    = Ok r
    /\ total_drift_mm r = Some x
    /\ (x == ((end_liq_mm r - start_liq_mm r) - ev_sum_mm r)
             - btc_sum_mm r)%Q.
Proof.
  destruct (simulate_quarter (fun _ _ => None) [] event_on_day_5
              scenario_rates 4710 20212 20249 (4710 / 38) (510 / 38)
              (Some 500%Q) ten_day_row) as [r|] eqn:E; [|discriminate E].
  destruct (quarter_total_drift_is_residual (fun _ _ => None) []
              event_on_day_5 scenario_rates 4710 20212 20249 (4710 / 38)
              (510 / 38) (Some 500%Q) ten_day_row r) as (x & Hx & Hres).
  - simpl. lia.
  - exact E.
  - exists r, x. split; [reflexivity|]. split; assumption.
Defined.
(** Formatting and parsing back, for the days up to 2106-11-23. *)
Lemma strftime_parses_back t :
  0 <= t <= 50000 -> to_dt (strftime t) = Ok t.
Proof.
  intros Ht.
  pose proof (forallb_date_range parses_back 0 50000 t
                parses_back_to_2106 Ht) as H.
  unfold parses_back in H.
  destruct (to_dt (strftime t)) as [t'|e]; [|discriminate H].
  f_equal. symmetry. now apply Z.eqb_eq.
Qed.

Lemma dict_get_key k d v : dict_get k d = Some v -> In k (keys d).
Proof.
  induction d as [|[k' v'] d IH]; [discriminate|].
  cbn [dict_get keys map fst].
  destruct (String.eqb_spec k k') as [->|_]; [now left|].
  intros H. right. now apply IH.
Qed.

Lemma forecast_ends_In quarter_days n : forall l e,
  In e (forecast_ends quarter_days l n) ->
  exists k, 1 <= k <= Z.of_nat n /\ e = l + k * quarter_days.
Proof.
  induction n as [|n IH]; intros l e Hin; [contradiction|].
  cbn [forecast_ends] in Hin. destruct Hin as [<-|Hin].
  - exists 1. split; lia.
  - apply IH in Hin as (k & Hk & ->). exists (k + 1). split; lia.
Qed.

(** A day after the last anchor, within the range of the round trip,
    is the key of no anchor. *)
Lemma no_anchor_after_last e :
  20211 < e <= 50000 ->
  dict_get (strftime e) quarter_end_liquidity = None.
Proof.
  intros He.
  destruct (dict_get (strftime e) quarter_end_liquidity) as [v|] eqn:E;
    [|reflexivity].
  exfalso. apply dict_get_key in E.
  pose proof (strftime_parses_back e ltac:(lia)) as Hback.
  cbn [keys map fst quarter_end_liquidity In] in E.
  repeat (destruct E as [E|E];
          [rewrite <- E in Hback; vm_compute in Hback;
           injection Hback as Hback; lia|]).
  contradiction.
Qed.

(** The i-th quarter end of the anchor table is the key of the i-th
    anchor. *)
Lemma anchor_of_end i e :
  nth_error anchor_ends i = Some e ->
  dict_get (strftime e) quarter_end_liquidity
  = nth_error (map snd quarter_end_liquidity) i
  /\ exists v, nth_error (map snd quarter_end_liquidity) i = Some v.
Proof.
  intros H.
  do 13 (destruct i as [|i];
         [apply Some_inj in H; subst e; split;
          [vm_compute; reflexivity|eexists; reflexivity]|]).
  destruct i; discriminate H.
Qed.

(** The run returns when the FRED response has no two rows of the same
    date and the purchase window is given by two dates. *)
Lemma simulate_all_returns (w : World) (net_to_gross btc_units : Q)
    (btc_window : string * string) (forecast_quarters : Z) :
  (forall s e, is_unique (index (or_empty_frame (fred w s e))) = true) ->
  (exists a b, to_dt (fst btc_window) = Ok a
               /\ to_dt (snd btc_window) = Ok b) ->
  exists rs,
    simulate_all w net_to_gross btc_units btc_window forecast_quarters
    = Ok rs.
Proof.
  intros Hfred (a & b & Ha & Hb). unfold simulate_all.
  destruct (quarter_frame_shape forecast_quarters 91) as (qdf & -> & _).
  cbn [bind].
  destruct (dated_events_ok net_to_gross) as (evs & -> & Hev).
  cbn [bind].
  destruct (fetch_rates (fred w) (column_min (map q_start qdf) - 5)
              (column_max (map q_end qdf) + 5)) as [rates0|] eqn:Er;
    [|rewrite (fetch_rates_eq _ _ _ (Hfred _ _)) in Er; discriminate].
  cbn [bind].
  destruct (apply_scheduled_rate_events_ok rates0) as (rates & -> & Hr).
  cbn [bind]. rewrite Ha, Hb. cbn [bind]. cbv zeta.
  match goal with
  | |- context [quarter_loop ?y ?q ?e ?r ?u ?s1 ?s2 ?g1 ?g2 None qdf] =>
      destruct (quarter_loop_ok y q e r u s1 s2 g1 g2 qdf None)
        as [rs Hrs]
  end.
  - rewrite Hev. reflexivity.
  - rewrite Hr, (fetch_rates_dates _ _ _ _ Er).
    apply is_unique_NoDup, date_range_NoDup.
  - exists rs. exact Hrs.
Qed.

(** X24: a run of [simulate_all] over at most 300 forecast quarters
    marks as reported exactly the quarters of the anchor table, which
    come first, each with its anchor as end liquidity, and as forecast
    exactly the appended ones; the first quarter starts from its own
    anchor. *)
Theorem simulate_all_reported_then_forecast (w : World)
    (net_to_gross btc_units : Q) (btc_window : string * string)
    (forecast_quarters : Z) (rs : list QuarterResult) :
  forecast_quarters <= 300 ->
  simulate_all w net_to_gross btc_units btc_window forecast_quarters
  = Ok rs ->
  forall i r,
    nth_error rs i = Some r ->
    is_forecast r = (length quarter_end_liquidity <=? i)%nat
    /\ (forall anchor,
          nth_error (map snd quarter_end_liquidity) i = Some anchor ->
          end_liq_mm r = anchor)
    /\ (i = O -> start_liq_mm r = end_liq_mm r).
Proof.
  intros Hfq H i r Hr. unfold simulate_all in H.
  rewrite build_quarter_frame_with_forecast_eq in H.
  set (n := Z.to_nat (Z.max forecast_quarters 0)) in *.
  set (ends := anchor_ends ++ forecast_ends 91 20211 n) in *.
  set (rows := quarter_rows 0 None 91 ends) in *.
  rewrite (assign_days_ok rows) in H
    by (unfold rows, ends; discriminate).
  cbn [bind] in H.
  destruct (dated_events net_to_gross) as [evs|]; [|discriminate].
  cbn [bind] in H.
  destruct (fetch_rates _ _ _) as [rates0|]; [|discriminate].
  cbn [bind] in H.
  destruct (apply_future_rate_events _ _) as [rates|]; [|discriminate].
  cbn [bind] in H.
  destruct (to_dt (fst btc_window)) as [a|]; [|discriminate].
  cbn [bind] in H.
  destruct (to_dt (snd btc_window)) as [b|]; [|discriminate].
  cbn [bind] in H. cbv zeta in H.
  destruct (quarter_loop_inv _ _ _ _ _ _ _ _ _ _ _ _ H) as [Hlen Hnth].
  destruct (nth_error (map row_of rows) i) as [row|] eqn:Erow.
  2:{ apply nth_error_None in Erow.
      assert (nth_error rs i <> None) as Hlt by congruence.
      apply nth_error_Some in Hlt. lia. }
  specialize (Hnth i row r Erow Hr).
  (* the end of the quarter is the i-th end *)
  assert (Hend : nth_error ends i = Some (q_end row)).
  { pose proof (f_equal (option_map q_end) Erow) as Hq.
    rewrite <- nth_error_map, frame_ends in Hq. unfold rows in Hq.
    rewrite quarter_rows_ends in Hq. exact Hq. }
  destruct (simulate_quarter_inv _ _ _ _ _ _ _ _ _ _ _ _ Hnth)
    as (_ & _ & _ & Hs & He & _ & _ & Hf & _).
  rewrite Hf, He, Hs.
  unfold start_liq_of. cbn [end_liq quarter_inputs_of].
  unfold start_liq_of.
  destruct (Nat.leb_spec (length quarter_end_liquidity) i) as [Hge|Hlt].
  - (* an appended quarter *)
    unfold ends in Hend.
    rewrite nth_error_app2 in Hend by exact Hge.
    apply nth_error_In, forecast_ends_In in Hend as (k & Hk & Hq).
    assert (Hnone : dict_get (strftime (q_end row)) quarter_end_liquidity
                    = None) by (apply no_anchor_after_last; lia).
    rewrite Hnone. split; [reflexivity|]. split.
    + intros anchor Ha. exfalso.
      assert (Hi : nth_error (map snd quarter_end_liquidity) i <> None)
        by congruence.
      apply nth_error_Some in Hi. rewrite length_map in Hi. lia.
    + intros ->. cbn in Hge. lia.
  - (* a quarter of the anchor table *)
    unfold ends in Hend.
    rewrite nth_error_app1 in Hend by exact Hlt.
    destruct (anchor_of_end i _ Hend) as (-> & v & Hv).
    rewrite Hv. split; [reflexivity|]. split.
    + intros anchor Ha. congruence.
    + intros ->. reflexivity.
Qed.

Lemma simulate_all_reported_then_forecast_witness :
  exists rs,
    simulate_all offline ATM_NET_TO_GROSS 4710
      ("2025-05-04", "2025-06-10")%string 3 = Ok rs
    /\ forall i r,
         nth_error rs i = Some r ->
         is_forecast r = (13 <=? i)%nat.
Proof.
  destruct (simulate_all_returns offline ATM_NET_TO_GROSS 4710
              ("2025-05-04", "2025-06-10")%string 3) as (rs & E).
  - intros s e. reflexivity.
  - exists 20212, 20249. split; reflexivity.
  - exists rs. split; [exact E|].
    intros i r Hr.
    assert (Hle : 3 <= 300) by lia.
    exact (proj1 (simulate_all_reported_then_forecast offline
                    ATM_NET_TO_GROSS 4710
                    ("2025-05-04", "2025-06-10")%string 3 rs
                    Hle E i r Hr)).
Defined.

(* ------------------------------------------------------------------ *)
(** ** Quarter-end closes *)

Lemma pad_lookup_later (b : Series (option Q)) w : forall acc : option Q,
  (forall c, In c b -> w < fst c) ->
  fold_left (fun acc c => if fst c <=? w then snd c else acc) b acc = acc.
Proof.
  induction b as [|c b IH]; intros acc H; [reflexivity|].
  cbn [fold_left].
  destruct (Z.leb_spec (fst c) w) as [Hle|_].
  - pose proof (H c (or_introl eq_refl)). lia.
  - apply IH. intros c' Hc'. apply H. now right.
Qed.

(** The cell of the last label at or before the target. *)
Lemma pad_lookup_split (a b : Series (option Q)) m v w :
  m <= w ->
  (forall c, In c b -> w < fst c) ->
  pad_lookup (a ++ (m, v) :: b) w = v.
Proof.
  intros Hm Hb. unfold pad_lookup.
  rewrite fold_left_app. cbn [fold_left fst snd].
  destruct (Z.leb_spec m w) as [_|Hlt]; [|lia].
  now apply pad_lookup_later.
Qed.

Lemma pad_lookup_before (s : Series (option Q)) w :
  (forall c, In c s -> w < fst c) -> pad_lookup s w = None.
Proof. intros H. now apply pad_lookup_later. Qed.

Lemma column_min_le a l : forall d,
  In d (a :: l) -> fold_left Z.min l a <= d.
Proof.
  revert a. induction l as [|b l IH]; intros a d Hd.
  - destruct Hd as [<-|[]]. cbn. lia.
  - cbn [fold_left].
    assert (Hmono : forall l x y, x <= y ->
              fold_left Z.min l x <= fold_left Z.min l y).
    { clear. induction l as [|c l IH]; intros x y Hxy; [exact Hxy|].
      cbn [fold_left]. apply IH. lia. }
    destruct Hd as [<-|[<-|Hd]].
    + transitivity (fold_left Z.min l a).
      * apply Hmono. lia.
      * apply IH. now left.
    + transitivity (fold_left Z.min l b).
      * apply Hmono. lia.
      * apply IH. now left.
    + apply IH. now right.
Qed.

Lemma column_max_ge a l : forall d,
  In d (a :: l) -> d <= fold_left Z.max l a.
Proof.
  revert a. induction l as [|b l IH]; intros a d Hd.
  - destruct Hd as [<-|[]]. cbn. lia.
  - cbn [fold_left].
    assert (Hmono : forall l x y, x <= y ->
              fold_left Z.max l x <= fold_left Z.max l y).
    { clear. induction l as [|c l IH]; intros x y Hxy; [exact Hxy|].
      cbn [fold_left]. apply IH. lia. }
    destruct Hd as [<-|[<-|Hd]].
    + transitivity (fold_left Z.max l a).
      * apply IH. now left.
      * apply Hmono. lia.
    + transitivity (fold_left Z.max l b).
      * apply IH. now left.
      * apply Hmono. lia.
    + apply IH. now right.
Qed.

Lemma column_bounds l d :
  In d l -> column_min l <= d <= column_max l.
Proof.
  destruct l as [|a l]; [contradiction|]. intros Hd.
  unfold column_min, column_max. split.
  - now apply column_min_le.
  - now apply column_max_ge.
Qed.

(** The series of closes once the download is known to have given rows
    of distinct dates: the padded look-up in the filled calendar from
    the first to the last date of the frame. *)
Lemma closes_on_eq df want :
  df <> [] ->
  is_unique (map p_date df) = true ->
  closes_on (Some df) want
  = Ok (map (fun w =>
          (w, pad_lookup
                (ffill (map (fun d =>
                          (d, cell_at (map (fun r => (p_date r, Close r)) df)
                                      d))
                        (date_range (column_min (map p_date df))
                                    (column_max (map p_date df)))))
                w)) want).
Proof.
  intros Hne Hu. unfold closes_on.
  destruct df as [|r df]; [congruence|].
  set (rows := r :: df) in *. cbv zeta.
  assert (Hi : index (map (fun r => (p_date r, Close r)) rows)
               = map p_date rows).
  { unfold index. rewrite map_map. reflexivity. }
  rewrite Hi. rewrite reindex_ok by (rewrite Hi; exact Hu).
  reflexivity.
Qed.

(** X25: the series of quarter-end closes has one cell per requested
    date, in the order of the request, whatever the download does; the
    cells are all NaN when the download raises, returns no row, or
    returns two rows of one date. *)
Theorem prefetch_btc_closes_index
    (yahoo : Timestamp -> Timestamp -> option (list PriceRow))
    (q_end_dates : list Timestamp) :
  index (prefetch_btc_closes yahoo q_end_dates) = q_end_dates
  /\ (match yahoo (column_min q_end_dates - 5)
                  (column_max q_end_dates + 2) with
      | None => True
      | Some df => df = [] \/ is_unique (map p_date df) = false
      end ->
      prefetch_btc_closes yahoo q_end_dates
      = map (fun w => (w, None)) q_end_dates).
Proof.
  assert (Hmap : forall (f : Timestamp -> option Q) (l : list Timestamp),
            index (map (fun w => (w, f w)) l) = l).
  { intros f l. unfold index. rewrite map_map. cbn [fst]. apply map_id. }
  unfold prefetch_btc_closes.
  destruct q_end_dates as [|q qs]; [split; reflexivity|].
  set (want := q :: qs). cbv zeta.
  destruct (yahoo (column_min want - 5) (column_max want + 2))
    as [[|r df]|]; cbn [closes_on].
  - split; [apply Hmap|reflexivity].
  - split.
    + destruct (reindex _ _ _) as [px|]; cbn [bind]; apply Hmap.
    + intros [Hd|Hd]; [discriminate|].
      unfold reindex, index. rewrite map_map. cbn [fst].
      change (map (fun x : PriceRow => p_date x) (r :: df))
        with (map p_date (r :: df)).
      rewrite Hd. reflexivity.
  - split; [apply Hmap|reflexivity].
Qed.

Lemma prefetch_btc_closes_index_witness :
  prefetch_btc_closes (fun _ _ => None) [20211; 20302]
  = [(20211, None); (20302, None)].
Proof.
  apply (proj2 (prefetch_btc_closes_index (fun _ _ => None) [20211; 20302])).
  exact I.
Defined.

(** X26: when the download gives rows of distinct dates, a requested
    date takes the most recent close known at or before it: the close
    [c] of a row dated [d0], when no row dated after [d0] and up to the
    requested date has a close. *)
Theorem prefetch_btc_closes_last_known
    (yahoo : Timestamp -> Timestamp -> option (list PriceRow))
    (q_end_dates : list Timestamp) (df : list PriceRow)
    (w d0 : Timestamp) (c : Q) :
  yahoo (column_min q_end_dates - 5) (column_max q_end_dates + 2)
  = Some df ->
  is_unique (map p_date df) = true ->
  In w q_end_dates ->
  d0 <= w ->
  cell_at (map (fun r => (p_date r, Close r)) df) d0 = Some c ->
  (forall d, d0 < d <= w ->
             cell_at (map (fun r => (p_date r, Close r)) df) d = None) ->
  In (w, Some c) (prefetch_btc_closes yahoo q_end_dates).
Proof.
  intros Hy Hu Hw Hd0 Hc Hnan.
  set (px := map (fun r => (p_date r, Close r)) df) in *.
  assert (Hi : index px = map p_date df).
  { unfold px, index. rewrite map_map. reflexivity. }
  (* the row of [d0] is in the frame *)
  assert (Hin0 : In d0 (map p_date df)).
  { unfold cell_at in Hc.
    destruct (lookup d0 px) as [v|] eqn:E; [|discriminate].
    apply lookup_In in E. rewrite <- Hi.
    apply (in_map fst) in E. exact E. }
  assert (Hne : df <> []) by (intros ->; contradiction).
  unfold prefetch_btc_closes.
  destruct q_end_dates as [|q qs]; [contradiction|].
  set (want := q :: qs) in *. cbv zeta. rewrite Hy.
  rewrite (closes_on_eq df want Hne Hu). fold px.
  apply in_map_iff. exists w. split; [|exact Hw]. f_equal.
  pose proof (column_bounds _ _ Hin0) as [Hlo Hhi].
  set (lo := column_min (map p_date df)) in *.
  set (hi := column_max (map p_date df)) in *.
  (* the last day of the calendar at or before [w] *)
  set (m := Z.min w hi).
  assert (Hm : d0 <= m <= hi) by lia.
  unfold ffill.
  destruct (Z.eq_dec m d0) as [E|Hne0].
  - rewrite (date_range_split lo d0 hi) by lia.
    rewrite map_app. cbn [map]. rewrite Hc.
    rewrite ffill_from_app. cbn [ffill_from].
    apply pad_lookup_split; [lia|].
    intros [k v] Hk. apply (in_map fst) in Hk.
    change (map fst ?s) with (index s) in Hk.
    rewrite ffill_from_index in Hk. unfold index in Hk.
    rewrite map_map in Hk. cbn [fst] in Hk. rewrite map_id in Hk.
    apply date_range_In in Hk. cbn [fst]. lia.
  - rewrite (date_range_split lo d0 hi) by lia.
    rewrite (date_range_split (d0 + 1) m hi) by lia.
    rewrite !map_app. cbn [map]. rewrite !map_app. cbn [map].
    rewrite Hc, (Hnan m) by lia.
    set (pre := map (fun d => (d, cell_at px d)) (date_range lo (d0 - 1))).
    set (mid := map (fun d => (d, cell_at px d))
                    (date_range (d0 + 1) (m - 1))).
    set (post := map (fun d => (d, cell_at px d)) (date_range (m + 1) hi)).
    replace (pre ++ (d0, Some c) :: mid ++ (m, None) :: post)
      with ((pre ++ [(d0, Some c)] ++ mid) ++ (m, None) :: post)
      by (rewrite <- !app_assoc; reflexivity).
    rewrite ffill_from_app. cbn [ffill_from].
    rewrite !last_valid_app.
    rewrite (last_valid_all_nan mid).
    2:{ intros x Hx. apply in_map_iff in Hx as (d & <- & Hd).
        apply date_range_In in Hd. cbn [snd]. apply Hnan. lia. }
    change (last_valid (last_valid None pre) [(d0, Some c)]) with (Some c).
    apply pad_lookup_split; [lia|].
    intros [k v] Hk. apply (in_map fst) in Hk.
    change (map fst ?s) with (index s) in Hk.
    rewrite ffill_from_index in Hk. unfold index, post in Hk.
    rewrite map_map in Hk. cbn [fst] in Hk. rewrite map_id in Hk.
    apply date_range_In in Hk. cbn [fst]. lia.
Qed.

Lemma prefetch_btc_closes_last_known_witness :
  In (20302, Some 95000%Q)
     (prefetch_btc_closes (fun _ _ => Some three_price_rows)
        [20211; 20302]).
Proof.
  apply (prefetch_btc_closes_last_known
           (fun _ _ => Some three_price_rows) [20211; 20302]
           three_price_rows 20302 20211 95000).
  - reflexivity.
  - reflexivity.
  - right. now left.
  - lia.
  - reflexivity.
  - intros d Hd.
    destruct (Z.eq_dec d 20212) as [->|Hn]; [reflexivity|].
    unfold cell_at. rewrite lookup_not_in; [reflexivity|].
    cbn. intros [E|[E|[E|[]]]]; lia.
Defined.

(* ------------------------------------------------------------------ *)
(** ** Holdings and yields *)

Lemma is_positive_lt x : (0 < x)%Q -> is_positive x = true.
Proof.
  intros H. unfold is_positive.
  destruct (Qle_bool x 0) eqn:E; [|reflexivity].
  apply Qle_bool_iff in E. exfalso. exact (Qlt_not_le _ _ H E).
Qed.

Lemma last_cons {A : Type} (l : list A) : forall a d,
  last (a :: l) d = last l a.
Proof.
  induction l as [|b l IH]; intros a d; [reflexivity|].
  change (last (a :: b :: l) d) with (last (b :: l) d).
  rewrite !IH. reflexivity.
Qed.

(** The yield implied by interest at one daily rate on every balance. *)
Lemma implied_yield_arith (s n c mi : Q) :
  ~ (n == 0)%Q -> ~ (s == 0)%Q ->
  (mi == ((c / 100) / DAYCOUNT) * s)%Q ->
  (((mi / ((s / n) * n)) * 365) * 100 == c)%Q.
Proof.
  intros Hn Hs ->. unfold DAYCOUNT. field. split; assumption.
Qed.

(** The earnings of a quarter and of the quarters after it. *)
Lemma telescope_arith (fe fb sp rest fl sps : Q) :
  (rest == (fl - fe) - sps)%Q ->
  ((fe - (fb + sp)) + rest == (fl - fb) - (sp + sps))%Q.
Proof. intros ->. ring. Qed.

Lemma nansum_interest k (l : list DailyRow) :
  Forall (fun r => exists y, interest_mm r = Some y
                             /\ (y == ending_balance_mm r * k)%Q) l ->
  (nansum (map interest_mm l) == k * Qsum (map ending_balance_mm l))%Q.
Proof.
  induction 1 as [|r l (y & Hr & Hy) _ IH]; unfold nansum, Qsum in *;
    cbn [map fold_right].
  - ring.
  - rewrite Hr, IH, Hy. ring.
Qed.

(** Every row of the path carries as interest its balance times the
    rate of its day. *)
Lemma path_rows_interest ev bt rate start dr dates r :
  In r (path_rows ev bt rate start dr dates) ->
  exists d, In d dates
            /\ interest_mm r
               = option_map (fun y => (ending_balance_mm r * y)%Q) (rate d).
Proof.
  unfold path_rows. intros Hin.
  apply in_map_iff in Hin as ([[[[[d e] b] x] bal] [d' v]] & <- & Ht).
  apply in_combine_r in Ht.
  apply in_map_iff in Ht as (d0 & E & Hd0). injection E as -> <-.
  exists d'. split; [exact Hd0|reflexivity].
Qed.

Lemma mean_const {A : Type} (c : Q) (l : list A) :
  l <> [] ->
  exists z, mean (map (fun _ => c) l) = Some z /\ (z == c)%Q.
Proof.
  intros Hne. destruct l as [|a l]; [congruence|].
  eexists. split; [reflexivity|].
  rewrite length_map, Qsum_const. field.
  apply inject_Z_length_nonzero. discriminate.
Qed.

Lemma valid_cells_const (c : Q) (l : list (option Q)) :
  Forall (fun v => v = Some c) l ->
  valid_cells l = map (fun _ => c) l.
Proof.
  induction 1 as [|v l Hv _ IH]; [reflexivity|].
  unfold valid_cells in *. cbn [flat_map map]. rewrite Hv, IH. reflexivity.
Qed.

Section ReportLoopFacts.

Variable yahoo : Timestamp -> Timestamp -> option (list PriceRow).
Variable q_liq : Dict.
Variable all_events : list Event.
Variable rates : list RateRow.
Variable btc_units_total : Q.
Variables btc_start btc_end : Timestamp.
Variables units_per_day_global fallback_per_day_mm_global : Q.
Variable btc_closes_by_qend : Series (option Q).

Local Abbreviation simulate_quarter_at :=
  (simulate_quarter yahoo q_liq all_events rates btc_units_total
     btc_start btc_end units_per_day_global fallback_per_day_mm_global).

Local Abbreviation quarter_loop_at :=
  (quarter_loop yahoo q_liq all_events rates btc_units_total
     btc_start btc_end units_per_day_global fallback_per_day_mm_global).

Local Abbreviation quarter_report_at :=
  (quarter_report yahoo q_liq all_events rates btc_units_total
     btc_start btc_end units_per_day_global fallback_per_day_mm_global
     btc_closes_by_qend).

Local Abbreviation report_loop_at :=
  (report_loop yahoo q_liq all_events rates btc_units_total
     btc_start btc_end units_per_day_global fallback_per_day_mm_global
     btc_closes_by_qend).

Local Abbreviation carried := (carried_value_mm btc_closes_by_qend).

(** What a turn of the whole body returns. *)
Lemma quarter_report_inv st prev row g st' :
  quarter_report_at st prev row = Ok (g, st') ->
  simulate_quarter_at prev row = Ok (core g)
  /\ btc_units_beg g = cum_btc_units st
  /\ btc_units_end g = (btc_units_beg g + btc_units_executed (core g))%Q
  /\ fv_beg_mm g = carried st
  /\ fv_end_mm g = carried st'
  /\ btc_px_qbeg_usd g
     = match prev_q_end st with
       | Some p => cell_at btc_closes_by_qend p
       | None => None
       end
  /\ btc_px_qend_usd g = cell_at btc_closes_by_qend (q_end row)
  /\ btc_earnings_mm g = (fv_end_mm g - (fv_beg_mm g + btc_spent_mm g))%Q
  /\ cum_btc_units st' = btc_units_end g
  /\ prev_q_end st' = Some (q_end row).
Proof.
  unfold quarter_report. cbv zeta.
  destruct (simulate_quarter_at prev row) as [r|]; [|discriminate].
  cbn [bind]. intros H. injection H as <- <-.
  repeat split; reflexivity.
Qed.

Lemma quarter_report_yields st prev row g st' :
  quarter_report_at st prev row = Ok (g, st') ->
  avg_balance_mm g = mean (map ending_balance_mm (daily (core g)))
  /\ ref_3m_ann_yield_pct g
     = nanmean (map rate_pct
                  (filter (fun x => (q_start row <=? r_date x)
                                    && (r_date x <=? q_end row)) rates))
  /\ implied_ann_yield_modeled_pct g
     = match avg_balance_mm g with
       | Some avg =>
           if is_positive avg
              && (0 <? Z.of_nat (length (daily (core g))))
           then Some (((modeled_interest_mm (core g)
                        / (avg * inject_Z
                                   (Z.of_nat (length (daily (core g))))))
                       * 365) * 100)%Q
           else None
       | None => None
       end.
Proof.
  unfold quarter_report. cbv zeta.
  destruct (simulate_quarter_at prev row) as [r|]; [|discriminate].
  cbn [bind]. intros H. injection H as <- <-.
  repeat split; reflexivity.
Qed.

Lemma quarter_report_ok st prev row r :
  simulate_quarter_at prev row = Ok r ->
  exists g st', quarter_report_at st prev row = Ok (g, st') /\ core g = r.
Proof.
  intros H. unfold quarter_report. cbv zeta. rewrite H. cbn [bind].
  eexists. eexists. split; reflexivity.
Qed.

(** The diagnostics change nothing in the variables of the loop. *)
Lemma report_loop_core qdf : forall st prev gs,
  report_loop_at st prev qdf = Ok gs ->
  quarter_loop_at prev qdf = Ok (map core gs).
Proof.
  induction qdf as [|row qdf IH]; intros st prev gs H.
  - injection H as <-. reflexivity.
  - cbn [report_loop] in H.
    destruct (quarter_report_at st prev row) as [[g st']|] eqn:E;
      [|discriminate].
    cbn [bind] in H.
    destruct (report_loop_at st' (Some (end_liq_carry_mm (core g))) qdf)
      as [gs'|] eqn:E'; [|discriminate].
    cbn [bind] in H. injection H as <-.
    apply quarter_report_inv in E as (E & _).
    cbn [quarter_loop]. rewrite E. cbn [bind].
    rewrite (IH _ _ _ E'). reflexivity.
Qed.

(** They raise nothing either. *)
Lemma report_loop_ok qdf : forall st prev rs,
  quarter_loop_at prev qdf = Ok rs ->
  exists gs, report_loop_at st prev qdf = Ok gs /\ map core gs = rs.
Proof.
  induction qdf as [|row qdf IH]; intros st prev rs H.
  - injection H as <-. exists []. split; reflexivity.
  - cbn [quarter_loop] in H.
    destruct (simulate_quarter_at prev row) as [r|] eqn:E; [|discriminate].
    cbn [bind] in H.
    destruct (quarter_loop_at (Some (end_liq_carry_mm r)) qdf)
      as [rs'|] eqn:E'; [|discriminate].
    cbn [bind] in H. injection H as <-.
    destruct (quarter_report_ok st prev row r E) as (g & st' & Eg & Hg).
    cbn [report_loop]. rewrite Eg. cbn [bind]. rewrite Hg.
    destruct (IH st' _ _ E') as (gs' & -> & Hgs).
    cbn [bind]. exists (g :: gs'). split; [reflexivity|].
    cbn [map]. now rewrite Hg, Hgs.
Qed.

(** The position is rolled from each quarter to the next. *)
Lemma report_loop_chain qdf : forall st prev gs,
  report_loop_at st prev qdf = Ok gs ->
  (forall g, nth_error gs 0 = Some g ->
             btc_units_beg g = cum_btc_units st /\ fv_beg_mm g = carried st)
  /\ (forall i p g,
        nth_error gs i = Some p ->
        nth_error gs (S i) = Some g ->
        btc_units_beg g = btc_units_end p
        /\ btc_px_qbeg_usd g = btc_px_qend_usd p
        /\ fv_beg_mm g = fv_end_mm p)
  /\ (forall g, In g gs ->
        btc_units_end g
        = (btc_units_beg g + btc_units_executed (core g))%Q).
Proof.
  induction qdf as [|row qdf IH]; intros st prev gs H.
  - injection H as <-. split; [|split].
    + intros g Hg. discriminate.
    + intros [|i] p g Hp; discriminate.
    + intros g [].
  - cbn [report_loop] in H.
    destruct (quarter_report_at st prev row) as [[g0 st']|] eqn:E;
      [|discriminate].
    cbn [bind] in H.
    destruct (report_loop_at st' (Some (end_liq_carry_mm (core g0))) qdf)
      as [gs'|] eqn:E'; [|discriminate].
    cbn [bind] in H. injection H as <-.
    apply quarter_report_inv in E
      as (_ & Hb & He & Hfb & Hfe & Hpb & Hpe & _ & Hu & Hq).
    destruct (IH _ _ _ E') as (Hfirst & Hnext & Hall).
    split; [|split].
    + intros g Hg. injection Hg as <-. split; assumption.
    + intros [|i] p g Hp Hg; cbn [nth_error] in Hp, Hg.
      * injection Hp as <-.
        destruct (Hfirst g Hg) as [H1 H2].
        split; [congruence|]. split; [|congruence].
        destruct qdf as [|row' qdf]; [injection E' as <-; discriminate|].
        cbn [report_loop] in E'.
        destruct (quarter_report_at st' _ row') as [[g1 st'']|] eqn:E1;
          [|discriminate].
        cbn [bind] in E'.
        destruct (report_loop_at st'' _ qdf) as [gs''|]; [|discriminate].
        cbn [bind] in E'. injection E' as <-.
        cbn [nth_error] in Hg. injection Hg as <-.
        apply quarter_report_inv in E1 as (_ & _ & _ & _ & _ & Hpb1 & _).
        rewrite Hpb1, Hq, Hpe. reflexivity.
      * exact (Hnext i p g Hp Hg).
    + intros g [<-|Hg]; [exact He|exact (Hall g Hg)].
Qed.

(** The earnings of the quarters add up to the change in the value of
    the position less what was spent. *)
Lemma report_loop_earnings qdf : forall st prev gs,
  report_loop_at st prev qdf = Ok gs ->
  (Qsum (map btc_earnings_mm gs)
   == (last (map fv_end_mm gs) (carried st) - carried st)
      - Qsum (map btc_spent_mm gs))%Q.
Proof.
  induction qdf as [|row qdf IH]; intros st prev gs H.
  - injection H as <-. cbn. ring.
  - cbn [report_loop] in H.
    destruct (quarter_report_at st prev row) as [[g0 st']|] eqn:E;
      [|discriminate].
    cbn [bind] in H.
    destruct (report_loop_at st' (Some (end_liq_carry_mm (core g0))) qdf)
      as [gs'|] eqn:E'; [|discriminate].
    cbn [bind] in H. injection H as <-.
    apply quarter_report_inv in E
      as (_ & _ & _ & Hfb & Hfe & _ & _ & Hearn & _).
    specialize (IH _ _ _ E').
    cbn [map]. rewrite last_cons.
    unfold Qsum in *. cbn [fold_right].
    rewrite Hearn, Hfb. rewrite <- Hfe in IH.
    apply telescope_arith. exact IH.
Qed.

(** X27: the implied yield under a flat rate.  When the rates frame
    has a row for every day of the quarter, and every row dated in the
    quarter is at [c] percent a year with [c] / 100 / 365 as its daily
    rate, a quarter whose average balance is positive has [c] as the
    annual yield implied by its modeled interest, and [c] as its
    reference yield. *)
Theorem flat_rate_implied_yield (c a : Q) st prev row g st' :
  (forall d, q_start row <= d <= q_end row -> In d (map r_date rates)) ->
  (forall x, In x rates -> q_start row <= r_date x <= q_end row ->
             rate_pct x = Some c
             /\ exists k, daily_rate x = Some k
                          /\ (k == (c / 100) / DAYCOUNT)%Q) ->
  quarter_report_at st prev row = Ok (g, st') ->
  avg_balance_mm g = Some a ->
  (0 < a)%Q ->
  exists y z,
    implied_ann_yield_modeled_pct g = Some y /\ (y == c)%Q
    /\ ref_3m_ann_yield_pct g = Some z /\ (z == c)%Q.
Proof.
  intros Hcover Hflat H Ha Hpos.
  destruct (quarter_report_yields _ _ _ _ _ H) as (Havg & Href & Himp).
  apply quarter_report_inv in H as (Hsim & _).
  destruct (simulate_quarter_inv _ _ _ _ _ _ _ _ _ _ _ _ Hsim)
    as (Hd & _ & Hmi & _).
  set (inputs := quarter_inputs_of yahoo q_liq all_events btc_units_total
                   btc_start btc_end units_per_day_global
                   fallback_per_day_mm_global prev row) in *.
  set (k := ((c / 100) / DAYCOUNT)%Q).
  (* the daily rate of every day of the quarter *)
  assert (Hrate : forall d, q_start row <= d <= q_end row ->
                            exists y, rate_at rates d = Some y
                                      /\ (y == k)%Q).
  { intros d Hdr. unfold rate_at.
    destruct (lookup d (map (fun r => (r_date r, daily_rate r)) rates))
      as [v|] eqn:E.
    - apply lookup_In in E. apply in_map_iff in E as (x & Ex & Hx).
      injection Ex as Ed <-.
      destruct (Hflat x Hx) as (_ & y & -> & Hy); [lia|].
      exists y. split; [reflexivity|exact Hy].
    - exfalso. assert (Hn : ~ In d (map r_date rates)).
      { intros Hin.
        assert (Hi : In d (index (map (fun r => (r_date r, daily_rate r))
                                      rates))).
        { unfold index. rewrite map_map. exact Hin. }
        clear Hin. revert E Hi.
        generalize (map (fun r => (r_date r, daily_rate r)) rates).
        intros s. induction s as [|[k0 v0] s IHs]; [intros _ []|].
        cbn [lookup index map fst].
        destruct (Z.eqb_spec d k0) as [->|Hne]; [discriminate|].
        intros E [Hk|Hi]; [congruence|]. exact (IHs E Hi). }
      exact (Hn (Hcover d Hdr)). }
  (* the interest of the quarter *)
  assert (Hint : (modeled_interest_mm (core g)
                  == k * Qsum (map ending_balance_mm (daily (core g))))%Q).
  { rewrite Hmi. apply nansum_interest. apply Forall_forall.
    intros r Hr. rewrite Hd in Hr. unfold daily_path_of in Hr.
    apply path_rows_interest in Hr as (d & Hin & ->).
    apply date_range_In in Hin.
    destruct (Hrate d Hin) as (y & -> & Hy). cbn [option_map].
    eexists. split; [reflexivity|]. now rewrite Hy. }
  (* the days of the quarter *)
  rewrite Ha in Himp. rewrite Havg in Ha.
  destruct (daily (core g)) as [|r0 rows] eqn:Erows; [discriminate Ha|].
  set (days := r0 :: rows) in *.
  assert (Hn : ~ (inject_Z (Z.of_nat (length days)) == 0)%Q)
    by (apply inject_Z_length_nonzero; discriminate).
  unfold mean in Ha. cbn [map days] in Ha. fold days in Ha.
  apply Some_inj in Ha.
  change (ending_balance_mm r0 :: map ending_balance_mm rows)
    with (map ending_balance_mm days) in Ha.
  rewrite length_map in Ha.
  assert (Hs : ~ (Qsum (map ending_balance_mm days) == 0)%Q).
  { intros Hz. rewrite <- Ha, Hz in Hpos.
    apply (Qlt_irrefl 0). unfold Qdiv in Hpos.
    now rewrite Qmult_0_l in Hpos. }
  rewrite (is_positive_lt a Hpos) in Himp.
  replace (0 <? Z.of_nat (length days)) with true in Himp
    by (symmetry; apply Z.ltb_lt; cbn [length days]; lia).
  cbn [andb] in Himp.
  (* the reference yield *)
  assert (Hq : q_start row <= q_end row).
  { assert (Hin : In (d_date r0) (map d_date days)) by now left.
    rewrite Hd in Hin. unfold daily_path_of in Hin.
    rewrite path_rows_dates in Hin. apply date_range_In in Hin.
    cbn [qi_start qi_end inputs quarter_inputs_of] in Hin. lia. }
  set (inq := filter (fun x => (q_start row <=? r_date x)
                               && (r_date x <=? q_end row)) rates) in *.
  assert (Hne : inq <> []).
  { assert (Hin : In (q_start row) (map r_date rates))
      by (apply Hcover; lia).
    apply in_map_iff in Hin as (x & Ex & Hx).
    assert (In x inq).
    { apply filter_In. split; [exact Hx|]. rewrite Ex.
      apply andb_true_iff. split; apply Z.leb_le; lia. }
    intros E. rewrite E in H. contradiction. }
  assert (Hcells : valid_cells (map rate_pct inq) = map (fun _ => c) inq).
  { rewrite (valid_cells_const c).
    - apply map_map.
    - apply Forall_forall. intros v Hv.
      apply in_map_iff in Hv as (x & <- & Hx).
      apply filter_In in Hx as [Hx Hb].
      apply andb_true_iff in Hb as [H1 H2].
      apply Z.leb_le in H1, H2. now destruct (Hflat x Hx) as [-> _]. }
  destruct (mean_const c inq Hne) as (z & Hz & Hzc).
  eexists. exists z. split; [exact Himp|]. split.
  - rewrite <- Ha.
    apply implied_yield_arith; [exact Hn|exact Hs|exact Hint].
  - split; [|exact Hzc].
    rewrite Href. unfold nanmean. rewrite Hcells. exact Hz.
Qed.

End ReportLoopFacts.

Lemma flat_rate_implied_yield_witness :
  exists g st' y,
    quarter_report (fun _ _ => None) [] event_on_day_5 scenario_rates
      4710 20212 20249 (4710 / 38) (510 / 38) []
      no_holdings (Some 500%Q) ten_day_row = Ok (g, st')
    /\ implied_ann_yield_modeled_pct g = Some y
    /\ (y == 365 # 100)%Q.
Proof.
  destruct (quarter_report (fun _ _ => None) [] event_on_day_5
              scenario_rates 4710 20212 20249 (4710 / 38) (510 / 38) []
              no_holdings (Some 500%Q) ten_day_row)
    as [[g st']|] eqn:E; [|discriminate E].
  destruct (avg_balance_mm g) as [a|] eqn:Ea;
    [|exfalso; vm_compute in E; injection E as <- _; discriminate Ea].
  destruct (flat_rate_implied_yield (fun _ _ => None) [] event_on_day_5
              scenario_rates 4710 20212 20249 (4710 / 38) (510 / 38) []
              (365 # 100) a no_holdings (Some 500%Q) ten_day_row g st')
    as (y & z & Hy & Hyc & _).
  - intros d Hd. apply (date_range_In 20089 20098). exact Hd.
  - intros x Hx _. unfold scenario_rates in Hx.
    apply in_map_iff in Hx as (d & <- & _). split; [reflexivity|].
    exists (1 # 10000). split; reflexivity.
  - exact E.
  - exact Ea.
  - vm_compute in E. injection E as <- _.
    vm_compute in Ea. injection Ea as <-. reflexivity.
  - exists g, st', y. split; [reflexivity|]. split; assumption.
Defined.

(** The run with the diagnostics returns whenever the run without them
    does, with the same variables of the loop. *)
Lemma simulate_all_report_ok w net_to_gross btc_units btc_window
    forecast_quarters rs :
  simulate_all w net_to_gross btc_units btc_window forecast_quarters
  = Ok rs ->
  exists gs,
    simulate_all_report w net_to_gross btc_units btc_window
      forecast_quarters = Ok gs
    /\ map core gs = rs.
Proof.
  unfold simulate_all, simulate_all_report. intros H.
  destruct (build_quarter_frame_with_forecast forecast_quarters 91)
    as [qdf|]; [|discriminate].
  cbn [bind] in *.
  destruct (dated_events net_to_gross) as [evs|]; [|discriminate].
  cbn [bind] in *.
  destruct (fetch_rates _ _ _) as [rates0|]; [|discriminate].
  cbn [bind] in *.
  destruct (apply_future_rate_events _ _) as [rates|]; [|discriminate].
  cbn [bind] in *. cbv zeta.
  destruct (to_dt (fst btc_window)) as [a|]; [|discriminate].
  cbn [bind] in *.
  destruct (to_dt (snd btc_window)) as [b|]; [|discriminate].
  cbn [bind] in *. cbv zeta in *.
  now apply report_loop_ok.
Qed.

(** X28: the position in a run.  The first quarter begins with no unit
    and no value; every later quarter begins with the units, the price
    and the fair value that the quarter before it ended with; every
    quarter ends with the units it began with and those it bought. *)
Theorem holdings_roll_forward (w : World) (net_to_gross btc_units : Q)
    (btc_window : string * string) (forecast_quarters : Z)
    (gs : list QuarterReport) :
  simulate_all_report w net_to_gross btc_units btc_window forecast_quarters
  = Ok gs ->
  (forall g, nth_error gs 0 = Some g ->
             btc_units_beg g = 0%Q /\ fv_beg_mm g = 0%Q)
  /\ (forall i p g,
        nth_error gs i = Some p ->
        nth_error gs (S i) = Some g ->
        btc_units_beg g = btc_units_end p
        /\ btc_px_qbeg_usd g = btc_px_qend_usd p
        /\ fv_beg_mm g = fv_end_mm p)
  /\ (forall g, In g gs ->
        btc_units_end g
        = (btc_units_beg g + btc_units_executed (core g))%Q).
Proof.
  unfold simulate_all_report. intros H.
  destruct (build_quarter_frame_with_forecast forecast_quarters 91)
    as [qdf|]; [|discriminate].
  cbn [bind] in H.
  destruct (dated_events net_to_gross) as [evs|]; [|discriminate].
  cbn [bind] in H.
  destruct (fetch_rates _ _ _) as [rates0|]; [|discriminate].
  cbn [bind] in H.
  destruct (apply_future_rate_events _ _) as [rates|]; [|discriminate].
  cbn [bind] in H. cbv zeta in H.
  destruct (to_dt (fst btc_window)) as [a|]; [|discriminate].
  cbn [bind] in H.
  destruct (to_dt (snd btc_window)) as [b|]; [|discriminate].
  cbn [bind] in H. cbv zeta in H.
  exact (report_loop_chain _ _ _ _ _ _ _ _ _ _ _ _ _ _ H).
Qed.

Lemma holdings_roll_forward_witness :
  exists gs,
    simulate_all_report flat_btc_world ATM_NET_TO_GROSS 4710
      ("2025-05-04", "2025-06-10")%string 3 = Ok gs
    /\ forall i p g,
         nth_error gs i = Some p ->
         nth_error gs (S i) = Some g ->
         btc_units_beg g = btc_units_end p.
Proof.
  destruct (simulate_all_returns flat_btc_world ATM_NET_TO_GROSS 4710
              ("2025-05-04", "2025-06-10")%string 3) as (rs & E).
  - intros s e. reflexivity.
  - exists 20212, 20249. split; reflexivity.
  - destruct (simulate_all_report_ok _ _ _ _ _ _ E) as (gs & Eg & _).
    exists gs. split; [exact Eg|].
    intros i p g Hp Hg.
    exact (proj1 (proj1 (proj2 (holdings_roll_forward flat_btc_world
                                  ATM_NET_TO_GROSS 4710
                                  ("2025-05-04", "2025-06-10")%string 3
                                  gs Eg)) i p g Hp Hg)).
Defined.

(** X29: the earnings on the position add up.  Over a run, the sum of
    the quarterly earnings is the fair value at the end of the last
    quarter less the sum of what the quarters spent. *)
Theorem btc_earnings_telescope (w : World) (net_to_gross btc_units : Q)
    (btc_window : string * string) (forecast_quarters : Z)
    (gs : list QuarterReport) :
  simulate_all_report w net_to_gross btc_units btc_window forecast_quarters
  = Ok gs ->
  (Qsum (map btc_earnings_mm gs)
   == last (map fv_end_mm gs) 0 - Qsum (map btc_spent_mm gs))%Q.
Proof.
  unfold simulate_all_report. intros H.
  destruct (build_quarter_frame_with_forecast forecast_quarters 91)
    as [qdf|]; [|discriminate].
  cbn [bind] in H.
  destruct (dated_events net_to_gross) as [evs|]; [|discriminate].
  cbn [bind] in H.
  destruct (fetch_rates _ _ _) as [rates0|]; [|discriminate].
  cbn [bind] in H.
  destruct (apply_future_rate_events _ _) as [rates|]; [|discriminate].
  cbn [bind] in H. cbv zeta in H.
  destruct (to_dt (fst btc_window)) as [a|]; [|discriminate].
  cbn [bind] in H.
  destruct (to_dt (snd btc_window)) as [b|]; [|discriminate].
  cbn [bind] in H. cbv zeta in H.
  rewrite (report_loop_earnings _ _ _ _ _ _ _ _ _ _ _ _ _ _ H).
  change (carried_value_mm _ no_holdings) with 0%Q. ring.
Qed.

Lemma btc_earnings_telescope_witness :
  exists gs,
    simulate_all_report flat_btc_world ATM_NET_TO_GROSS 4710
      ("2025-05-04", "2025-06-10")%string 3 = Ok gs
    /\ (Qsum (map btc_earnings_mm gs)
        == last (map fv_end_mm gs) 0 - Qsum (map btc_spent_mm gs))%Q.
Proof.
  destruct (simulate_all_returns flat_btc_world ATM_NET_TO_GROSS 4710
              ("2025-05-04", "2025-06-10")%string 3) as (rs & E).
  - intros s e. reflexivity.
  - exists 20212, 20249. split; reflexivity.
  - destruct (simulate_all_report_ok _ _ _ _ _ _ E) as (gs & Eg & _).
    exists gs. split; [exact Eg|].
    exact (btc_earnings_telescope flat_btc_world ATM_NET_TO_GROSS 4710
             ("2025-05-04", "2025-06-10")%string 3 gs Eg).
Defined.

(* ------------------------------------------------------------------ *)
(** ** The position without prices *)

Lemma is_positive_zero x : (x == 0)%Q -> is_positive x = false.
Proof.
  intros H. unfold is_positive.
  destruct (Qle_bool x 0) eqn:E; [reflexivity|].
  exfalso. assert (Hle : (x <= 0)%Q) by (rewrite H; apply Qle_refl).
  apply Qle_bool_iff in Hle. congruence.
Qed.

Lemma nansum_all_nan (l : list (option Q)) :
  Forall (fun v => v = None) l -> (nansum l == 0)%Q.
Proof.
  induction 1 as [|v l Hv _ IH]; unfold nansum, Qsum in *;
    cbn [map fold_right].
  - reflexivity.
  - rewrite Hv, IH. ring.
Qed.

Lemma cell_at_all_nan (l : list Timestamp) d :
  cell_at (map (fun w => (w, @None Q)) l) d = None.
Proof.
  unfold cell_at. induction l as [|a l IH]; [reflexivity|].
  cbn [map lookup]. destruct (d =? a); [reflexivity|exact IH].
Qed.

(** With every download raising, no quarter end has a close. *)
Lemma prefetch_btc_closes_offline yahoo q_end_dates d :
  (forall s e, yahoo s e = None) ->
  cell_at (prefetch_btc_closes yahoo q_end_dates) d = None.
Proof.
  intros Hy. unfold prefetch_btc_closes.
  destruct q_end_dates as [|q qs]; [reflexivity|].
  cbv zeta. rewrite Hy. cbn [closes_on]. apply cell_at_all_nan.
Qed.

(** With every download raising, no row of a purchase frame has
    units. *)
Lemma quarter_btc_offline yahoo btc_units_total btc_start btc_end
    units_per_day_global fallback_per_day_mm_global q_start q_end :
  (forall s e, yahoo s e = None) ->
  Forall (fun v => v = None)
    (map btc_units
       (quarter_btc yahoo btc_units_total btc_start btc_end
          units_per_day_global fallback_per_day_mm_global q_start q_end)).
Proof.
  intros Hy. unfold quarter_btc.
  destruct (Z.max q_start btc_start <=? Z.min q_end btc_end);
    [|constructor].
  unfold btc_outflow_series.
  destruct (date_range _ _) as [|d0 dates]; [constructor|].
  rewrite Hy. cbn [btc_priced]. unfold btc_fallback. cbv zeta.
  rewrite map_map. cbn [btc_units].
  apply Forall_forall. intros v Hv.
  apply in_map_iff in Hv as (d & <- & _). reflexivity.
Qed.

Lemma simulate_quarter_units yahoo q_liq all_events rates
    btc_units_total btc_start btc_end units_per_day_global
    fallback_per_day_mm_global prev row r :
  simulate_quarter yahoo q_liq all_events rates btc_units_total
    btc_start btc_end units_per_day_global fallback_per_day_mm_global
    prev row = Ok r ->
  btc_units_executed r
  = nansum (map btc_units
              (quarter_btc yahoo btc_units_total btc_start btc_end
                 units_per_day_global fallback_per_day_mm_global
                 (q_start row) (q_end row))).
Proof.
  unfold simulate_quarter. cbv zeta.
  destruct (build_daily_path _ rates) as [[df mi]|]; [|discriminate].
  cbn [bind]. intros H.
  match type of H with Ok ?x = _ => set (res := x) in H end.
  apply (f_equal (fun o => match o with Ok v => v | Raise _ => res end)) in H.
  cbv beta iota in H. subst r. reflexivity.
Qed.

Section ReportLoopWithoutPrices.

Variable yahoo : Timestamp -> Timestamp -> option (list PriceRow).
Variable q_liq : Dict.
Variable all_events : list Event.
Variable rates : list RateRow.
Variable btc_units_total : Q.
Variables btc_start btc_end : Timestamp.
Variables units_per_day_global fallback_per_day_mm_global : Q.
Variable btc_closes_by_qend : Series (option Q).

Hypothesis yahoo_raises : forall s e, yahoo s e = None.
Hypothesis no_close : forall d, cell_at btc_closes_by_qend d = None.

Local Abbreviation quarter_report_in :=
  (quarter_report yahoo q_liq all_events rates btc_units_total
     btc_start btc_end units_per_day_global fallback_per_day_mm_global
     btc_closes_by_qend).

Local Abbreviation report_loop_in :=
  (report_loop yahoo q_liq all_events rates btc_units_total
     btc_start btc_end units_per_day_global fallback_per_day_mm_global
     btc_closes_by_qend).

Lemma carried_without_prices st :
  carried_value_mm btc_closes_by_qend st = 0%Q.
Proof.
  unfold carried_value_mm.
  destruct (prev_q_end st); [rewrite no_close|]; reflexivity.
Qed.

Lemma quarter_report_without_prices st prev row g st' :
  quarter_report_in st prev row = Ok (g, st') ->
  (btc_units_executed (core g) == 0)%Q
  /\ btc_avg_price_usd g = None
  /\ fv_end_mm g = 0%Q
  /\ (btc_earnings_mm g == - btc_spent_mm g)%Q
  /\ ((cum_btc_units st == 0)%Q -> (cum_btc_units st' == 0)%Q)
  /\ ((cum_btc_units st == 0)%Q -> (btc_units_end g == 0)%Q).
Proof.
  intros H.
  assert (Hp : btc_avg_price_usd g
               = if is_positive (btc_units_executed (core g))
                 then Some ((btc_spent_mm g * 1000000)
                            / btc_units_executed (core g))%Q
                 else None).
  { revert H. unfold quarter_report. cbv zeta.
    destruct (simulate_quarter _ _ _ _ _ _ _ _ _ _ _) as [r|];
      [|discriminate].
    cbn [bind]. intros H. injection H as <- _. reflexivity. }
  apply quarter_report_inv in H
    as (Hsim & Hb & He & Hfb & Hfe & _ & _ & Hearn & Hu & _).
  assert (Hx : (btc_units_executed (core g) == 0)%Q).
  { rewrite (simulate_quarter_units _ _ _ _ _ _ _ _ _ _ _ _ Hsim).
    apply nansum_all_nan, quarter_btc_offline, yahoo_raises. }
  rewrite carried_without_prices in Hfb, Hfe.
  split; [exact Hx|]. split.
  { rewrite Hp, (is_positive_zero _ Hx). reflexivity. }
  split; [exact Hfe|]. split.
  { rewrite Hearn, Hfe, Hfb. ring. }
  split.
  - intros Hz. rewrite Hu, He, Hb, Hz, Hx. ring.
  - intros Hz. rewrite He, Hb, Hz, Hx. ring.
Qed.

Lemma report_loop_without_prices qdf : forall st prev gs,
  report_loop_in st prev qdf = Ok gs ->
  (cum_btc_units st == 0)%Q ->
  forall g, In g gs ->
    (btc_units_executed (core g) == 0)%Q
    /\ (btc_units_end g == 0)%Q
    /\ btc_avg_price_usd g = None
    /\ fv_end_mm g = 0%Q
    /\ (btc_earnings_mm g == - btc_spent_mm g)%Q.
Proof.
  induction qdf as [|row qdf IH]; intros st prev gs H Hz g Hg.
  - injection H as <-. contradiction.
  - cbn [report_loop] in H.
    destruct (quarter_report_in st prev row) as [[g0 st']|] eqn:E;
      [|discriminate].
    cbn [bind] in H.
    destruct (report_loop_in st' (Some (end_liq_carry_mm (core g0))) qdf)
      as [gs'|] eqn:E'; [|discriminate].
    cbn [bind] in H. injection H as <-.
    apply quarter_report_without_prices in E
      as (Hx & Hp & Hfe & Hearn & Hst & Hend).
    destruct Hg as [<-|Hg].
    + repeat split; auto.
    + exact (IH _ _ _ E' (Hst Hz) g Hg).
Qed.

End ReportLoopWithoutPrices.

(** X30: the position without prices.  When every Yahoo request
    raises, each quarter of a run executes no unit and holds none, has
    no average purchase price and no fair value, and shows as a loss
    what it spent on purchases. *)
Theorem holdings_without_prices (w : World) (net_to_gross btc_units : Q)
    (btc_window : string * string) (forecast_quarters : Z)
    (gs : list QuarterReport) :
  (forall s e, yahoo_btc w s e = None) ->
  simulate_all_report w net_to_gross btc_units btc_window forecast_quarters
  = Ok gs ->
  forall g, In g gs ->
    (btc_units_executed (core g) == 0)%Q
    /\ (btc_units_end g == 0)%Q
    /\ btc_avg_price_usd g = None
    /\ fv_end_mm g = 0%Q
    /\ (btc_earnings_mm g == - btc_spent_mm g)%Q.
Proof.
  intros Hy. unfold simulate_all_report. intros H.
  destruct (build_quarter_frame_with_forecast forecast_quarters 91)
    as [qdf|]; [|discriminate].
  cbn [bind] in H.
  destruct (dated_events net_to_gross) as [evs|]; [|discriminate].
  cbn [bind] in H.
  destruct (fetch_rates _ _ _) as [rates0|]; [|discriminate].
  cbn [bind] in H.
  destruct (apply_future_rate_events _ _) as [rates|]; [|discriminate].
  cbn [bind] in H. cbv zeta in H.
  destruct (to_dt (fst btc_window)) as [a|]; [|discriminate].
  cbn [bind] in H.
  destruct (to_dt (snd btc_window)) as [b|]; [|discriminate].
  cbn [bind] in H. cbv zeta in H.
  apply (report_loop_without_prices _ _ _ _ _ _ _ _ _ _ Hy
           (fun d => prefetch_btc_closes_offline _ _ d Hy) _ _ _ _ H).
  reflexivity.
Qed.

Lemma holdings_without_prices_witness :
  exists gs,
    simulate_all_report offline ATM_NET_TO_GROSS 4710
      ("2025-05-04", "2025-06-10")%string 3 = Ok gs
    /\ forall g, In g gs ->
         (btc_earnings_mm g == - btc_spent_mm g)%Q.
Proof.
  destruct (simulate_all_returns offline ATM_NET_TO_GROSS 4710
              ("2025-05-04", "2025-06-10")%string 3) as (rs & E).
  - intros s e. reflexivity.
  - exists 20212, 20249. split; reflexivity.
  - destruct (simulate_all_report_ok _ _ _ _ _ _ E) as (gs & Eg & _).
    exists gs. split; [exact Eg|].
    intros g Hg.
    assert (Hy : forall s e, yahoo_btc offline s e = None)
      by (intros s e; reflexivity).
    exact (proj2 (proj2 (proj2 (proj2
             (holdings_without_prices offline ATM_NET_TO_GROSS 4710
                ("2025-05-04", "2025-06-10")%string 3 gs Hy Eg g Hg))))).
Defined.

(* ------------------------------------------------------------------ *)
(** ** Days that a month lacks *)

Lemma timestamp_years_In y : 1678 <= y <= 2261 -> In y timestamp_years.
Proof.
  intros Hy. unfold timestamp_years. apply in_map_iff.
  exists (Z.to_nat y). split; [lia|]. apply in_seq. lia.
Qed.

Lemma timestamp_years_checked :
  forallb rejects_days_past_months timestamp_years = true.
Proof. vm_compute. reflexivity. Qed.

(** In the years of a [pd.Timestamp], the text of a day 29, 30 or 31
    that the month lacks is no date. *)
Lemma to_dt_day_past_month y m d :
  1678 <= y <= 2261 -> 1 <= m <= 12 -> days_in_month y m < d <= 31 ->
  to_dt (iso_text y m d) = Raise ValueError.
Proof.
  intros Hy Hm Hd.
  pose proof (proj1 (forallb_forall _ _) timestamp_years_checked y
                (timestamp_years_In y Hy)) as Hmonths.
  assert (Hmi : In m [1; 2; 3; 4; 5; 6; 7; 8; 9; 10; 11; 12])
    by (cbn [In]; lia).
  pose proof (proj1 (forallb_forall _ _) Hmonths m Hmi) as Hdays.
  assert (Hdi : In d [29; 30; 31]).
  { assert (28 <= days_in_month y m).
    { unfold days_in_month.
      destruct (m =? 2); [destruct (is_leap_year y); lia|].
      destruct ((m =? 4) || (m =? 6) || (m =? 9) || (m =? 11)); lia. }
    cbn [In]. lia. }
  pose proof (proj1 (forallb_forall _ _) Hdays d Hdi) as H.
  cbv beta in H.
  destruct (Z.leb_spec d (days_in_month y m)) as [Hle|_]; [lia|].
  cbn [orb] in H.
  destruct (to_dt (iso_text y m d)) as [t|[]]; try discriminate H.
  reflexivity.
Qed.

(** X20: a key of the anchor table that is the text YYYY-MM-DD of a day
    29, 30 or 31 that its month lacks, in a year from 1678 to 2261,
    makes the frame builder raise [ValueError], whatever the other
    arguments. *)
Theorem quarter_frame_day_past_month_raises (anchors : Dict) (y m d : Z)
    (forecast_quarters quarter_days : Z) :
  1678 <= y <= 2261 -> 1 <= m <= 12 -> days_in_month y m < d <= 31 ->
  In (iso_text y m d) (keys anchors) ->
  build_quarter_frame_from anchors forecast_quarters quarter_days
  = Raise ValueError.
Proof.
  intros Hy Hm Hd Hin. unfold build_quarter_frame_from.
  rewrite (mapM_raise to_dt (keys anchors) (iso_text y m d) ValueError Hin).
  - reflexivity.
  - now apply to_dt_day_past_month.
  - intros x e' Hx. exact (to_dt_raises _ _ Hx).
Qed.

Lemma quarter_frame_day_past_month_raises_witness :
  build_quarter_frame_from anchors_with_april_31 1 91 = Raise ValueError.
Proof.
  apply (quarter_frame_day_past_month_raises anchors_with_april_31
           2022 4 31 1 91).
  - lia.
  - lia.
  - change (days_in_month 2022 4) with 30. lia.
  - right. left. reflexivity.
Defined.

(* ------------------------------------------------------------------ *)
(** ** The drift of a forecast quarter in binary64 *)

Section Binary64Facts.

Import PrimFloat.
Local Open Scope float_scope.

(** C2: in binary64 the drift of a forecast quarter is not zero.  In
    the first forecast quarter of the program (2025-05-04 to
    2025-08-02), entered with the last anchor 6385.8 as start
    liquidity, with the events of [dated_events] and no purchase in
    the quarter, the drift per day that [build_daily_path] computes
    from the end liquidity that [simulate_all] sets is
    -0x1.6816816816817p-48, about -5e-15. *)
Theorem forecast_drift_residue :
  forecast_drift_per_day last_anchor_float
    (dated_events_float atm_net_to_gross_float) 20212%Z 20302%Z
  = Ok (-0x1.6816816816817p-48)
  /\ (-0x1.6816816816817p-48 =? 0) = false.
Proof. split; vm_compute; reflexivity. Qed.

End Binary64Facts.
